(** * SpiderUtilLib: the reverse line reader and the text search built on it

    A shallow embedding of [FileUtils.Reverse_File_Reader],
    [FileUtils.Text_File_Search_All] (src/SpiderUtilLib/FileUtils.py) and of
    their re-issues [reverse_file_reader], [text_file_search_all] and
    [text_file_cleanup] (src/src/SpiderUtilLib/FileUtils.py and
    src/src/SpiderUtilLib/SpiderUtilLib.py), with the properties the
    specification states about them; then of the other methods of
    [FileUtils] that work on values and files, and of the base64 codec of
    [WebUtils], with properties read off their code.

    Python values are modelled as follows: [bytes] is a list of bytes, [str]
    a list of characters, an [int] is a [Z], [None] is [option]'s [None], an
    exception is a value of [exn], a generator that is consumed to its end is
    the list of what it yields together with the exception that ended it, if
    any, and the file system is a table from paths to the bytes of the files. *)

From Stdlib Require Import Ascii String.
From Stdlib Require Import Init.Byte.
From Stdlib Require Import List ZArith Lia Bool Arith.
From Equations Require Import Equations.
Import ListNotations.

Set Implicit Arguments.
Local Open Scope Z_scope.

(* ===================================================================== *)
(** ** Python values and the builtins the code calls                       *)
(* ===================================================================== *)

Module Py.

Definition bytes := list byte.
Definition str := list ascii.

(** A [bytes] literal and a [str] literal. *)
Definition b (s : string) : bytes := list_byte_of_string s.
Definition u (s : string) : str := list_ascii_of_string s.

(** The exceptions that the modelled code can raise. *)
Inductive exn : Type :=
| ZeroDivisionError
| ValueError
| IndexError
| NameError (name : string)
| AttributeError (module attribute : string)
| FileNotFoundError (path : string)
| UnicodeDecodeError
| UnicodeEncodeError
| re_error.

(** The outcome of an expression that can raise. *)
Definition result (A : Type) := (exn + A)%type.

Definition ok {A} (a : A) : result A := inr a.
Definition raise {A} (e : exn) : result A := inl e.

Definition bind {A B} (r : result A) (k : A -> result B) : result B :=
  match r with
  | inl e => inl e
  | inr a => k a
  end.

(** A generator, consumed to its end: the values it yielded, then how it
    ended ([None] is the normal [StopIteration]). *)
Definition gen (A : Type) := (list A * option exn)%type.

Definition stop {A} : gen A := ([], None).
Definition throw {A} (e : exn) : gen A := ([], Some e).
Definition yield_from {A} (l : list A) (k : gen A) : gen A :=
  (l ++ fst k, snd k).
Definition yield {A} (a : A) (k : gen A) : gen A := yield_from [a] k.

(** [map f g] for a function that can raise: the mapped generator ends at
    the first value on which [f] raises. *)
Fixpoint map_items {A B} (f : A -> result B) (l : list A) (fin : option exn)
  : gen B :=
  match l with
  | [] => ([], fin)
  | a :: l' =>
      match f a with
      | inl e => throw e
      | inr v => yield v (map_items f l' fin)
      end
  end.

Definition gen_map {A B} (f : A -> result B) (g : gen A) : gen B :=
  map_items f (fst g) (snd g).

Definition CR : byte := x0d.
Definition LF : byte := x0a.

Definition is_CR (c : byte) : bool := Byte.eqb c CR.
Definition is_LF (c : byte) : bool := Byte.eqb c LF.

(** [s.startswith(prefix)] for one prefix. *)
Fixpoint startswith1 (s prefix : bytes) {struct prefix} : bool :=
  match prefix, s with
  | [], _ => true
  | p :: prefix', c :: s' => Byte.eqb p c && startswith1 s' prefix'
  | _ :: _, [] => false
  end.

Definition endswith1 (s suffix : bytes) : bool :=
  startswith1 (rev s) (rev suffix).

(** [s.startswith(t)] and [s.endswith(t)] for a tuple [t] of alternatives;
    a single [bytes] argument is the one-element tuple. *)
Definition startswith (s : bytes) (t : list bytes) : bool :=
  existsb (startswith1 s) t.
Definition endswith (s : bytes) (t : list bytes) : bool :=
  existsb (endswith1 s) t.

(** [bytes.splitlines(keepends)]: lines end at LF, at CR LF and at a CR
    that no LF follows; the terminator stays on the line when [keepends];
    no empty line follows the last terminator. *)
Fixpoint splitlines (keepends : bool) (s : bytes) : list bytes :=
  match s with
  | [] => []
  | c :: rest =>
      if is_LF c then (if keepends then [c] else []) :: splitlines keepends rest
      else if is_CR c then
        match rest with
        | d :: rest' =>
            if is_LF d
            then (if keepends then [c; d] else []) :: splitlines keepends rest'
            else (if keepends then [c] else []) :: splitlines keepends rest
        | [] => [if keepends then [c] else []]
        end
      else
        match splitlines keepends rest with
        | [] => [[c]]
        | l :: ls => (c :: l) :: ls
        end
  end.

(** [s.split(sep)] for a non-empty [sep]: the pieces between the
    occurrences of [sep], found left to right without overlap.  [cur] is
    the piece being read and [skip] the number of bytes of a separator
    just found that are still to be passed over. *)
Fixpoint split_scan (sep : bytes) (skip : nat) (cur s : bytes) : list bytes :=
  match s with
  | [] => [cur]
  | c :: s' =>
      match skip with
      | S k => split_scan sep k cur s'
      | O =>
          if startswith1 s sep
          then cur :: split_scan sep (length sep - 1) [] s'
          else split_scan sep O (cur ++ [c]) s'
      end
  end.

(** [s.split(sep)]; an empty separator raises [ValueError]. *)
Definition bytes_split (s sep : bytes) : result (list bytes) :=
  match sep with
  | [] => raise ValueError
  | _ :: _ => ok (split_scan sep O [] s)
  end.

(** *** [str] *)

Fixpoint str_startswith (s prefix : str) {struct prefix} : bool :=
  match prefix, s with
  | [], _ => true
  | p :: prefix', c :: s' => Ascii.eqb p c && str_startswith s' prefix'
  | _ :: _, [] => false
  end.

(** [s.find(sub)]: the lowest index at which [sub] occurs in [s], or
    [-1]; [i] is the index of the first character of [s]. *)
Fixpoint find_from (i : Z) (s sub : str) : Z :=
  if str_startswith s sub then i
  else match s with
       | [] => -1
       | _ :: s' => find_from (i + 1) s' sub
       end.

Definition find (s sub : str) : Z := find_from 0 s sub.

(** [c.isspace()] for a character below 256: tab to carriage return, the
    four separators 28 to 31, the space, NEL and the no-break space. *)
Definition isspace (c : ascii) : bool :=
  let n := nat_of_ascii c in
  ((9 <=? n) && (n <=? 13) || (28 <=? n) && (n <=? 32)
   || (n =? 133) || (n =? 160))%nat.

Fixpoint lstrip (s : str) : str :=
  match s with
  | [] => []
  | c :: s' => if isspace c then lstrip s' else s
  end.

(** [s.rstrip()]. *)
Definition rstrip (s : str) : str := rev (lstrip (rev s)).

Fixpoint replace_scan (old new : str) (skip : nat) (s : str) : str :=
  match s with
  | [] => []
  | c :: s' =>
      match skip with
      | S k => replace_scan old new k s'
      | O =>
          if str_startswith s old
          then new ++ replace_scan old new (length old - 1) s'
          else c :: replace_scan old new O s'
      end
  end.

(** [s.replace(old, new)]: every occurrence, left to right without
    overlap; an empty [old] occurs before every character and at the
    end. *)
Definition replace (s old new : str) : str :=
  match old with
  | [] => new ++ flat_map (fun c => c :: new) s
  | _ :: _ => replace_scan old new O s
  end.

(** *** Codecs and text files *)

(** What [encoding] stands for: the codec that [open] and
    [codecs.decode] look up by that name. *)
Record codec : Type := {
  decode : bytes -> result str;
  encode : str -> result bytes
}.

Definition is_ascii_byte (c : byte) : bool := (Byte.to_nat c <? 128)%nat.
Definition is_ascii_char (c : ascii) : bool := (nat_of_ascii c <? 128)%nat.

(** The codec ['ascii']. *)
Definition ascii_codec : codec := {|
  decode := fun s =>
    if forallb is_ascii_byte s then ok (map ascii_of_byte s)
    else raise UnicodeDecodeError;
  encode := fun s =>
    if forallb is_ascii_char s then ok (map byte_of_ascii s)
    else raise UnicodeEncodeError
|}.

(** A text file object that [open] has just returned: its codec and the
    bytes of the file under it ([file.buffer]). *)
Record TextIOWrapper : Type := {
  encoding : codec;
  buffer : bytes
}.

(** Universal newlines: the terminator of a line read in text mode is
    handed over as a line feed. *)
Definition universal_newline (line : str) : str :=
  match rev line with
  | c :: d :: front =>
      if Ascii.eqb c "010" && Ascii.eqb d "013" then rev front ++ ["010"%char]
      else if Ascii.eqb c "013" then rev (d :: front) ++ ["010"%char]
      else line
  | [c] => if Ascii.eqb c "013" then ["010"%char] else line
  | [] => line
  end.

(** The lines that a text file cuts its decoded text into: a line ends
    at LF, at CR LF and at a CR that no LF follows, and at nothing else;
    no empty line follows the last terminator. *)
Fixpoint str_splitlines (s : str) : list str :=
  match s with
  | [] => []
  | c :: rest =>
      if Ascii.eqb c "010" then [c] :: str_splitlines rest
      else if Ascii.eqb c "013" then
        match rest with
        | d :: rest' =>
            if Ascii.eqb d "010" then [c; d] :: str_splitlines rest'
            else [c] :: str_splitlines rest
        | [] => [[c]]
        end
      else
        match str_splitlines rest with
        | [] => [[c]]
        | l :: ls => (c :: l) :: ls
        end
  end.

(** [for line in file]: the lines of the file in text mode.  Python
    decodes the bytes, a chunk of the file ahead of the line it hands
    over, and then cuts the decoded text into lines.  The file is here
    one chunk, as a file of less than 8192 bytes is: a file whose bytes do
    not decode raises before its first line. *)
Definition text_lines (file : TextIOWrapper) : gen str :=
  match decode (encoding file) (buffer file) with
  | inl e => throw e
  | inr text => (map universal_newline (str_splitlines text), None)
  end.

(** [file.readlines()]. *)
Definition readlines (file : TextIOWrapper) : result (list str) :=
  match text_lines file with
  | (lines, None) => ok lines
  | (_, Some e) => raise e
  end.

(** The file system: the bytes of the file at each path that exists. *)
Definition filesystem := string -> option bytes.

Definition fs_empty : filesystem := fun _ => None.
Definition fs_write (fs : filesystem) (path : string) (content : bytes)
  : filesystem :=
  fun p => if String.eqb p path then Some content else fs p.
Definition fs_remove (fs : filesystem) (path : string) : filesystem :=
  fun p => if String.eqb p path then None else fs p.

(** [open(file, mode='r', encoding=encoding)]. *)
Definition open_r (fs : filesystem) (file : string) (encoding : codec)
  : result TextIOWrapper :=
  match fs file with
  | None => raise (FileNotFoundError file)
  | Some content => ok {| encoding := encoding; buffer := content |}
  end.

(** *** The module [re] *)

(** Regular expressions are those of Python's [re]; the code is embedded
    over any engine with this interface: [re.compile], the text
    [re.search(p, line).group()] of the leftmost match when there is one,
    and [re.sub(p, repl, line)]. *)
Record re_module : Type := {
  Pattern : Type;
  re_compile : str -> result Pattern;
  re_search : Pattern -> str -> option str;
  re_sub : Pattern -> str -> str -> result str
}.

End Py.

(* ===================================================================== *)
(** ** src/SpiderUtilLib/FileUtils.py: the reverse line reader             *)
(* ===================================================================== *)

Module FileUtils.
Import Py.

(** [ceil_division]: [-(-left_number // right_number)]; Python's [//] is
    floor division, as [Z.div] is, and raises on a zero divisor. *)
Definition ceil_division (left_number right_number : Z) : result Z :=
  if right_number =? 0 then raise ZeroDivisionError
  else ok (- ((- left_number) / right_number)).

(** The inner [split(string, separator, keep_separator)]. *)
Definition split (string separator : bytes) (keep_separator : bool)
  : result (list bytes) :=
  bind (bytes_split string separator) (fun parts =>
    if keep_separator then
      (* [*parts, last_part = parts]: [bytes.split] never returns [[]] *)
      let last_part := last parts [] in
      let parts := map (fun part => part ++ separator) (removelast parts) in
      match last_part with
      | _ :: _ => ok (parts ++ [last_part])
      | [] => ok parts
      end
    else ok parts).

(** [byte_stream.seek(offset)] followed by [byte_stream.read(size)]; a
    negative [size] reads to the end. *)
Definition seek_read (byte_stream : bytes) (offset size : Z) : bytes :=
  let tail := skipn (Z.to_nat offset) byte_stream in
  if size <? 0 then tail else firstn (Z.to_nat size) tail.

(** [read_batch_from_end(byte_stream, size, end_position)]. *)
Definition read_batch_from_end (byte_stream : bytes) (size end_position : Z)
  : bytes :=
  if end_position >? size
  then seek_read byte_stream (end_position - size) size
  else seek_read byte_stream 0 end_position.

(** [itertools.accumulate(chain([stream_size], repeat(batch_size)), sub)]
    cut by [islice] to its first [count] values. *)
Fixpoint accumulate_sub (count : nat) (value batch_size : Z) : list Z :=
  match count with
  | O => []
  | S count' => value :: accumulate_sub count' (value - batch_size) batch_size
  end.

(** [islice(..., batches_count)] refuses a negative count. *)
Definition remaining_bytes_indicator (stream_size batch_size batches_count : Z)
  : result (list Z) :=
  if batches_count <? 0 then raise ValueError
  else ok (accumulate_sub (Z.to_nat batches_count) stream_size batch_size).

(** What [reverse_binary_stream] fixes before it reads: the separators as
    [startswith] and [endswith] take them, and the function that splits a
    batch into lines. *)
Definition separators (lines_separator : option bytes) : list bytes :=
  match lines_separator with
  | None => [[CR]; [LF]; [CR; LF]]
  | Some sep => [sep]
  end.

Definition lines_splitter (lines_separator : option bytes)
           (keep_lines_separator : bool) (batch : bytes) : result (list bytes) :=
  match lines_separator with
  | None => ok (splitlines keep_lines_separator batch)
  | Some sep => split batch sep keep_lines_separator
  end.

Section reverse_binary_stream.
(** The variables the inner closures capture. *)
Variable byte_stream : bytes.
Variable batch_size : Z.
Variable lines_separator : option bytes.
Variable keep_lines_separator : bool.

(** The [while] loop of [read_batch]: [ind] is what is left of the
    iterator [remaining_bytes_indicator], which [read_batch] shares with
    the [for] loop; the rest of it is returned with the batch. *)
Fixpoint read_batch_while (result : bytes) (ind : list Z) : bytes * list Z :=
  if startswith result (separators lines_separator) then
    match ind with
    | [] => (result, [])
    | position :: ind' =>
        read_batch_while
          (read_batch_from_end byte_stream batch_size position ++ result) ind'
    end
  else (result, ind).

Definition read_batch (position : Z) (ind : list Z) : bytes * list Z :=
  read_batch_while (read_batch_from_end byte_stream batch_size position) ind.

(** One turn of the [for] loop up to [segment, *lines = lines]: what it
    yields there ([segment], when the batch ends on a separator) and the
    lines of the batch, the last of them joined to [segment] otherwise. *)
Definition join_batch (batch segment : bytes)
  : result (list bytes * list bytes) :=
  bind (lines_splitter lines_separator keep_lines_separator batch) (fun lines =>
    if endswith batch (separators lines_separator)
    then ok ([segment], lines)
    else
      (* [lines[-1] += segment] *)
      match lines with
      | [] => raise IndexError
      | _ :: _ => ok ([], removelast lines ++ [last lines [] ++ segment])
      end).

(** The [for] loop over what is left of the iterator, and the final
    [yield segment]. *)
Equations? for_loop (ind : list Z) (segment : bytes) : gen bytes
  by wf (length ind) lt :=
  for_loop [] segment := yield segment stop;
  for_loop (remaining_bytes_count :: ind) segment :=
    match join_batch (fst (read_batch remaining_bytes_count ind)) segment with
    | inl e => throw e
    | inr turn =>
        yield_from (fst turn)
          (* [segment, *lines = lines] *)
          match snd turn with
          | [] => throw ValueError
          | segment' :: lines =>
              yield_from (rev lines)
                (for_loop (snd (read_batch remaining_bytes_count ind)) segment')
          end
    end.
Proof.
  (* [read_batch] returns a tail of the iterator it was given *)
  assert (shorter : forall ind result,
             (length (snd (read_batch_while result ind)) <= length ind)%nat).
  { clear; intros ind; induction ind as [|position ind IH]; intros result;
      simpl; destruct (startswith _ _); simpl; try lia.
    specialize (IH (read_batch_from_end byte_stream batch_size position ++ result)).
    lia. }
  unfold read_batch.
  specialize (shorter ind
    (read_batch_from_end byte_stream batch_size remaining_bytes_count)).
  simpl; lia.
Qed.

End reverse_binary_stream.

(** [reverse_binary_stream(byte_stream, batch_size, lines_separator,
    keep_lines_separator)]. *)
Definition reverse_binary_stream (byte_stream : bytes) (batch_size : option Z)
           (lines_separator : option bytes) (keep_lines_separator : bool)
  : gen bytes :=
  let stream_size := Z.of_nat (length byte_stream) in
  let batch_size :=
    match batch_size with
    | None => if stream_size =? 0 then 1 else stream_size
    | Some size => size
    end in
  match bind (ceil_division stream_size batch_size)
             (remaining_bytes_indicator stream_size batch_size) with
  | inl e => throw e
  | inr [] => stop
  | inr (remaining_bytes_count :: ind) =>
      let batch_ind :=
        read_batch byte_stream batch_size lines_separator remaining_bytes_count ind in
      match lines_splitter lines_separator keep_lines_separator (fst batch_ind) with
      | inl e => throw e
      | inr [] => throw ValueError
      | inr (segment :: lines) =>
          yield_from (rev lines)
            (for_loop byte_stream batch_size lines_separator keep_lines_separator
                      (snd batch_ind) segment)
      end
  end.

(** [reverse_file(file, batch_size, lines_separator,
    keep_lines_separator)]. *)
Definition reverse_file (file : TextIOWrapper) (batch_size : option Z)
           (lines_separator : option str) (keep_lines_separator : bool)
  : gen str :=
  let encoding := encoding file in
  let lines_separator :=
    match lines_separator with
    | None => ok None
    | Some sep => bind (encode encoding sep) (fun sep => ok (Some sep))
    end in
  match lines_separator with
  | inl e => throw e
  | inr lines_separator =>
      gen_map (decode encoding)
              (reverse_binary_stream (buffer file) batch_size lines_separator
                                     keep_lines_separator)
  end.

(** [Reverse_File_Reader(file_object, lines_separator,
    keep_lines_separator, save_memory)], on a file object that has just
    been opened. *)
Definition Reverse_File_Reader (file_object : TextIOWrapper)
           (lines_separator : str) (keep_lines_separator save_memory : bool)
  : gen str :=
  let out (line : str) : str :=
    if keep_lines_separator then rstrip line ++ lines_separator
    else rstrip line in
  if save_memory then
    let r_file := reverse_file file_object None None true in
    gen_map (fun line => ok (out line)) r_file
  else
    match readlines file_object with
    | inl e => throw e
    | inr reversed_file => (map out (rev reversed_file), None)
    end.

(** What a call of the search leaves behind: the value returned, the
    exceptions printed, the paths handed to [open] and the lines taken
    from the line source. *)
Record outcome : Type := {
  returned : option (list str);
  printed : list exn;
  opened : list string;
  visited : list str
}.

Section Text_File_Search_All.
Variable re : re_module.
(** [cls.Reverse_File_Reader(file_reader, save_memory=True)], the one
    place where the re-issued module differs. *)
Variable reverse_reader : TextIOWrapper -> gen str.

Variable search_for : str.
Variable search_using_regex : bool.
Variable count : Z.

(** The body of the [for] loop up to the test of [count]. *)
Definition search_line (line : str) (result : list str) : Py.result (list str) :=
  if negb search_using_regex then
    if negb (find line search_for =? -1) then ok (result ++ [search_for])
    else ok result
  else
    bind (re_compile re search_for) (fun search_for_re =>
      match re_search re search_for_re line with
      | Some group => ok (result ++ [group])
      | None => ok result
      end).

(** The [for] loop over a line source: what it ends with, [result] or an
    exception, and the lines it took. *)
Fixpoint search_loop (lines : list str) (fin : option exn) (result : list str)
  : Py.result (list str) * list str :=
  match lines with
  | [] =>
      (match fin with
       | None => ok result
       | Some e => raise e
       end, [])
  | line :: lines' =>
      match search_line line result with
      | inl e => (raise e, [line])
      | inr result =>
          if (0 <? count) && (count =? Z.of_nat (length result))
          then (ok result, [line])
          else let '(r, v) := search_loop lines' fin result in (r, line :: v)
      end
  end.

Definition text_search_all (fs : filesystem) (file : string)
           (encoding : codec) (search_from_front_to_back : bool) : outcome :=
  match search_for with
  | [] => {| returned := None; printed := []; opened := []; visited := [] |}
  | _ :: _ =>
      match open_r fs file encoding with
      | inl e =>
          {| returned := None; printed := [e]; opened := [file]; visited := [] |}
      | inr file_reader =>
          let source :=
            if search_from_front_to_back then text_lines file_reader
            else reverse_reader file_reader in
          let '(r, v) := search_loop (fst source) (snd source) [] in
          match r with
          | inl e =>
              {| returned := None; printed := [e]; opened := [file]; visited := v |}
          | inr [] =>
              {| returned := None; printed := []; opened := [file]; visited := v |}
          | inr result =>
              {| returned := Some result; printed := []; opened := [file];
                 visited := v |}
          end
      end
  end.

End Text_File_Search_All.

(** [Text_File_Search_All(file, search_for, encoding, search_using_regex,
    search_from_front_to_back, count)]. *)
Definition Text_File_Search_All (re : re_module) (fs : filesystem)
           (file : string) (search_for : str) (encoding : codec)
           (search_using_regex search_from_front_to_back : bool) (count : Z)
  : outcome :=
  text_search_all re
    (fun file_reader => Reverse_File_Reader file_reader ["010"%char] true true)
    search_for search_using_regex count fs file encoding
    search_from_front_to_back.

(** [Text_File_Search]: the first match of a search with [count=1]. *)
Definition Text_File_Search (re : re_module) (fs : filesystem)
           (file : string) (search_for : str) (encoding : codec)
           (search_using_regex search_from_front_to_back : bool)
  : option str :=
  match returned (Text_File_Search_All re fs file search_for encoding
                    search_using_regex search_from_front_to_back 1) with
  | Some (first :: _) => Some first
  | _ => None
  end.

End FileUtils.

(* ===================================================================== *)
(** ** src/src/SpiderUtilLib: the re-issued module                         *)
(* ===================================================================== *)

Module FileUtils_src.
Import Py.

(** The names bound at the top level of src/src/SpiderUtilLib/FileUtils.py
    and of src/src/SpiderUtilLib/SpiderUtilLib.py when a method runs. *)
Definition FileUtils_py_globals : list string :=
  ["os"; "shutil"; "re"; "functools"; "itertools"; "methodcaller"; "sub";
   "codecs"; "FileUtils"]%string.

Definition SpiderUtilLib_py_globals : list string :=
  ["base64"; "os"; "itertools"; "string"; "sys"; "hashlib"; "random";
   "shutil"; "re"; "functools"; "methodcaller"; "sub"; "codecs"; "requests";
   "CaseInsensitiveDict"; "WebUtils"; "FileUtils"]%string.

(** Python's built-in functions and constants (the built-in exception
    classes, whose names are capitalised, are left out). *)
Definition builtins : list string :=
  ["abs"; "aiter"; "all"; "anext"; "any"; "ascii"; "bin"; "bool";
   "breakpoint"; "bytearray"; "bytes"; "callable"; "chr"; "classmethod";
   "compile"; "complex"; "delattr"; "dict"; "dir"; "divmod"; "enumerate";
   "eval"; "exec"; "filter"; "float"; "format"; "frozenset"; "getattr";
   "globals"; "hasattr"; "hash"; "help"; "hex"; "id"; "input"; "int";
   "isinstance"; "issubclass"; "iter"; "len"; "list"; "locals"; "map";
   "max"; "memoryview"; "min"; "next"; "object"; "oct"; "open"; "ord";
   "pow"; "print"; "property"; "range"; "repr"; "reversed"; "round"; "set";
   "setattr"; "slice"; "sorted"; "staticmethod"; "str"; "sum"; "super";
   "tuple"; "type"; "vars"; "zip"; "__import__"; "True"; "False"; "None";
   "NotImplemented"; "Ellipsis"; "__debug__"; "__name__"; "__doc__";
   "__file__"]%string.

(** The public functions of the standard module [shutil]. *)
Definition shutil_functions : list string :=
  ["copyfileobj"; "copyfile"; "copymode"; "copystat"; "copy"; "copy2";
   "copytree"; "move"; "rmtree"; "make_archive"; "get_archive_formats";
   "register_archive_format"; "unregister_archive_format";
   "get_unpack_formats"; "register_unpack_format";
   "unregister_unpack_format"; "unpack_archive"; "ignore_patterns"; "chown";
   "which"; "get_terminal_size"; "disk_usage"]%string.

Definition bound (name : string) (scope : list string) : bool :=
  existsb (String.eqb name) scope.

(** Reading a name that the function does not bind: the module's globals,
    then the built-ins. *)
Definition load_global (module_globals : list string) (name : string)
  : result unit :=
  if bound name module_globals || bound name builtins then ok tt
  else raise (NameError name).

(** Reading [shutil.name]. *)
Definition shutil_getattr (name : string) : result unit :=
  if bound name shutil_functions then ok tt
  else raise (AttributeError "shutil" name).

(** [reverse_file_reader(file_object, lines_separator,
    keep_lines_separator, save_memory)]: the body opens with
    [f = open(filename, 'w')], and [filename] is neither a parameter nor a
    local name; what follows that statement is the body of
    [FileUtils.Reverse_File_Reader]. *)
Definition reverse_file_reader (module_globals : list string)
           (file_object : TextIOWrapper) (lines_separator : str)
           (keep_lines_separator save_memory : bool) : gen str :=
  match load_global module_globals "filename" with
  | inl e => throw e
  | inr _ =>
      FileUtils.Reverse_File_Reader file_object lines_separator
        keep_lines_separator save_memory
  end.

(** [text_file_search_all], the same text as [Text_File_Search_All] over
    [reverse_file_reader]. *)
Definition text_file_search_all (module_globals : list string)
           (re : re_module) (fs : filesystem)
           (file : string) (search_for : str) (encoding : codec)
           (search_using_regex search_from_front_to_back : bool) (count : Z)
  : FileUtils.outcome :=
  FileUtils.text_search_all re
    (fun file_reader =>
       reverse_file_reader module_globals file_reader ["010"%char] true true)
    search_for search_using_regex count fs file encoding
    search_from_front_to_back.

Section text_file_cleanup.
Variable re : re_module.
Variable search_for replace_as : str.
Variable encoding : codec.
Variable search_using_regex : bool.
Variable auto_replace_nbsp : bool.

(** The body of the [for] loop: the text handed to
    [file_writer.write]. *)
Definition cleanup_line (line : str) : result str :=
  (* [line.replace('&nbsp;', ' ')]: the value is dropped *)
  let _ := if auto_replace_nbsp
           then replace line (u "&nbsp;") (u " ") else line in
  if negb search_using_regex then ok (replace line search_for replace_as)
  else bind (re_compile re search_for) (fun search_for_re =>
         re_sub re search_for_re replace_as line).

(** The [for] loop: the bytes written to [file], and the exception that
    ended the loop, if any. *)
Fixpoint cleanup_loop (lines : list str) (fin : option exn) (written : bytes)
  : bytes * option exn :=
  match lines with
  | [] => (written, fin)
  | line :: lines' =>
      match bind (cleanup_line line) (encode encoding) with
      | inl e => (written, Some e)
      | inr data => cleanup_loop lines' fin (written ++ data)
      end
  end.

(** [text_file_cleanup(file, search_for, replace_as, encoding,
    search_using_regex, preserve_original_file, auto_replace_nbsp)] of
    src/src/SpiderUtilLib/FileUtils.py: the value returned, the file
    system it leaves and what it printed. *)
Definition text_file_cleanup (fs : filesystem) (file : string)
           (preserve_original_file : bool)
  : bool * filesystem * list exn :=
  let origin := (file ++ ".origin")%string in
  (* [shutil.move(file, file + '.origin')] *)
  match fs file with
  | None => (false, fs, [FileNotFoundError file])
  | Some content =>
      let fs := fs_write (fs_remove fs file) origin content in
      let file_reader := {| Py.encoding := encoding; buffer := content |} in
      let source := text_lines file_reader in
      let '(written, fin) := cleanup_loop (fst source) (snd source) [] in
      let fs := fs_write fs file written in
      match fin with
      | Some e => (false, fs, [e])
      | None =>
          if negb preserve_original_file then
            (* [shutil.remove(file + '.origin')] *)
            match shutil_getattr "remove" with
            | inl e => (false, fs, [e])
            | inr _ => (true, fs_remove fs origin, [])
            end
          else (true, fs, [])
      end
  end.

End text_file_cleanup.

End FileUtils_src.

(* ===================================================================== *)
(** ** A regular-expression engine for a fragment of [re]                  *)
(* ===================================================================== *)

(** The properties of the search hold over any engine.  To run the search
    on examples, this is Python's [re] on the patterns that are sequences of
    single characters, [.] and [\d], each at most once repeated by a greedy
    [*], [+] or [?].  A pattern outside the fragment is refused here
    although [re] may accept it; no example uses one. *)
Module Re.
Import Py.

Inductive atom : Type :=
| Lit (c : ascii)
| Digit
| AnyChar.

Inductive quantifier : Type := One | Star | Plus | Opt.

Inductive token : Type :=
| TAtom (a : atom)
| TQuantifier (q : quantifier)
| TOther.

Definition item := (atom * quantifier)%type.

Definition is_digit (c : ascii) : bool :=
  let n := nat_of_ascii c in ((48 <=? n) && (n <=? 57))%nat.

Definition is_alnum (c : ascii) : bool :=
  let n := nat_of_ascii c in
  (is_digit c || (65 <=? n) && (n <=? 90) || (97 <=? n) && (n <=? 122)
   || (128 <=? n))%nat.

Definition is_special (c : ascii) : bool :=
  existsb (Ascii.eqb c) (u "^$|()[]{}").

Fixpoint tokens (s : str) : list token :=
  match s with
  | [] => []
  | c :: s' =>
      if Ascii.eqb c "\" then
        match s' with
        | [] => [TOther]
        | e :: s'' =>
            if Ascii.eqb e "d" then TAtom Digit :: tokens s''
            else if is_alnum e then TOther :: tokens s''
            else TAtom (Lit e) :: tokens s''
        end
      else if Ascii.eqb c "." then TAtom AnyChar :: tokens s'
      else if Ascii.eqb c "*" then TQuantifier Star :: tokens s'
      else if Ascii.eqb c "+" then TQuantifier Plus :: tokens s'
      else if Ascii.eqb c "?" then TQuantifier Opt :: tokens s'
      else if is_special c then TOther :: tokens s'
      else TAtom (Lit c) :: tokens s'
  end.

(** A quantifier with nothing before it to repeat is an error of [re]
    too. *)
Fixpoint items (ts : list token) : result (list item) :=
  match ts with
  | [] => ok []
  | TAtom a :: ts' =>
      match ts' with
      | TQuantifier q :: ts'' =>
          match ts'' with
          | TQuantifier _ :: _ => raise re_error
          | _ => bind (items ts'') (fun p => ok ((a, q) :: p))
          end
      | _ => bind (items ts') (fun p => ok ((a, One) :: p))
      end
  | TQuantifier _ :: _ => raise re_error
  | TOther :: _ => raise re_error
  end.

Definition compile (pattern : str) : result (list item) :=
  items (tokens pattern).

Definition atom_matches (a : atom) (c : ascii) : bool :=
  match a with
  | Lit d => Ascii.eqb d c
  | Digit => is_digit c
  | AnyChar => negb (Ascii.eqb c "010")
  end.

(** The number of leading characters of [s] that [a] matches. *)
Fixpoint run (a : atom) (s : str) : nat :=
  match s with
  | c :: s' => if atom_matches a c then S (run a s') else O
  | [] => O
  end.

(** Greedy repetition: [a] taken [least + more] times, then fewer, down
    to [least] times, until the rest of the pattern matches. *)
Fixpoint backtrack (rest : str -> option nat) (s : str) (least more : nat)
  : option nat :=
  match rest (skipn (least + more) s) with
  | Some n => Some (least + more + n)%nat
  | None =>
      match more with
      | O => None
      | S more' => backtrack rest s least more'
      end
  end.

(** The length of the match of the pattern at the start of [s]. *)
Fixpoint match_here (p : list item) (s : str) : option nat :=
  match p with
  | [] => Some O
  | (a, q) :: p' =>
      let k := run a s in
      match q with
      | One => if (1 <=? k)%nat then backtrack (match_here p') s 1 0 else None
      | Opt => backtrack (match_here p') s 0 (Nat.min k 1)
      | Star => backtrack (match_here p') s 0 k
      | Plus => if (1 <=? k)%nat then backtrack (match_here p') s 1 (k - 1) else None
      end
  end.

(** [re.search(p, s).group()]: the match at the leftmost position that
    has one. *)
Fixpoint search (p : list item) (s : str) : option str :=
  match match_here p s with
  | Some n => Some (firstn n s)
  | None =>
      match s with
      | [] => None
      | _ :: s' => search p s'
      end
  end.

(** [re.sub(p, repl, s)] for a template without backslash: matches are
    replaced left to right; an empty match is replaced and followed by the
    character it stands before. *)
Fixpoint sub_scan (p : list item) (repl : str) (skip : nat) (s : str) : str :=
  match s with
  | [] =>
      match skip, match_here p [] with
      | O, Some _ => repl
      | _, _ => []
      end
  | c :: s' =>
      match skip with
      | S k => sub_scan p repl k s'
      | O =>
          match match_here p s with
          | Some (S n) => repl ++ sub_scan p repl n s'
          | Some O => repl ++ c :: sub_scan p repl O s'
          | None => c :: sub_scan p repl O s'
          end
      end
  end.

Definition sub (p : list item) (repl s : str) : result str :=
  if existsb (Ascii.eqb "\") repl then raise re_error
  else ok (sub_scan p repl O s).

Definition engine : re_module := {|
  Pattern := list item;
  re_compile := compile;
  re_search := search;
  re_sub := sub
|}.

End Re.

(* ===================================================================== *)
(** ** Notions used to state the properties                                *)
(* ===================================================================== *)

Module Lines.
Import Py FileUtils.

(** A byte of the separator set: LF or CR. *)
Definition is_sep (c : byte) : bool := is_LF c || is_CR c.

Definition starts_sep (s : bytes) : bool :=
  match s with
  | c :: _ => is_sep c
  | [] => false
  end.

Definition starts_LF (s : bytes) : bool :=
  match s with
  | c :: _ => is_LF c
  | [] => false
  end.

Fixpoint ends_sep (s : bytes) : bool :=
  match s with
  | [] => false
  | [c] => is_sep c
  | _ :: s' => ends_sep s'
  end.

Fixpoint ends_CR (s : bytes) : bool :=
  match s with
  | [] => false
  | [c] => is_CR c
  | _ :: s' => ends_CR s'
  end.

(** A window size that can be chosen: a positive number of bytes, or none,
    which stands for the whole stream. *)
Definition window_size_ok (batch_size : option Z) : Prop :=
  match batch_size with
  | Some size => 0 < size
  | None => True
  end.

(** [covers byte_stream batch_size P ind]: the windows that end at the
    positions [ind], read in that order, are not empty and tile the prefix
    [P] of the stream from its end to its start. *)
Fixpoint covers (byte_stream : bytes) (batch_size : Z) (P : bytes)
         (ind : list Z) : Prop :=
  match ind with
  | [] => P = []
  | position :: ind' =>
      exists P0,
        P = P0 ++ read_batch_from_end byte_stream batch_size position /\
        read_batch_from_end byte_stream batch_size position <> [] /\
        covers byte_stream batch_size P0 ind'
  end.

(** The windows that end at [positions], the first of them last: what
    [read_batch] has put together after it has read them in that order. *)
Definition windows (byte_stream : bytes) (batch_size : Z) (positions : list Z)
  : bytes :=
  concat (rev (map (read_batch_from_end byte_stream batch_size) positions)).

(** The forward line sequence of a text file, separators preserved: the
    lines of its bytes, decoded. *)
Fixpoint decode_all (encoding : codec) (lines : list bytes)
  : result (list str) :=
  match lines with
  | [] => ok []
  | line :: lines' =>
      bind (decode encoding line) (fun text =>
        bind (decode_all encoding lines') (fun texts => ok (text :: texts)))
  end.

Definition lines_of (file : TextIOWrapper) : result (list str) :=
  decode_all (encoding file) (splitlines true (buffer file)).

(** The matches that a scan of [lines] records when nothing stops it. *)
Fixpoint scan_all (re : re_module) (search_for : str) (search_using_regex : bool)
         (lines : list str) (result : list str) : Py.result (list str) :=
  match lines with
  | [] => ok result
  | line :: lines' =>
      bind (search_line re search_for search_using_regex line result)
           (scan_all re search_for search_using_regex lines')
  end.

(** The line source of a search: the file forward, or the reader. *)
Definition line_source (reverse_reader : TextIOWrapper -> gen str)
           (file_reader : TextIOWrapper) (search_from_front_to_back : bool)
  : gen str :=
  if search_from_front_to_back then text_lines file_reader
  else reverse_reader file_reader.

End Lines.

(** Files to run the code on. *)
Module Examples.
Import Py.

Definition nl : str := ["010"%char].

(** Two lines, each ended by a line feed. *)
Definition two_lines : TextIOWrapper :=
  {| encoding := ascii_codec; buffer := b "a" ++ [LF] ++ b "b" ++ [LF] |}.

(** A first line that ends with a space, a last line without separator. *)
Definition trailing_space : TextIOWrapper :=
  {| encoding := ascii_codec; buffer := b "a " ++ [LF] ++ b "b" |}.

(** Five lines, with [cat] on the second and on the fourth. *)
Definition pets : filesystem :=
  fs_write fs_empty "pets.txt"
    (b "one" ++ [LF] ++ b "a cat" ++ [LF] ++ b "three" ++ [LF]
     ++ b "cat nap" ++ [LF] ++ b "five" ++ [LF]).

Definition ids : filesystem :=
  fs_write fs_empty "ids.txt" (b "id=42 qty=7" ++ [LF]).

End Examples.

(* ===================================================================== *)
(** ** The other methods of [FileUtils]                                    *)
(* ===================================================================== *)

Module FileUtils_lists.
Import Py.

Section remove_duplicates_orderly.
(** The items of the list: any values that Python can compare and hash;
    [eq_dec] is their [==]. *)
Variable A : Type.
Variable eq_dec : forall x y : A, {x = y} + {x <> y}.

(** [set(l)], as the list of its elements, each once. *)
Definition set_of_list (l : list A) : list A := nodup eq_dec l.

(** The [for] loop over [range(len(list_new) - 1, -1, -1)], of which [n]
    indexes are left: [list_new[index]] and [list_new.pop(index)] raise
    [IndexError] out of range. *)
Fixpoint dedup_loop (n : nat) (list_new list_set : list A) : result (list A) :=
  match n with
  | O => ok list_new
  | S index =>
      match nth_error list_new index with
      | None => raise IndexError
      | Some item =>
          if in_dec eq_dec item list_set
          then dedup_loop index list_new (remove eq_dec item list_set)
          else dedup_loop index (firstn index list_new ++ skipn (S index) list_new)
                          list_set
      end
  end.

(** [Remove_Duplicates_Orderly(list_with_duplicates,
    preserve_first_encounter, preserve_original_list)], the same text in the
    three modules: the list returned, and the value that the caller's list
    has after the call, which is the list worked on unless it was copied. *)
Definition Remove_Duplicates_Orderly (list_with_duplicates : list A)
           (preserve_first_encounter preserve_original_list : bool)
  : result (list A * list A) :=
  let list_set := set_of_list list_with_duplicates in
  let caller (list_new : list A) :=
    if preserve_original_list then list_with_duplicates else list_new in
  let list_new := list_with_duplicates in
  if (length list_new =? length list_set)%nat then ok (list_new, caller list_new)
  else
    let list_new := if preserve_first_encounter then rev list_new else list_new in
    bind (dedup_loop (length list_new) list_new list_set) (fun list_new =>
      let list_new := if preserve_first_encounter then rev list_new else list_new in
      ok (list_new, caller list_new)).

(** The first occurrence of each item, in the order of the list. *)
Fixpoint first_occurrences (l : list A) : list A :=
  match l with
  | [] => []
  | x :: l' => x :: remove eq_dec x (first_occurrences l')
  end.

(** The last occurrence of each item, in the order of the list. *)
Definition last_occurrences (l : list A) : list A := nodup eq_dec l.

End remove_duplicates_orderly.

End FileUtils_lists.

Module FileUtils_cleanup.
Import Py.

(** [Text_File_Cleanup(file, search_for, replace_as, encoding,
    search_using_regex, preserve_original_file)] of
    src/SpiderUtilLib/FileUtils.py: the text of the re-issued
    [text_file_cleanup] without its [auto_replace_nbsp] lines, which write
    nothing. *)
Definition Text_File_Cleanup (re : re_module) (fs : filesystem) (file : string)
           (search_for replace_as : str) (encoding : codec)
           (search_using_regex preserve_original_file : bool)
  : bool * filesystem * list exn :=
  FileUtils_src.text_file_cleanup re search_for replace_as encoding
    search_using_regex false fs file preserve_original_file.

Section text_file_cleanup.
Variable re : re_module.
Variable search_for replace_as : str.
Variable encoding : codec.
Variable search_using_regex : bool.
Variable auto_replace_nbsp : bool.

(** The body of the [for] loop of src/src/SpiderUtilLib/SpiderUtilLib.py:
    the text handed to [file_writer.write], if anything is written. *)
Definition cleanup_line (line : str) : result (option str) :=
  (* [line.replace('&nbsp;', ' ')]: the value is dropped *)
  let _ := if auto_replace_nbsp
           then replace line (u "&nbsp;") (u " ") else line in
  match search_for with
  | [] => ok None
  | _ :: _ =>
      if negb search_using_regex
      then ok (Some (replace line search_for replace_as))
      else bind (re_compile re search_for) (fun search_for_re =>
             bind (re_sub re search_for_re replace_as line) (fun text =>
               ok (Some text)))
  end.

Fixpoint cleanup_loop (lines : list str) (fin : option exn) (written : bytes)
  : bytes * option exn :=
  match lines with
  | [] => (written, fin)
  | line :: lines' =>
      match cleanup_line line with
      | inl e => (written, Some e)
      | inr None => cleanup_loop lines' fin written
      | inr (Some text) =>
          match encode encoding text with
          | inl e => (written, Some e)
          | inr data => cleanup_loop lines' fin (written ++ data)
          end
      end
  end.

(** [text_file_cleanup(file, search_for, replace_as, encoding,
    search_using_regex, preserve_original_file, auto_replace_nbsp)] of
    src/src/SpiderUtilLib/SpiderUtilLib.py, which ends with [os.remove]. *)
Definition text_file_cleanup (fs : filesystem) (file : string)
           (preserve_original_file : bool)
  : bool * filesystem * list exn :=
  match search_for, auto_replace_nbsp with
  | [], false => (true, fs, [])
  | _, _ =>
      let origin := (file ++ ".origin")%string in
      (* [shutil.move(file, file + '.origin')] *)
      match fs file with
      | None => (false, fs, [FileNotFoundError file])
      | Some content =>
          let fs := fs_write (fs_remove fs file) origin content in
          let file_reader := {| Py.encoding := encoding; buffer := content |} in
          let source := text_lines file_reader in
          let '(written, fin) := cleanup_loop (fst source) (snd source) [] in
          let fs := fs_write fs file written in
          match fin with
          | Some e => (false, fs, [e])
          | None =>
              if negb preserve_original_file
              then (* [os.remove(file + '.origin')] *)
                   (true, fs_remove fs origin, [])
              else (true, fs, [])
          end
      end
  end.

End text_file_cleanup.

End FileUtils_cleanup.

(* ===================================================================== *)
(** ** src/src/SpiderUtilLib: [WebUtils], the base64 codec                 *)
(* ===================================================================== *)

Module WebUtils.
Import Py.

(** A string of binary digits, ['1'] as [true] and ['0'] as [false]. *)
Definition bits := list bool.

Fixpoint pos_digits (p : positive) (acc : bits) : bits :=
  match p with
  | xH => true :: acc
  | xO p' => pos_digits p' (false :: acc)
  | xI p' => pos_digits p' (true :: acc)
  end.

(** The digits of [bin(n)], behind its prefix ['0b']: [bin(n)[2:]]. *)
Definition bin (n : N) : bits :=
  match n with
  | N0 => [false]
  | Npos p => pos_digits p []
  end.

(** [bin(n).lstrip('0b')]: the prefix and every leading ['0'] go. *)
Fixpoint lstrip_0b (digits : bits) : bits :=
  match digits with
  | false :: digits' => lstrip_0b digits'
  | _ => digits
  end.

(** [s.zfill(width)]. *)
Definition zfill (width : nat) (s : bits) : bits :=
  repeat false (width - length s) ++ s.

(** [s[i:j]] and [s[-n:]]. *)
Definition slice {A} (s : list A) (i j : nat) : list A :=
  firstn (j - i) (skipn i s).
Definition last_n {A} (n : nat) (s : list A) : list A :=
  skipn (length s - n) s.

Fixpoint value_of (acc : N) (s : bits) : N :=
  match s with
  | [] => acc
  | d :: s' => value_of (2 * acc + if d then 1 else 0)%N s'
  end.

(** [int(s, base=2)], which refuses the empty string. *)
Definition int2 (s : bits) : result N :=
  match s with
  | [] => raise ValueError
  | _ :: _ => ok (value_of 0%N s)
  end.

(** [[s[i:i + n] for i in range(0, len(s), n)]]; [fuel] bounds the number
    of pieces. *)
Fixpoint chunks_from {A} (fuel n : nat) (s : list A) : list (list A) :=
  match fuel, s with
  | S fuel', _ :: _ => firstn n s :: chunks_from fuel' n (skipn n s)
  | _, _ => []
  end.
Definition chunks {A} (n : nat) (s : list A) : list (list A) :=
  chunks_from (length s) n s.

(** A comprehension whose element can raise. *)
Fixpoint traverse {A B} (f : A -> result B) (l : list A) : result (list B) :=
  match l with
  | [] => ok []
  | a :: l' =>
      bind (f a) (fun v => bind (traverse f l') (fun vs => ok (v :: vs)))
  end.

Definition ascii_uppercase : str := u "ABCDEFGHIJKLMNOPQRSTUVWXYZ".
Definition ascii_lowercase : str := u "abcdefghijklmnopqrstuvwxyz".
Definition digits : str := u "0123456789".

(** [BASE64MAP_dict.get(base64_encoding_map)]. *)
Definition BASE64MAP_dict (base64_encoding_map : string) : option str :=
  if String.eqb base64_encoding_map "default"
  then Some (ascii_uppercase ++ ascii_lowercase ++ digits ++ u "+/=")
  else if String.eqb base64_encoding_map "RFC3501"
  then Some (ascii_uppercase ++ ascii_lowercase ++ digits ++ u "+,=")
  else if String.eqb base64_encoding_map "RFC4648"
  then Some (ascii_uppercase ++ ascii_lowercase ++ digits ++ u "-_=")
  else None.

(** The argument [text] or [encrypted_text]: a [str] or [bytes]. *)
Definition text := (str + bytes)%type.

(** The eight binary digits of a byte:
    [bin(character).lstrip('0b').zfill(8)]. *)
Definition byte_digits (character : byte) : bits :=
  zfill 8 (lstrip_0b (bin (Byte.to_N character))).

(** The body of the inner [for] loop of [base64_encoder]: the text appended
    for one piece of a block. *)
Definition encode_character (BASE64MAP : str) (base64_encoding_map : string)
           (character : bits) : result str :=
  let c_length := length character in
  let character :=
    if (c_length =? 6)%nat then character ++ [false; false]
    else if (c_length =? 4)%nat then character ++ [false; false; false; false]
    else if (c_length =? 2)%nat
    then character ++ [false; true] ++ repeat false 6
    else character in
  bind (int2 character) (fun index =>
    match nth_error BASE64MAP (N.to_nat index) with
    | None => raise IndexError
    | Some characterToAppend =>
        if Ascii.eqb characterToAppend "=" && String.eqb base64_encoding_map "RFC3501"
        then ok []
        else ok [characterToAppend]
    end).

(** [base64_encoder(text, encoding, base64_encoding_map)]. *)
Definition base64_encoder (text : text) (encoding : codec)
           (base64_encoding_map : string) : result str :=
  match BASE64MAP_dict base64_encoding_map with
  | None => raise ValueError
  | Some BASE64MAP =>
      bind (match text with
            | inl s => encode encoding s
            | inr raw => ok raw
            end) (fun text_encoded =>
        let text_in_block_of_three :=
          map (fun three => concat (map byte_digits three)) (chunks 3 text_encoded) in
        let text_in_base64_block :=
          map (fun block =>
                 map (fun index => [false; false] ++ slice block index (index + 6))
                     [0; 6; 12; 18]%nat)
              text_in_block_of_three in
        bind (traverse (encode_character BASE64MAP base64_encoding_map)
                       (concat text_in_base64_block))
             (fun appended => ok (concat appended)))
  end.

Fixpoint index_from (i : nat) (character : ascii) (t : str) : option nat :=
  match t with
  | [] => None
  | c :: t' => if Ascii.eqb c character then Some i else index_from (S i) character t'
  end.

(** [BASE64MAP.index(character)], which raises [ValueError] for a
    character that the tuple does not hold. *)
Definition tuple_index (t : str) (character : ascii) : result nat :=
  match index_from 0 character t with
  | None => raise ValueError
  | Some i => ok i
  end.

(** The padding loop of [base64_decoder]: [=] is appended while the length
    is not a multiple of 4; three turns are the most it takes. *)
Fixpoint pad_to_four {A} (turns : nat) (pad : A) (s : list A) : list A :=
  if (length s mod 4 =? 0)%nat then s
  else match turns with
       | O => s
       | S turns' => pad_to_four turns' pad (s ++ [pad])
       end.

(** [bytes.rstrip()]: the white space of [bytes] is the space and the
    bytes 9 to 13. *)
Definition is_space_byte (c : byte) : bool :=
  let n := Byte.to_nat c in ((n =? 32) || (9 <=? n) && (n <=? 13))%nat.
Fixpoint lstrip_bytes (s : bytes) : bytes :=
  match s with
  | [] => []
  | c :: s' => if is_space_byte c then lstrip_bytes s' else s
  end.
Definition rstrip_bytes (s : bytes) : bytes := rev (lstrip_bytes (rev s)).

(** The digits that one character stands for:
    [bin(BASE64MAP.index(character))[2:].zfill(6)[-6:]]. *)
Definition decode_character (BASE64MAP : str) (character : ascii) : result bits :=
  bind (tuple_index BASE64MAP character) (fun i =>
    ok (last_n 6 (zfill 6 (bin (N.of_nat i))))).

(** [value.to_bytes(1, sys.byteorder)]: one byte for a value below 256.
    Python raises [OverflowError] above; no slice of eight digits gets
    there (lemma [to_bytes_total]), and the embedding raises [ValueError]
    in its place. *)
Definition to_bytes (value : N) : result bytes :=
  match Byte.of_N value with
  | Some c => ok [c]
  | None => raise ValueError
  end.

(** The bytes of one block, [int(block[i:i + 8], base=2).to_bytes(...)]
    for [i in range(0, 24, 8)] where [int(block[i:i + 8], base=2)] is not
    zero. *)
Definition decode_block (block : bits) : result (list bytes) :=
  bind (traverse (fun i =>
                    bind (int2 (slice block i (i + 8))) (fun condition =>
                      if (condition =? 0)%N then ok []
                      else bind (int2 (slice block i (i + 8))) (fun value =>
                             bind (to_bytes value) (fun c => ok [c]))))
                 [0; 8; 16]%nat)
       (fun kept => ok (concat kept)).

(** [base64_decoder(encrypted_text, decode_output_as, encoding,
    base64_encoding_map)]; [decode_output_as_str] is
    [decode_output_as == str]. *)
Definition base64_decoder (encrypted_text : text) (decode_output_as_str : bool)
           (encoding : codec) (base64_encoding_map : string) : result text :=
  match BASE64MAP_dict base64_encoding_map with
  | None => raise ValueError
  | Some BASE64MAP =>
      let padded :=
        String.eqb base64_encoding_map "RFC3501"
        || String.eqb base64_encoding_map "RFC4648" in
      let encrypted_text : text :=
        if padded then
          match encrypted_text with
          | inl s => inl (pad_to_four 3 "="%char s)
          | inr raw => inr (pad_to_four 3 "="%byte raw)
          end
        else encrypted_text in
      bind (match encrypted_text with
            | inl s => ok s
            | inr raw => decode encoding (rstrip_bytes raw)
            end) (fun encrypted_text =>
        bind (traverse (fun four =>
                          bind (traverse (decode_character BASE64MAP) four)
                               (fun pieces => decode_block (concat pieces)))
                       (chunks 4 encrypted_text)) (fun decoded_text_block =>
          let decoded_text_bytes := concat (concat decoded_text_block) in
          if decode_output_as_str
          then bind (decode encoding decoded_text_bytes) (fun s => ok (inl s))
          else ok (inr decoded_text_bytes)))
  end.

End WebUtils.

(* ===================================================================== *)
(** ** src/src/SpiderUtilLib/SpiderUtilLib.py: base64 on files              *)
(* ===================================================================== *)

Module FileUtils_base64.
Import Py WebUtils.

Section files.

(** The codec of a file opened in text mode without [encoding], which is
    the locale's, and the codec ['utf-8']. *)
Variable locale : codec.
Variable utf_8 : codec.

(** The [except] clause of both functions:
    [if os.path.exists(file): os.remove(file)]. *)
Definition remove_if_exists (fs : filesystem) (file : string) : filesystem :=
  match fs file with
  | Some _ => fs_remove fs file
  | None => fs
  end.



End files.

(** The exceptions of [decode_file_use_base64]: those of [Py.exn], the
    [TypeError] of a [write], and the [OSError] of a directory that is
    opened or removed as a file. *)
Inductive raised : Type :=
| Raised (e : exn)
| TypeError
| IsADirectoryError (path : string).

(** What a call ends with: a value returned, or an exception that leaves
    the method. *)
Inductive ending : Type :=
| Returns (value : bool)
| Raises (e : raised).

Section decode_file_use_base64.

Variable utf_8 : codec.

(** [os.path.isdir]: the paths that are directories.  The file system
    holds the regular files, which can all be read, written and
    removed. *)
Variable isdir : string -> bool.

(** [open(file, mode='rb')]: the bytes of the file. *)
Definition open_rb (fs : filesystem) (file : string) : raised + bytes :=
  if isdir file then inl (IsADirectoryError file)
  else match fs file with
       | None => inl (Raised (FileNotFoundError file))
       | Some content => inr content
       end.

(** [open(file, mode='wb+')] and [open(file, mode='w')], which empty the
    file. *)
Definition open_w (fs : filesystem) (file : string) : raised + filesystem :=
  if isdir file then inl (IsADirectoryError file)
  else inr (fs_write fs file []).

(** [f.read()] of a file that is open. *)
Definition read (fs : filesystem) (file : string) : bytes :=
  match fs file with
  | Some content => content
  | None => []
  end.

(** [f.write(data)] of a file opened in text mode: the bytes written for
    a [str]; a [bytes] is refused. *)
Definition text_write (encoding : codec) (data : text) : raised + bytes :=
  match data with
  | inl s =>
      match encode encoding s with
      | inl e => inl (Raised e)
      | inr written => inr written
      end
  | inr _ => inl TypeError
  end.

(** [os.path.exists(file)] and [os.remove(file)]. *)
Definition path_exists (fs : filesystem) (file : string) : bool :=
  isdir file || match fs file with Some _ => true | None => false end.
Definition os_remove (fs : filesystem) (file : string) : raised + filesystem :=
  if isdir file then inl (IsADirectoryError file)
  else match fs file with
       | None => inl (Raised (FileNotFoundError file))
       | Some _ => inr (fs_remove fs file)
       end.

(** [WebUtils.base64_decoder(encoded_text, decode_output_as=str,
    encoding='utf-8').encode('utf-8')]. *)
Definition decoded_bytes (encoded_text : bytes) : raised + bytes :=
  match base64_decoder (inr encoded_text) true utf_8 "default" with
  | inl e => inl (Raised e)
  | inr (inl s) =>
      match encode utf_8 s with
      | inl e => inl (Raised e)
      | inr data => inr data
      end
  | inr (inr _) => inl (Raised (AttributeError "bytes" "encode"))
  end.

(** The [try] block: the exception that ended it, if any, and the file
    system at that point. *)
Definition try_block (fs : filesystem) (encoded_file decoded_file : string)
           (encoding : codec) : option raised * filesystem :=
  match open_rb fs encoded_file with
  | inl e => (Some e, fs)
  | inr _ =>
      let tmp := (decoded_file ++ ".tmp")%string in
      match open_w fs tmp with
      | inl e => (Some e, fs)
      | inr fs =>
          let encoded_text := read fs encoded_file in
          match (match encoded_text with
                 | [] => inr fs
                 | _ :: _ =>
                     match decoded_bytes encoded_text with
                     | inl e => inl e
                     | inr data => inr (fs_write fs tmp data)
                     end
                 end) with
          | inl e => (Some e, fs)
          | inr fs =>
              match open_w fs decoded_file with
              | inl e => (Some e, fs)
              | inr fs =>
                  (* [f_out.write(f_tmp.read())] *)
                  match text_write encoding (inr (read fs tmp)) with
                  | inl e => (Some e, fs)
                  | inr written => (None, fs_write fs decoded_file written)
                  end
              end
          end
      end
  end.

(** [decode_file_use_base64(encoded_file, decoded_file, encoding)]: how
    the call ends, and the file system it leaves. *)
Definition decode_file_use_base64 (fs : filesystem)
           (encoded_file decoded_file : string) (encoding : codec)
  : ending * filesystem :=
  match try_block fs encoded_file decoded_file encoding with
  | (None, fs) => (Returns true, fs)
  | (Some _, fs) =>
      if path_exists fs decoded_file
      then match os_remove fs decoded_file with
           | inl e => (Raises e, fs)
           | inr fs => (Returns false, fs)
           end
      else (Returns false, fs)
  end.

End decode_file_use_base64.

End FileUtils_base64.

(* ===================================================================== *)
(** ** File_Name_Cleanup and file_name_cleanup                              *)
(* ===================================================================== *)

(** The strings of these two methods hold characters above 255: a [str]
    is here the list of its code points. *)
Module Unicode.

Definition ustr := list N.

(** The [str] of one ASCII character, and of an ASCII text. *)
Definition one (c : ascii) : ustr := [N_of_ascii c].
Definition text (s : string) : ustr := map N_of_ascii (Py.u s).

Fixpoint startswith (s prefix : ustr) {struct prefix} : bool :=
  match prefix with
  | [] => true
  | p :: prefix' =>
      match s with
      | [] => false
      | c :: s' => (c =? p)%N && startswith s' prefix'
      end
  end.

Fixpoint replace_scan (old new : ustr) (skip : nat) (s : ustr) : ustr :=
  match s with
  | [] => []
  | c :: s' =>
      match skip with
      | S k => replace_scan old new k s'
      | O =>
          if startswith s old
          then new ++ replace_scan old new (length old - 1) s'
          else c :: replace_scan old new O s'
      end
  end.

(** [s.replace(old, new)]. *)
Definition replace (s old new : ustr) : ustr :=
  match old with
  | [] => new ++ flat_map (fun c => c :: new) s
  | _ :: _ => replace_scan old new O s
  end.

(** [s.replace(old, new, 1)]: the first occurrence only. *)
Fixpoint replace_first (s old new : ustr) : ustr :=
  if startswith s old then new ++ skipn (length old) s
  else match s with
       | [] => []
       | c :: s' => c :: replace_first s' old new
       end.

Fixpoint find_from (i : Z) (s sub : ustr) : Z :=
  if startswith s sub then i
  else match s with
       | [] => -1
       | _ :: s' => find_from (i + 1) s' sub
       end.

(** [s.find(sub)]. *)
Definition find (s sub : ustr) : Z := find_from 0 s sub.

(** [c.isspace()]: the characters of category Zs or of bidirectional
    class WS, B or S. *)
Definition isspace (c : N) : bool :=
  ((9 <=? c) && (c <=? 13) || (28 <=? c) && (c <=? 32)
   || (c =? 133) || (c =? 160) || (c =? 5760)
   || (8192 <=? c) && (c <=? 8202)
   || (c =? 8232) || (c =? 8233) || (c =? 8239) || (c =? 8287)
   || (c =? 12288))%N.

Fixpoint lstrip (s : ustr) : ustr :=
  match s with
  | [] => []
  | c :: s' => if isspace c then lstrip s' else s
  end.

Definition rstrip (s : ustr) : ustr := rev (lstrip (rev s)).

End Unicode.

Module FileUtils_names.
Import Unicode.

(** The characters that the two methods write in the place of others:
    the fullwidth question mark and colon, the multiplication sign, the
    two box diagonals, the two angle brackets, the apostrophe and the two
    curly quotation marks; and the double quotation mark that they
    replace. *)
Definition fullwidth_question_mark : N := 65311.
Definition multiplication_sign : N := 215.
Definition diagonal_rising : N := 9585.
Definition diagonal_falling : N := 9586.
Definition fullwidth_colon : N := 65306.
Definition right_angle_bracket : N := 12297.
Definition left_angle_bracket : N := 12296.
Definition apostrophe : N := 39.
Definition left_quotation_mark : N := 8220.
Definition right_quotation_mark : N := 8221.
Definition quotation_mark : N := 34.
Definition line_feed : N := 10.
Definition carriage_return : N := 13.

(** [File_Name_Cleanup(name)] of src/SpiderUtilLib/FileUtils.py. *)
Definition File_Name_Cleanup (name : ustr) : ustr :=
  let new_name := name in
  let new_name := replace new_name (one "|") (one "-") in
  let new_name := replace new_name (one "?") [fullwidth_question_mark] in
  let new_name := replace new_name (one "*") [multiplication_sign] in
  let new_name := replace new_name (one "/") [diagonal_rising] in
  let new_name := replace new_name (one "\") [diagonal_falling] in
  let new_name := replace new_name [line_feed] (one "_") in
  let new_name := replace new_name (one ":") [fullwidth_colon] in
  let new_name := replace new_name (one ">") [right_angle_bracket] in
  let new_name := replace new_name (one "<") [left_angle_bracket] in
  let new_name := replace new_name [quotation_mark] [apostrophe] in
  new_name.

(** The [while] loop of [file_name_cleanup]; [fuel] bounds its turns, of
    which there are no more than the name has characters. *)
Fixpoint quotes_loop (fuel : nat) (replace_by new_name : ustr) (count : nat)
  : ustr :=
  if find new_name [quotation_mark] >? -1
  then match fuel with
       | O => new_name
       | S fuel' =>
           quotes_loop fuel' replace_by
             (replace_first new_name [quotation_mark]
                            [nth (count mod 2) replace_by 0%N])
             (count + 1)
       end
  else new_name.

(** [file_name_cleanup(name, remove_left_whitespace,
    remove_right_whitespace)] of src/src/SpiderUtilLib/FileUtils.py and
    src/src/SpiderUtilLib/SpiderUtilLib.py. *)
Definition file_name_cleanup (name : ustr)
           (remove_left_whitespace remove_right_whitespace : bool) : ustr :=
  let new_name := name in
  let new_name := replace new_name (one "|") (one "-") in
  let new_name := replace new_name (one "?") [fullwidth_question_mark] in
  let new_name := replace new_name (one "*") [multiplication_sign] in
  let new_name := replace new_name (one "/") [diagonal_rising] in
  let new_name := replace new_name (one "\") [diagonal_falling] in
  let new_name := replace new_name [line_feed] (one "_") in
  let new_name := replace new_name [carriage_return] (one "_") in
  let new_name := replace new_name (one ":") [fullwidth_colon] in
  let new_name := replace new_name (one ">") [right_angle_bracket] in
  let new_name := replace new_name (one "<") [left_angle_bracket] in
  let new_name := replace new_name (text "&nbsp;") (one " ") in
  let replace_by := [left_quotation_mark; right_quotation_mark] in
  let new_name := quotes_loop (length new_name) replace_by new_name 0 in
  let new_name := if remove_left_whitespace then lstrip new_name else new_name in
  let new_name := if remove_right_whitespace then rstrip new_name else new_name in
  new_name.

(** The characters that [File_Name_Cleanup] takes out of a name, and
    those that [file_name_cleanup] does. *)
Definition illegal : ustr :=
  text "|?*/\" ++ [line_feed] ++ text ":><" ++ [quotation_mark].
Definition illegal_2 : ustr := carriage_return :: illegal.

(** The character written for [c] by [File_Name_Cleanup]. *)
Definition legal (c : N) : N :=
  if (c =? N_of_ascii "|")%N then N_of_ascii "-"
  else if (c =? N_of_ascii "?")%N then fullwidth_question_mark
  else if (c =? N_of_ascii "*")%N then multiplication_sign
  else if (c =? N_of_ascii "/")%N then diagonal_rising
  else if (c =? N_of_ascii "\")%N then diagonal_falling
  else if (c =? line_feed)%N then N_of_ascii "_"
  else if (c =? N_of_ascii ":")%N then fullwidth_colon
  else if (c =? N_of_ascii ">")%N then right_angle_bracket
  else if (c =? N_of_ascii "<")%N then left_angle_bracket
  else if (c =? quotation_mark)%N then apostrophe
  else c.

(** The character written for [c] by the replacements of
    [file_name_cleanup] that come before [&nbsp;]. *)
Definition legal_2 (c : N) : N :=
  if (c =? N_of_ascii "|")%N then N_of_ascii "-"
  else if (c =? N_of_ascii "?")%N then fullwidth_question_mark
  else if (c =? N_of_ascii "*")%N then multiplication_sign
  else if (c =? N_of_ascii "/")%N then diagonal_rising
  else if (c =? N_of_ascii "\")%N then diagonal_falling
  else if (c =? line_feed)%N then N_of_ascii "_"
  else if (c =? carriage_return)%N then N_of_ascii "_"
  else if (c =? N_of_ascii ":")%N then fullwidth_colon
  else if (c =? N_of_ascii ">")%N then right_angle_bracket
  else if (c =? N_of_ascii "<")%N then left_angle_bracket
  else c.

(** The quotation marks of a name made curly in one pass, the left and
    the right one in turn. *)
Fixpoint alternate (count : nat) (s : ustr) : ustr :=
  match s with
  | [] => []
  | c :: s' =>
      if (c =? quotation_mark)%N
      then (if Nat.even count then left_quotation_mark else right_quotation_mark)
             :: alternate (S count) s'
      else c :: alternate count s'
  end.

End FileUtils_names.

(* ===================================================================== *)
(** ** Search_File_By_Name                                                  *)
(* ===================================================================== *)

Module FileUtils_search.
Import Py.

Section Search_File_By_Name.

(** [os.walk(root_path)], of which the loop reads [dirpath] and
    [filenames], and [os.path.join]. *)
Variable os_walk : str -> list (str * list str).
Variable os_path_join : str -> str -> str.

Variable name : str.
Variable return_path_only return_all_files allow_partial_name : bool.

(** [name == filename]. *)
Definition str_eq (s t : str) : bool :=
  if list_eq_dec ascii_dec s t then true else false.

(** The condition of the first [if]. *)
Definition matches (filename : str) : bool :=
  (str_eq name filename && negb allow_partial_name)
  || (negb (find filename name =? -1) && allow_partial_name).

Definition absolute_path (dirpath filename : str) : str :=
  if return_path_only && negb allow_partial_name
  then dirpath
  else os_path_join dirpath filename.

(** The inner loop: the value returned from inside it, or [result_list]
    at its end. *)
Fixpoint for_filenames (dirpath : str) (filenames : list str)
         (result_list : list str) : str + list str :=
  match filenames with
  | [] => inr result_list
  | filename :: filenames' =>
      if matches filename
      then if negb return_all_files
           then inl (absolute_path dirpath filename)
           else for_filenames dirpath filenames'
                  (result_list ++ [absolute_path dirpath filename])
      else for_filenames dirpath filenames' result_list
  end.

Fixpoint for_walk (walk : list (str * list str)) (result_list : list str)
  : str + list str :=
  match walk with
  | [] => inr result_list
  | (dirpath, filenames) :: walk' =>
      match for_filenames dirpath filenames result_list with
      | inl path => inl path
      | inr result_list => for_walk walk' result_list
      end
  end.

(** [Search_File_By_Name(name, root_path, return_path_only,
    return_all_files, allow_partial_name)]: [None], a path or a list of
    paths. *)
Definition Search_File_By_Name (root_path : str) : option (str + list str) :=
  match for_walk (os_walk root_path) [] with
  | inl path => Some (inl path)
  | inr [] => None
  | inr (path :: paths) => Some (inr (path :: paths))
  end.

(** The paths of the files that match, in the order of the walk. *)
Definition paths_of (dirpath : str) (filenames : list str) : list str :=
  map (absolute_path dirpath) (filter matches filenames).
Definition candidates (root_path : str) : list str :=
  flat_map (fun turn => paths_of (fst turn) (snd turn)) (os_walk root_path).

End Search_File_By_Name.

End FileUtils_search.

(** Notions that the properties of the two base64 functions are stated
    with. *)
Module Base64.
Import Py WebUtils.

(** The character of the tuple at the value of the digits [p]. *)
Definition sextet_char (BASE64MAP : str) (p : bits) : ascii :=
  nth (N.to_nat (value_of 0%N p)) BASE64MAP "="%char.

(** A byte other than [b'\x00']. *)
Definition not_nul (c : byte) : bool := negb (Byte.eqb c x00).

(** The pieces of eight digits that one block of at most three bytes is
    cut into, each behind its prefix ['00']. *)
Definition block_pieces (three : bytes) : list bits :=
  map (fun index => [false; false] ++ slice (concat (map byte_digits three)) index (index + 6))
      [0; 6; 12; 18]%nat.

(** The work of [base64_decoder] on one piece of four characters. *)
Definition decode_four (BASE64MAP : str) (four : str) : result (list bytes) :=
  bind (traverse (decode_character BASE64MAP) four)
       (fun pieces => decode_block (concat pieces)).

(** The text that [base64_decoder] cuts in pieces of four: [=] is added for
    RFC3501 and RFC4648 only. *)
Definition prepared (base64_encoding_map : string) (encrypted_text : str) : str :=
  if String.eqb base64_encoding_map "RFC3501"
     || String.eqb base64_encoding_map "RFC4648"
  then pad_to_four 3 "="%char encrypted_text
  else encrypted_text.


(** The three names of [BASE64MAP_dict]. *)
Definition map_names : list string := ["default"; "RFC3501"; "RFC4648"]%string.

End Base64.

(* ===================================================================== *)
(** ** Properties                                                          *)
(* ===================================================================== *)

Import Py FileUtils Lines Examples.

Unset Implicit Arguments.

(** *** Bytes and [splitlines] *)

Lemma byte_eqb_sym (x y : byte) : Byte.eqb x y = Byte.eqb y x.
Proof.
  destruct (Byte.eqb x y) eqn:E.
  - apply Byte.byte_dec_bl in E; subst; symmetry; now apply Byte.byte_dec_lb.
  - destruct (Byte.eqb y x) eqn:E'; [|reflexivity].
    apply Byte.byte_dec_bl in E'; subst.
    rewrite (Byte.byte_dec_lb eq_refl) in E; discriminate.
Qed.

Lemma startswith_default s : startswith s (separators None) = starts_sep s.
Proof.
  destruct s as [|c s]; [reflexivity|].
  unfold startswith, starts_sep, is_sep, is_CR, is_LF; simpl.
  rewrite (byte_eqb_sym CR c), (byte_eqb_sym LF c).
  destruct (Byte.eqb c CR), (Byte.eqb c LF); simpl; reflexivity.
Qed.

Lemma ends_sep_snoc s c : ends_sep (s ++ [c]) = is_sep c.
Proof.
  induction s as [|d s IH]; [reflexivity|].
  simpl; rewrite IH; destruct (s ++ [c]) eqn:E; [|reflexivity].
  now destruct s.
Qed.

Lemma endswith_default s : endswith s (separators None) = ends_sep s.
Proof.
  destruct s as [|c s _] using rev_ind; [reflexivity|].
  rewrite ends_sep_snoc.
  unfold endswith, endswith1; simpl; rewrite rev_app_distr; simpl.
  unfold is_sep, is_CR, is_LF.
  rewrite (byte_eqb_sym CR c), (byte_eqb_sym LF c).
  destruct (Byte.eqb c CR), (Byte.eqb c LF); simpl; reflexivity.
Qed.

Lemma ends_sep_cons c s : s <> [] -> ends_sep (c :: s) = ends_sep s.
Proof. destruct s; [congruence|reflexivity]. Qed.

Lemma ends_CR_cons c s : s <> [] -> ends_CR (c :: s) = ends_CR s.
Proof. destruct s; [congruence|reflexivity]. Qed.

(** Induction that follows [splitlines], which passes over one byte or over
    two. *)
Lemma bytes_ind2 (P : bytes -> Prop) :
  P [] -> (forall c, P [c]) ->
  (forall c d s, P s -> P (d :: s) -> P (c :: d :: s)) ->
  forall s, P s.
Proof.
  intros H0 H1 H2 s.
  enough (P s /\ forall c, P (c :: s)) by tauto.
  induction s as [|d s [IHa IHb]]; split; auto.
Qed.

Section Splitlines.
Variable keepends : bool.

Lemma splitlines_nil s : splitlines keepends s = [] -> s = [].
Proof.
  destruct s as [|c s]; [reflexivity|]; simpl.
  destruct (is_LF c); [discriminate|].
  destruct (is_CR c).
  - destruct s as [|d s]; [discriminate|]. destruct (is_LF d); discriminate.
  - destruct (splitlines keepends s); discriminate.
Qed.

Lemma splitlines_cons2 c d s :
  splitlines keepends (c :: d :: s) =
  if is_LF c then (if keepends then [c] else []) :: splitlines keepends (d :: s)
  else if is_CR c then
    if is_LF d
    then (if keepends then [c; d] else []) :: splitlines keepends s
    else (if keepends then [c] else []) :: splitlines keepends (d :: s)
  else match splitlines keepends (d :: s) with
       | [] => [[c]]
       | l :: ls => (c :: l) :: ls
       end.
Proof. reflexivity. Qed.

(** A batch that ends on a separator splits apart from what follows it,
    unless the two share a CR LF. *)
Lemma splitlines_app_closed (A S : bytes) :
  ends_sep A = true -> ends_CR A && starts_LF S = false ->
  splitlines keepends (A ++ S) = splitlines keepends A ++ splitlines keepends S.
Proof.
  induction A as [|c|c d A IHA IHdA] using bytes_ind2; intros E N.
  - discriminate.
  - simpl in *. unfold is_sep in E.
    destruct (is_LF c) eqn:L; [reflexivity|].
    simpl in E; rewrite E in *; simpl in N.
    destruct S as [|d S]; [reflexivity|]. simpl in N; rewrite N; reflexivity.
  - rewrite ends_sep_cons in E by discriminate.
    rewrite ends_CR_cons in N by discriminate.
    specialize (IHdA E N).
    change ((d :: A) ++ S) with (d :: (A ++ S)) in IHdA.
    change ((c :: d :: A) ++ S) with (c :: d :: (A ++ S)).
    rewrite !splitlines_cons2, IHdA.
    destruct (is_LF c); [reflexivity|].
    destruct (is_CR c).
    + destruct (is_LF d) eqn:Ld; [|reflexivity].
      destruct A as [|a A]; [reflexivity|].
      rewrite IHA; [reflexivity| |].
      * now rewrite ends_sep_cons in E by discriminate.
      * now rewrite ends_CR_cons in N by discriminate.
    + destruct (splitlines keepends (d :: A)) eqn:Es; [|reflexivity].
      apply splitlines_nil in Es; discriminate.
Qed.

(** A batch that does not end on a separator leaves its last line open:
    the first line of what follows continues it. *)
Lemma splitlines_app_open (A S : bytes) seg ls :
  A <> [] -> ends_sep A = false -> splitlines keepends S = seg :: ls ->
  exists init lst,
    splitlines keepends A = init ++ [lst] /\
    splitlines keepends (A ++ S) = init ++ (lst ++ seg) :: ls.
Proof.
  intros NA E HS; revert NA E.
  induction A as [|c|c d A IHA IHdA] using bytes_ind2; intros NA E.
  - congruence.
  - simpl in E. unfold is_sep in E. apply orb_false_iff in E as [L C].
    exists [], [c]. simpl. rewrite L, C, HS. split; reflexivity.
  - rewrite ends_sep_cons in E by discriminate.
    destruct (IHdA ltac:(discriminate) E) as (init & lst & H1 & H2).
    change ((d :: A) ++ S) with (d :: (A ++ S)) in H2.
    change ((c :: d :: A) ++ S) with (c :: d :: (A ++ S)).
    rewrite !splitlines_cons2, H1, H2.
    destruct (is_LF c).
    { eexists (_ :: init), lst; split; reflexivity. }
    destruct (is_CR c).
    + destruct (is_LF d) eqn:Ld.
      * destruct A as [|a A].
        { simpl in E. unfold is_sep in E. rewrite Ld in E. discriminate. }
        rewrite ends_sep_cons in E by discriminate.
        destruct (IHA ltac:(discriminate) E) as (init' & lst' & H1' & H2').
        rewrite H1', H2'.
        eexists (_ :: init'), lst'; split; reflexivity.
      * eexists (_ :: init), lst; split; reflexivity.
    + destruct init as [|l init]; simpl.
      * exists [], (c :: lst); split; reflexivity.
      * exists ((c :: l) :: init), lst; split; reflexivity.
Qed.

End Splitlines.

(** *** The windows of [reverse_binary_stream] *)

Section Engine.
Variable byte_stream : bytes.
Variable batch_size : Z.
Hypothesis batch_size_pos : 0 < batch_size.
Variable keep_lines_separator : bool.

Local Abbreviation rbfe := (read_batch_from_end byte_stream batch_size).
Local Abbreviation rbw := (read_batch_while byte_stream batch_size None).
Local Abbreviation tiles := (covers byte_stream batch_size).

Lemma ceil_division_pos v :
  ceil_division v batch_size = ok (- ((- v) / batch_size)).
Proof.
  unfold ceil_division. destruct (Z.eqb_spec batch_size 0); [lia|reflexivity].
Qed.

(** A window that ends at [v] holds the bytes before [v] that the earlier
    windows leave. *)
Lemma firstn_window v :
  0 < v <= Z.of_nat (length byte_stream) ->
  firstn (Z.to_nat v) byte_stream =
  firstn (Z.to_nat (Z.max 0 (v - batch_size))) byte_stream ++ rbfe v.
Proof.
  intros Hv. unfold read_batch_from_end, seek_read.
  destruct (Z.gtb_spec v batch_size).
  - destruct (Z.ltb_spec batch_size 0); [lia|].
    rewrite Z.max_r by lia.
    rewrite <- (firstn_skipn (Z.to_nat (v - batch_size))
                             (firstn (Z.to_nat v) byte_stream)) at 1.
    rewrite firstn_firstn, skipn_firstn_comm.
    f_equal; f_equal; lia.
  - destruct (Z.ltb_spec v 0); [lia|].
    rewrite Z.max_l by lia. reflexivity.
Qed.

(** The positions that [remaining_bytes_indicator] holds tile the
    stream. *)
Lemma covers_accumulate (count : nat) : forall v,
  0 <= v <= Z.of_nat (length byte_stream) ->
  Z.of_nat count = - ((- v) / batch_size) ->
  tiles (firstn (Z.to_nat v) byte_stream) (accumulate_sub count v batch_size).
Proof.
  induction count as [|count IH]; intros v Hv Hc.
  - assert (v = 0)
      by (pose proof (Z.mul_div_le (- v) batch_size batch_size_pos); nia).
    subst; reflexivity.
  - assert (0 < v).
    { destruct (Z.eq_dec v 0); [|lia].
      subst; change (- (-0 / batch_size)) with 0 in Hc; lia. }
    pose proof (firstn_window v ltac:(lia)) as Hwin.
    simpl. exists (firstn (Z.to_nat (Z.max 0 (v - batch_size))) byte_stream).
    split; [exact Hwin|]. split.
    { intros Hnil. rewrite Hnil, app_nil_r in Hwin.
      apply (f_equal (@length byte)) in Hwin.
      rewrite !length_firstn in Hwin. lia. }
    destruct (Z.gtb_spec v batch_size) as [Hgt|Hle].
    + rewrite Z.max_r by lia. apply IH; [lia|].
      replace (- (v - batch_size)) with (- v + 1 * batch_size) by lia.
      rewrite Z.div_add by lia. lia.
    + assert (count = O).
      { assert (- v / batch_size = -1); [|lia].
        symmetry; apply (Z.div_unique _ _ _ (batch_size - v)); lia. }
      subst; rewrite Z.max_l by lia; reflexivity.
Qed.

Lemma read_batch_while_shorter ind : forall result,
  (length (snd (rbw result ind)) <= length ind)%nat.
Proof.
  induction ind as [|position ind IH]; intros result;
    cbn [read_batch_while]; destruct (startswith _ _); simpl; try lia.
  specialize (IH (rbfe position ++ result)). lia.
Qed.

(** [read_batch] extends its batch with whole windows, and stops on a
    batch that does not start with a separator or at the start of the
    stream. *)
Lemma read_batch_while_spec ind : forall P result,
  tiles P ind -> result <> [] ->
  exists P',
    P ++ result = P' ++ fst (rbw result ind) /\
    tiles P' (snd (rbw result ind)) /\
    fst (rbw result ind) <> [] /\
    (starts_sep (fst (rbw result ind)) = false \/ snd (rbw result ind) = []).
Proof.
  induction ind as [|position ind IH]; intros P result HP Hne;
    cbn [read_batch_while]; rewrite startswith_default.
  - simpl in HP; subst P. exists [].
    destruct (starts_sep result) eqn:E; simpl; auto.
  - destruct HP as (P0 & -> & Hwin & HP0).
    destruct (starts_sep result) eqn:E; cbn [fst snd].
    + destruct (IH P0 (rbfe position ++ result))
        as (P' & Hcat & Hcov & Hnil & Hstop);
        [assumption|destruct (rbfe position); [congruence|discriminate]|].
      exists P'. rewrite <- app_assoc. auto.
    + exists (P0 ++ rbfe position). repeat split; auto.
      exists P0; auto.
Qed.

(** The [for] loop: [S] is the part of the stream already split, of which
    [segment] is the first line and [ls] the lines yielded so far, in
    forward order; [P] is the part still to read. *)
Lemma for_loop_spec n : forall ind P S segment ls,
  (length ind <= n)%nat -> tiles P ind ->
  splitlines keep_lines_separator S = segment :: ls ->
  ind = [] \/ starts_sep S = false ->
  exists front,
    splitlines keep_lines_separator (P ++ S) = front ++ ls /\
    for_loop byte_stream batch_size None keep_lines_separator ind segment
    = (rev front, None).
Proof.
  induction n as [|n IH]; intros ind P S segment ls Hlen HP HS Hstart.
  - destruct ind; [|simpl in Hlen; lia]. simpl in HP; subst P.
    exists [segment]. simp for_loop. simpl app. rewrite HS. split; reflexivity.
  - destruct ind as [|position ind].
    { simpl in HP; subst P. exists [segment]. simp for_loop. simpl app.
      rewrite HS. split; reflexivity. }
    destruct Hstart as [|Hstart]; [discriminate|].
    destruct HP as (P0 & -> & Hne & HP0).
    simp for_loop. unfold read_batch.
    destruct (@read_batch_while_spec ind P0 (rbfe position) HP0 Hne)
      as (P' & Hcat & Hcov & Hbatch & Hstop).
    pose proof (read_batch_while_shorter ind (rbfe position)) as Hlen'.
    destruct (rbw (rbfe position) ind) as [batch ind'] eqn:Erb.
    cbn [fst snd] in Hcat, Hcov, Hbatch, Hstop, Hlen' |- *.
    simpl in Hlen.
    assert (Hnext : ind' = [] \/ starts_sep (batch ++ S) = false).
    { destruct Hstop as [Hstop|Hstop]; [right|now left].
      destruct batch; [congruence|exact Hstop]. }
    unfold join_batch, lines_splitter. cbn [bind ok raise].
    rewrite endswith_default.
    destruct (ends_sep batch) eqn:Eend.
    + pose proof (@splitlines_app_closed keep_lines_separator batch S Eend)
        as Happ.
      rewrite HS in Happ.
      destruct (splitlines keep_lines_separator batch)
        as [|segment' lines] eqn:Eb.
      { apply splitlines_nil in Eb; congruence. }
      cbn [bind ok raise fst snd].
      destruct (IH ind' P' (batch ++ S) segment' (lines ++ segment :: ls))
        as (front & Hfront & Hloop); auto; [lia| |].
      { rewrite Happ; [reflexivity|].
        destruct S as [|c S]; [now rewrite andb_false_r|].
        simpl in Hstart |- *. unfold is_sep in Hstart.
        apply orb_false_iff in Hstart as [-> _]. now rewrite andb_false_r. }
      rewrite Hloop. exists (front ++ lines ++ [segment]).
      rewrite Hcat, <- (app_assoc P' batch S), Hfront. split.
      * rewrite <- !app_assoc. reflexivity.
      * unfold yield_from; simpl. rewrite !rev_app_distr. simpl.
        rewrite <- ?app_assoc. reflexivity.
    + destruct (@splitlines_app_open keep_lines_separator batch S segment ls
                  Hbatch Eend HS) as (init & lst & Hb & Hbs).
      rewrite Hb. destruct (init ++ [lst]) eqn:Einit.
      { destruct init; discriminate. }
      rewrite <- Einit. rewrite removelast_last, last_last.
      cbn [bind ok raise].
      destruct (init ++ [lst ++ segment]) as [|segment' lines] eqn:Eb.
      { destruct init; discriminate. }
      cbn [bind ok raise fst snd].
      destruct (IH ind' P' (batch ++ S) segment' (lines ++ ls))
        as (front & Hfront & Hloop); auto; [lia| |].
      { rewrite Hbs. transitivity ((init ++ [lst ++ segment]) ++ ls).
        - rewrite <- app_assoc; reflexivity.
        - rewrite Eb; reflexivity. }
      rewrite Hloop. exists (front ++ lines).
      rewrite Hcat, <- (app_assoc P' batch S), Hfront. split.
      * rewrite <- app_assoc. reflexivity.
      * unfold yield_from; simpl. rewrite !rev_app_distr. reflexivity.
Qed.

End Engine.

(** With the separator set, [reverse_binary_stream] yields the lines of the
    stream from the last to the first, whatever the window size. *)
Lemma reverse_binary_stream_default byte_stream batch_size keep_lines_separator :
  window_size_ok batch_size ->
  reverse_binary_stream byte_stream batch_size None keep_lines_separator
  = (rev (splitlines keep_lines_separator byte_stream), None).
Proof.
  intros Hok. unfold reverse_binary_stream.
  set (n := Z.of_nat (length byte_stream)).
  set (size := match batch_size with
               | Some size => size
               | None => if n =? 0 then 1 else n
               end).
  assert (Hsize : 0 < size).
  { subst size. destruct batch_size; [exact Hok|].
    destruct (Z.eqb_spec n 0); lia. }
  rewrite (ceil_division_pos size Hsize). cbn [bind ok].
  unfold remaining_bytes_indicator.
  assert (Hcount : 0 <= - (- n / size)).
  { assert (- n / size <= 0); [|lia].
    apply Z.div_le_upper_bound; lia. }
  destruct (Z.ltb_spec (- (- n / size)) 0); [lia|].
  pose proof (@covers_accumulate byte_stream size Hsize
                (Z.to_nat (- (- n / size))) n) as Hcov.
  rewrite Z2Nat.id in Hcov by lia.
  specialize (Hcov ltac:(lia) eq_refl).
  replace (firstn (Z.to_nat n) byte_stream) with byte_stream in Hcov
    by (subst n; rewrite Nat2Z.id, firstn_all; reflexivity).
  unfold ok.
  destruct (accumulate_sub _ n size) as [|position ind].
  { simpl in Hcov. rewrite Hcov. reflexivity. }
  destruct Hcov as (P0 & HP & Hne & HP0).
  unfold read_batch.
  destruct (@read_batch_while_spec byte_stream size ind P0 _ HP0 Hne)
    as (P' & Hcat & Hcov' & Hbatch & Hstop).
  destruct (read_batch_while byte_stream size None _ ind) as [batch ind'].
  cbn [fst snd] in *. unfold lines_splitter, ok.
  destruct (splitlines keep_lines_separator batch) as [|segment lines] eqn:Eb.
  { apply splitlines_nil in Eb; congruence. }
  destruct (@for_loop_spec byte_stream size keep_lines_separator (length ind')
              ind' P' batch segment lines (le_n _) Hcov' Eb)
    as (front & Hfront & Hloop).
  { destruct Hstop as [Hstop|Hstop]; [now right|now left]. }
  rewrite Hloop, HP, Hcat, Hfront, rev_app_distr. reflexivity.
Qed.

(** *** The order property *)

(** C2: for every byte stream and every window size, also one larger than
    the whole stream or smaller than the shortest line, and whether the
    separators are kept or dropped, [reverse_binary_stream] over the
    separator set CR, LF, CR LF ends normally and yields the forward line
    sequence of the stream in reversed order. *)
Theorem reverse_binary_stream_order
        (byte_stream : bytes) (batch_size : option Z) (keep_lines_separator : bool) :
  window_size_ok batch_size ->
  reverse_binary_stream byte_stream batch_size None keep_lines_separator
  = (rev (splitlines keep_lines_separator byte_stream), None).
Proof. apply reverse_binary_stream_default. Qed.

(** Three lines ended by CR LF, LF and nothing, read through windows of two
    bytes. *)
Lemma reverse_binary_stream_order_witness :
  window_size_ok (Some 2) /\
  reverse_binary_stream (b "ab" ++ [CR; LF] ++ b "cd" ++ [LF] ++ b "ef")
                        (Some 2) None true
  = ([b "ef"; b "cd" ++ [LF]; b "ab" ++ [CR; LF]], None).
Proof.
  split; [reflexivity|].
  exact (reverse_binary_stream_order
           (b "ab" ++ [CR; LF] ++ b "cd" ++ [LF] ++ b "ef") (Some 2) true
           eq_refl).
Defined.

(** *** An explicit separator *)

(** The order property is that of the separator set.  With an explicit
    [lines_separator] the windows show through: a dropped separator at the
    end of a window leaves an empty piece there, and a separator of two
    bytes that lies across the edge of two windows is not seen. *)
Lemma explicit_separator_windows :
  split (b "a,b,") (b ",") false = ok [b "a"; b "b"; []] /\
  reverse_binary_stream (b "a,b,") None (Some (b ",")) false
  = ([[]; b "b"; b "a"], None) /\
  reverse_binary_stream (b "a,b,") (Some 2) (Some (b ",")) false
  = ([[]; b "b"; []; b "a"], None) /\
  split (b "xaby") (b "ab") true = ok [b "xab"; b "y"] /\
  reverse_binary_stream (b "xaby") (Some 2) (Some (b "ab")) true
  = ([b "xaby"], None).
Proof. repeat split. Qed.

(** *** The empty source *)

(** C8, as the code has it: a source of length 0 yields the empty sequence
    and raises nothing, for every separator argument, kept or dropped, and
    every window-size argument but 0: none given, or any positive or
    negative size. *)
Theorem reverse_binary_stream_empty
        (batch_size : option Z) (lines_separator : option bytes)
        (keep_lines_separator : bool) :
  batch_size <> Some 0 ->
  reverse_binary_stream [] batch_size lines_separator keep_lines_separator
  = ([], None).
Proof.
  intros Hsize. unfold reverse_binary_stream. simpl length.
  destruct batch_size as [size|]; [|reflexivity].
  unfold ceil_division. destruct (Z.eqb_spec size 0); [congruence|].
  reflexivity.
Qed.

(** A window of no bytes is no window: the number of batches is a division
    by its size, which raises before anything is read, whatever the
    source. *)
Lemma zero_window_size byte_stream lines_separator keep_lines_separator :
  reverse_binary_stream byte_stream (Some 0) lines_separator keep_lines_separator
  = ([], Some ZeroDivisionError).
Proof. reflexivity. Qed.

Lemma reverse_binary_stream_empty_witness :
  Some 4096 <> Some 0 /\
  reverse_binary_stream [] (Some 4096) (Some (b ";")) false = ([], None).
Proof.
  split; [discriminate|].
  apply (reverse_binary_stream_empty (Some 4096) (Some (b ";")) false).
  discriminate.
Defined.

(** C8, as the specification has it, fails for a window size of 0: the
    number of windows is computed, by a division by the window size, before
    the empty source is noticed, and the stream raises
    [ZeroDivisionError] where the specification has the empty sequence. *)
Lemma reverse_binary_stream_empty_counterexample :
  reverse_binary_stream [] (Some 0) None true = ([], Some ZeroDivisionError) /\
  reverse_binary_stream [] (Some 0) None true <> ([], None).
Proof. split; [reflexivity|discriminate]. Qed.

(** *** A separator at the edge of a window *)

Lemma windows_cons byte_stream batch_size position positions :
  windows byte_stream batch_size (position :: positions) =
  windows byte_stream batch_size positions
  ++ read_batch_from_end byte_stream batch_size position.
Proof.
  unfold windows; simpl. rewrite concat_app; simpl. now rewrite app_nil_r.
Qed.

(** [read_batch] reads on while what it has starts with a separator. *)
Lemma read_batch_while_windows byte_stream batch_size ind : forall result,
  exists k,
    (k <= length ind)%nat /\
    read_batch_while byte_stream batch_size None result ind
    = (windows byte_stream batch_size (firstn k ind) ++ result, skipn k ind) /\
    (forall j, (j < k)%nat ->
       starts_sep (windows byte_stream batch_size (firstn j ind) ++ result) = true) /\
    (starts_sep (windows byte_stream batch_size (firstn k ind) ++ result) = false
     \/ skipn k ind = []).
Proof.
  induction ind as [|position ind IH]; intros result;
    cbn [read_batch_while]; rewrite startswith_default.
  - exists O. repeat split; [lia|now destruct (starts_sep result)|lia|now right].
  - destruct (starts_sep result) eqn:E.
    + destruct (IH (read_batch_from_end byte_stream batch_size position ++ result))
        as (k & Hk & Hrun & Hwhile & Hstop).
      exists (S k). cbn [firstn skipn]. rewrite windows_cons, <- app_assoc.
      repeat split; [simpl; lia|exact Hrun| |exact Hstop].
      intros [|j] Hj; [exact E|].
      cbn [firstn]. rewrite windows_cons, <- app_assoc. apply Hwhile. lia.
    + exists O. repeat split; [simpl; lia|lia|now left].
Qed.

Lemma splitlines_cons_plain keepends c s :
  is_sep c = false ->
  splitlines keepends (c :: s) =
  match splitlines keepends s with
  | [] => [[c]]
  | l :: ls => (c :: l) :: ls
  end.
Proof.
  unfold is_sep; intros E; apply orb_false_iff in E as [L C].
  simpl. now rewrite L, C.
Qed.

(** A line without separator bytes and its terminator are one line. *)
Lemma splitlines_line keepends line sep :
  forallb (fun c => negb (is_sep c)) line = true ->
  In sep (separators None) ->
  splitlines keepends (line ++ sep) = [line ++ if keepends then sep else []].
Proof.
  intros Hline Hsep. induction line as [|c line IH].
  - simpl in Hsep. destruct Hsep as [<-|[<-|[<-|[]]]]; reflexivity.
  - simpl in Hline. apply andb_true_iff in Hline as [Hc Hline].
    apply negb_true_iff in Hc.
    change ((c :: line) ++ sep) with (c :: (line ++ sep)).
    rewrite (splitlines_cons_plain _ _ _ Hc), (IH Hline). reflexivity.
Qed.

Lemma ends_sep_app (A B : bytes) : B <> [] -> ends_sep (A ++ B) = ends_sep B.
Proof.
  intros HB. induction A as [|c A IH]; [reflexivity|].
  change ((c :: A) ++ B) with (c :: (A ++ B)).
  rewrite ends_sep_cons; [exact IH|]. destruct A, B; simpl; congruence.
Qed.

Lemma ends_CR_app (A B : bytes) : B <> [] -> ends_CR (A ++ B) = ends_CR B.
Proof.
  intros HB. induction A as [|c A IH]; [reflexivity|].
  change ((c :: A) ++ B) with (c :: (A ++ B)).
  rewrite ends_CR_cons; [exact IH|]. destruct A, B; simpl; congruence.
Qed.

Lemma separator_shape sep :
  In sep (separators None) -> sep <> [] /\ ends_sep sep = true.
Proof.
  simpl. intros [<-|[<-|[<-|[]]]]; split; (discriminate || reflexivity).
Qed.

(** The lines of a stream around one of its lines. *)
Lemma splitlines_around keepends (pre line sep post : bytes) :
  In sep (separators None) ->
  forallb (fun c => negb (is_sep c)) line = true ->
  pre = [] \/ ends_sep pre = true ->
  ends_CR pre && starts_LF (line ++ sep) = false ->
  ends_CR sep && starts_LF post = false ->
  splitlines keepends (pre ++ line ++ sep ++ post) =
  splitlines keepends pre ++ [line ++ if keepends then sep else []]
  ++ splitlines keepends post.
Proof.
  intros Hsep Hline Hpre Hleft Hright.
  destruct (separator_shape sep Hsep) as [Hne Hend].
  assert (Hmid : splitlines keepends ((line ++ sep) ++ post) =
                 [line ++ if keepends then sep else []] ++ splitlines keepends post).
  { rewrite splitlines_app_closed.
    - now rewrite splitlines_line.
    - now rewrite ends_sep_app.
    - now rewrite ends_CR_app. }
  rewrite (app_assoc line sep post).
  destruct Hpre as [->|Hpre]; [exact Hmid|].
  rewrite splitlines_app_closed, Hmid; [reflexivity|exact Hpre|].
  destruct (line ++ sep) eqn:E; [destruct line; simpl in E; congruence|].
  exact Hleft.
Qed.

(** C3: [read_batch] keeps reading and prepending earlier windows while
    what it has read starts with a member of the separator set, and stops on
    a batch that does not, or when no window is left, at the start of the
    source.  Hence a line that ends with CR, LF or CR LF is yielded once and
    whole, between the lines after it and the lines before it, for every
    window size: also those that put the edge of a window right before its
    separator, inside it or right after it. *)
Theorem read_batch_straddling
        (pre line sep post : bytes) (batch_size : option Z)
        (keep_lines_separator : bool) :
  In sep (separators None) ->
  forallb (fun c => negb (is_sep c)) line = true ->
  pre = [] \/ ends_sep pre = true ->
  ends_CR pre && starts_LF (line ++ sep) = false ->
  ends_CR sep && starts_LF post = false ->
  window_size_ok batch_size ->
  let byte_stream := pre ++ line ++ sep ++ post in
  (forall size position ind,
      exists k,
        (k <= length ind)%nat /\
        read_batch byte_stream size None position ind
        = (windows byte_stream size (position :: firstn k ind), skipn k ind) /\
        (forall j, (j < k)%nat ->
           starts_sep (windows byte_stream size (position :: firstn j ind)) = true) /\
        (starts_sep (windows byte_stream size (position :: firstn k ind)) = false
         \/ skipn k ind = [])) /\
  reverse_binary_stream byte_stream batch_size None keep_lines_separator
  = (rev (splitlines keep_lines_separator post)
     ++ [line ++ if keep_lines_separator then sep else []]
     ++ rev (splitlines keep_lines_separator pre), None).
Proof.
  intros Hsep Hline Hpre Hleft Hright Hsize byte_stream. split.
  - intros size position ind. unfold read_batch.
    destruct (read_batch_while_windows byte_stream size ind
                (read_batch_from_end byte_stream size position))
      as (k & Hk & Hrun & Hwhile & Hstop).
    exists k. rewrite windows_cons. repeat split; auto.
    intros j Hj. rewrite windows_cons. auto.
  - rewrite reverse_binary_stream_default by exact Hsize.
    subst byte_stream. rewrite splitlines_around by assumption.
    rewrite !rev_app_distr. simpl. rewrite <- app_assoc. reflexivity.
Qed.

(** The line [ab] ends with CR LF, and the windows of three bytes end
    between its CR and its LF. *)
Lemma read_batch_straddling_witness :
  reverse_binary_stream (b "x" ++ [LF] ++ b "ab" ++ [CR; LF] ++ b "cd")
                        (Some 3) None true
  = ([b "cd"; b "ab" ++ [CR; LF]; b "x" ++ [LF]], None).
Proof.
  exact (proj2 (read_batch_straddling
                  (b "x" ++ [LF]) (b "ab") [CR; LF] (b "cd") (Some 3) true
                  (or_intror (or_intror (or_introl eq_refl)))
                  eq_refl (or_intror eq_refl) eq_refl eq_refl eq_refl)).
Defined.

(** *** The reader of text files *)

Lemma map_items_ok {A B} (f : A -> B) (l : list A) (fin : option exn) :
  map_items (fun a => ok (f a)) l fin = (map f l, fin).
Proof.
  induction l as [|a l IH]; [reflexivity|].
  simpl. rewrite IH. reflexivity.
Qed.

Lemma decode_all_Forall2 encoding lines : forall texts,
  decode_all encoding lines = ok texts <->
  Forall2 (fun line text => decode encoding line = ok text) lines texts.
Proof.
  induction lines as [|line lines IH]; intros texts; simpl.
  - split; [intros [= <-]; constructor|inversion 1; reflexivity].
  - destruct (decode encoding line) as [e|text] eqn:E; simpl.
    + split; [discriminate|inversion 1; subst; unfold ok in *; congruence].
    + destruct (decode_all encoding lines) as [e|texts'] eqn:E'; simpl.
      * split; [discriminate|]. inversion 1; subst.
        match goal with H : Forall2 _ lines _ |- _ => apply IH in H end.
        discriminate.
      * split.
        -- intros [= <-]. constructor; [exact E|]. now apply IH.
        -- inversion 1; subst.
           match goal with H : Forall2 _ lines _ |- _ => apply IH in H end.
           unfold ok in *. congruence.
Qed.

Lemma map_items_decoded {A B} (f : A -> result B) (g : B -> B) fin :
  forall (l : list A) (l' : list B),
  Forall2 (fun a v => f a = ok v) l l' ->
  map_items (fun a => bind (f a) (fun v => ok (g v))) l fin = (map g l', fin).
Proof.
  induction 1 as [|a v l l' Hav _ IH]; [reflexivity|].
  simpl. rewrite Hav. simpl. rewrite IH. reflexivity.
Qed.

Lemma map_items_Forall2 {A B} (f : A -> result B) fin :
  forall (l : list A) (l' : list B),
  Forall2 (fun a v => f a = ok v) l l' -> map_items f l fin = (l', fin).
Proof.
  induction 1 as [|a v l l' Hav _ IH]; [reflexivity|].
  simpl. rewrite Hav, IH. reflexivity.
Qed.

Lemma Forall2_reversed {A B} (R : A -> B -> Prop) (l : list A) (l' : list B) :
  Forall2 R l l' -> Forall2 R (rev l) (rev l').
Proof.
  induction 1; simpl; [constructor|].
  apply Forall2_app; [assumption|]. constructor; [assumption|constructor].
Qed.

(** Stripping a line on the right takes its terminator away, whichever it
    was. *)
Lemma rstrip_universal_newline (line : str) :
  rstrip (universal_newline line) = rstrip line.
Proof.
  unfold rstrip, universal_newline.
  destruct (rev line) as [|c [|d front]] eqn:E; [now rewrite E| |].
  - destruct (Ascii.eqb_spec c "013"); [subst; reflexivity|now rewrite E].
  - destruct (Ascii.eqb_spec c "010"); simpl.
    + destruct (Ascii.eqb_spec d "013"); subst; simpl.
      * rewrite rev_app_distr, rev_involutive. reflexivity.
      * now rewrite E.
    + destruct (Ascii.eqb_spec c "013"); [|now rewrite E]. subst.
      rewrite rev_app_distr. simpl. rewrite rev_app_distr, rev_involutive.
      reflexivity.
Qed.

(** What the reader yields in each of its modes, from the lines that the
    mode reads: the decoded lines of the bytes with [save_memory=True],
    the lines of [readlines()] otherwise. *)
Lemma Reverse_File_Reader_lines (file : TextIOWrapper) (lines_separator : str)
      (keep save_memory : bool) (lines : list str) :
  (if save_memory then lines_of file else readlines file) = ok lines ->
  Reverse_File_Reader file lines_separator keep save_memory
  = (rev (map (fun line => if keep then rstrip line ++ lines_separator
                           else rstrip line) lines), None).
Proof.
  unfold Reverse_File_Reader. destruct save_memory.
  - unfold lines_of. intros Hlines. apply decode_all_Forall2 in Hlines.
    unfold reverse_file. cbn [ok bind]. unfold gen_map.
    rewrite reverse_binary_stream_default by exact I. cbn [fst snd].
    rewrite (map_items_Forall2 _ _ _ _ (Forall2_reversed _ _ _ Hlines)).
    cbn [fst snd]. rewrite map_items_ok, map_rev. reflexivity.
  - intros Hlines. rewrite Hlines. unfold ok. now rewrite map_rev.
Qed.

(** C1, as the code has it: for every text file whose lines decode, the
    reader consumed to its end (with [keep_lines_separator=True]) yields
    the forward line sequence of the file in exactly reversed order, each
    line stripped of the white space at its right end, its separator
    included, and ended by [lines_separator] instead.  The forward lines
    are those that the memory mode reads: the lines of the bytes of the
    file, each decoded, with [save_memory=True], and the lines of
    [readlines()], which cuts the decoded text, with [save_memory=False].
    Reversing what the reader yields gives these lines back when every one
    of them is its own stripped text followed by [lines_separator]. *)
Theorem reverse_file_reader_round_trip
        (file : TextIOWrapper) (lines_separator : str) (save_memory : bool)
        (lines : list str) :
  (if save_memory then lines_of file else readlines file) = ok lines ->
  Reverse_File_Reader file lines_separator true save_memory
  = (rev (map (fun line => rstrip line ++ lines_separator) lines), None) /\
  (Forall (fun line => rstrip line ++ lines_separator = line) lines ->
   rev (fst (Reverse_File_Reader file lines_separator true save_memory)) = lines).
Proof.
  intros Hlines.
  rewrite (Reverse_File_Reader_lines _ _ true _ _ Hlines). split; [reflexivity|].
  intros Hnormal. cbn [fst]. rewrite rev_involutive.
  clear Hlines. induction Hnormal as [|line lines Hline _ IH]; [reflexivity|].
  simpl. rewrite Hline, IH. reflexivity.
Qed.

Lemma reverse_file_reader_round_trip_witness :
  lines_of two_lines = ok [u "a" ++ nl; u "b" ++ nl] /\
  Reverse_File_Reader two_lines ["010"%char] true true
  = ([u "b" ++ ["010"%char]; u "a" ++ ["010"%char]], None) /\
  readlines two_lines = ok [u "a" ++ nl; u "b" ++ nl] /\
  Reverse_File_Reader two_lines ["010"%char] true false
  = ([u "b" ++ ["010"%char]; u "a" ++ ["010"%char]], None).
Proof.
  split; [reflexivity|]. split.
  - exact (proj1 (reverse_file_reader_round_trip
                    two_lines ["010"%char] true
                    [u "a" ++ nl; u "b" ++ nl] eq_refl)).
  - split; [reflexivity|].
    exact (proj1 (reverse_file_reader_round_trip
                    two_lines ["010"%char] false
                    [u "a" ++ nl; u "b" ++ nl] eq_refl)).
Defined.

(** C1, as the specification has it, fails on a file whose first line ends
    with a space and whose last line has no separator: the space is lost,
    and the last line gains a line feed. *)
Lemma reverse_file_reader_round_trip_counterexample :
  lines_of trailing_space = ok [u "a " ++ ["010"%char]; u "b"] /\
  Reverse_File_Reader trailing_space ["010"%char] true true
  = ([u "b" ++ ["010"%char]; u "a" ++ ["010"%char]], None) /\
  rev (fst (Reverse_File_Reader trailing_space ["010"%char] true true))
  <> [u "a " ++ ["010"%char]; u "b"] /\
  concat (rev (fst (Reverse_File_Reader trailing_space ["010"%char] true true)))
  <> u "a " ++ ["010"%char] ++ u "b".
Proof.
  repeat split; try reflexivity; vm_compute; discriminate.
Qed.

(** *** The search *)

Section Search.
Variable re : re_module.
Variable reverse_reader : TextIOWrapper -> gen str.
Variable search_for : str.
Variable search_using_regex : bool.
Variable count : Z.

Local Abbreviation loop := (search_loop re search_for search_using_regex count).
Local Abbreviation on_line := (search_line re search_for search_using_regex).
Local Abbreviation scan := (scan_all re search_for search_using_regex).

(** A line adds at most one match. *)
Lemma search_line_grows line result result' :
  on_line line result = ok result' ->
  result' = result \/ exists m, result' = result ++ [m].
Proof.
  unfold search_line.
  destruct (negb search_using_regex).
  - destruct (negb _); intros [= <-]; eauto.
  - destruct (re_compile re search_for) as [e|p]; [discriminate|]. simpl.
    destruct (re_search re p line); intros [= <-]; eauto.
Qed.

(** What the loop returns is what a scan of the lines it took records. *)
Lemma search_loop_scan lines fin : forall result0 result v,
  loop lines fin result0 = (ok result, v) ->
  (exists rest, lines = v ++ rest) /\ scan v result0 = ok result.
Proof.
  induction lines as [|line lines IH]; intros result0 result v; simpl.
  - destruct fin; [discriminate|]. intros [= <- <-]. split; [now exists []|reflexivity].
  - destruct (on_line line result0) as [e|result1] eqn:E; [discriminate|].
    destruct ((0 <? count) && (count =? Z.of_nat (length result1))).
    + intros [= <- <-]. split; [now exists lines|]. simpl. now rewrite E.
    + destruct (loop lines fin result1) as [r v'] eqn:L.
      intros [= -> <-].
      destruct (IH _ _ _ L) as ((rest & Hrest) & Hscan).
      split; [exists rest; simpl; now rewrite <- Hrest|].
      simpl. rewrite E. exact Hscan.
Qed.

Lemma below_count line result0 result1 :
  on_line line result0 = ok result1 ->
  Z.of_nat (length result0) < count ->
  (0 <? count) && (count =? Z.of_nat (length result1)) = false ->
  Z.of_nat (length result1) < count.
Proof.
  intros E Hlt B.
  apply andb_false_iff in B as [B|B];
    [apply Z.ltb_ge in B; lia|apply Z.eqb_neq in B].
  destruct (search_line_grows _ _ _ E) as [->|(m & ->)]; [lia|].
  rewrite length_app in *. simpl in *. lia.
Qed.

(** The loop takes a line only while fewer than [count] matches are
    recorded, and it stops short of [count] only when the source is at its
    end. *)
Lemma search_loop_count lines fin : forall result0 result v,
  0 < count -> Z.of_nat (length result0) < count ->
  loop lines fin result0 = (ok result, v) ->
  Z.of_nat (length result) <= count /\
  (forall p line rest, v = p ++ line :: rest ->
     exists rp, scan p result0 = ok rp /\ Z.of_nat (length rp) < count) /\
  (Z.of_nat (length result) < count -> v = lines /\ fin = None).
Proof.
  induction lines as [|line lines IH]; intros result0 result v Hpos Hlt; simpl.
  - destruct fin; [discriminate|]. intros [= <- <-].
    repeat split; [lia|].
    intros [|? ?] ? ? [=].
  - destruct (on_line line result0) as [e|result1] eqn:E; [discriminate|].
    destruct ((0 <? count) && (count =? Z.of_nat (length result1))) eqn:B.
    + intros [= <- <-]. apply andb_true_iff in B as [B1 B2].
      apply Z.eqb_eq in B2.
      repeat split; [lia| |lia|lia].
      intros [|? p] ? ? [=]; subst; [exists result0; split; [reflexivity|lia]|].
      destruct p; discriminate.
    + destruct (loop lines fin result1) as [r v'] eqn:L.
      intros [= -> <-].
      pose proof (below_count _ _ _ E Hlt B) as Hlt1.
      destruct (IH _ _ _ Hpos Hlt1 L) as (Hlen & Hprefix & Hall).
      repeat split; [exact Hlen| | |].
      * intros [|l p] line' rest' [= ? ?]; subst.
        { exists result0. split; [reflexivity|assumption]. }
        destruct (Hprefix p line' rest' eq_refl) as (rp & Hrp & Hlen').
        exists rp. simpl. rewrite E. auto.
      * destruct (Hall H) as [-> _]. reflexivity.
      * destruct (Hall H) as [_ ->]. reflexivity.
Qed.

End Search.

(** A search that returns matches opened the file and ran the loop over its
    line source to a normal end. *)
Lemma returned_Some re reverse_reader search_for search_using_regex count
      fs file encoding front_to_back result :
  returned (text_search_all re reverse_reader search_for search_using_regex
              count fs file encoding front_to_back) = Some result ->
  result <> [] /\
  exists content,
    fs file = Some content /\
    let source := line_source reverse_reader
                    {| Py.encoding := encoding; buffer := content |}
                    front_to_back in
    search_loop re search_for search_using_regex count
                (fst source) (snd source) []
    = (ok result,
       visited (text_search_all re reverse_reader search_for search_using_regex
                  count fs file encoding front_to_back)).
Proof.
  unfold text_search_all, open_r, line_source.
  destruct search_for as [|c pattern]; [discriminate|].
  destruct (fs file) as [content|]; [|discriminate].
  cbn [raise ok]. cbv zeta.
  destruct (search_loop _ _ _ _ _ _ []) as [[e|[|m r]] v] eqn:L;
    [discriminate|discriminate|].
  cbn [returned visited]. intros Hret. injection Hret as <-.
  split; [discriminate|]. exists content. split; [reflexivity|exact L].
Qed.

(** C6: for every file and every count [n > 0], a search that returns
    matches returns at most [n]; they are the matches that the scan of the
    lines it visited records, and before each line that it visited fewer
    than [n] matches were recorded: the scan stops as soon as [n] are.  A
    backward literal search for [cat] with [count=1] in the five-line file
    with [cat] on lines 2 and 4 visits lines 5 and 4 and returns the one
    match found there. *)
Theorem search_stops_at_count
        (re : re_module) (fs : filesystem) (file : string) (search_for : str)
        (encoding : codec) (search_using_regex search_from_front_to_back : bool)
        (count : Z) (result : list str) :
  0 < count ->
  returned (Text_File_Search_All re fs file search_for encoding
              search_using_regex search_from_front_to_back count) = Some result ->
  let lines := visited (Text_File_Search_All re fs file search_for encoding
                          search_using_regex search_from_front_to_back count) in
  Z.of_nat (length result) <= count /\
  scan_all re search_for search_using_regex lines [] = ok result /\
  (forall before line after, lines = before ++ line :: after ->
     exists recorded,
       scan_all re search_for search_using_regex before [] = ok recorded /\
       Z.of_nat (length recorded) < count) /\
  returned (Text_File_Search_All Re.engine pets "pets.txt" (u "cat")
              ascii_codec false false 1) = Some [u "cat"] /\
  visited (Text_File_Search_All Re.engine pets "pets.txt" (u "cat")
             ascii_codec false false 1) = [u "five" ++ nl; u "cat nap" ++ nl].
Proof.
  intros Hpos Hret lines. subst lines.
  apply returned_Some in Hret as (_ & content & _ & Hloop). cbv zeta in Hloop.
  destruct (search_loop_scan _ _ _ _ _ _ _ _ _ Hloop) as (_ & Hscan).
  destruct (search_loop_count _ _ _ _ _ _ [] _ _ Hpos Hpos Hloop)
    as (Hlen & Hprefix & _).
  split; [exact Hlen|]. split; [exact Hscan|]. split; [exact Hprefix|].
  split; reflexivity.
Qed.

Lemma search_stops_at_count_witness :
  Z.of_nat (length [u "cat"; u "cat"]) <= 2 /\
  visited (Text_File_Search_All Re.engine pets "pets.txt" (u "cat")
             ascii_codec false true 2) = [u "one" ++ nl; u "a cat" ++ nl;
                                          u "three" ++ nl; u "cat nap" ++ nl].
Proof.
  split.
  - exact (proj1 (search_stops_at_count Re.engine pets "pets.txt" (u "cat")
                    ascii_codec false true 2 [u "cat"; u "cat"]
                    eq_refl eq_refl)).
  - reflexivity.
Defined.

(** *** What is recorded *)

Lemma scan_all_literal re search_for lines : forall result,
  scan_all re search_for false lines result
  = ok (result ++ repeat search_for
          (length (filter (fun line => negb (find line search_for =? -1)) lines))).
Proof.
  induction lines as [|line lines IH]; intros result; simpl.
  - now rewrite app_nil_r.
  - unfold search_line. simpl.
    destruct (negb (find line search_for =? -1)); simpl; rewrite IH.
    + now rewrite <- app_assoc.
    + reflexivity.
Qed.

Lemma scan_all_regex re search_for p lines : forall result,
  re_compile re search_for = ok p ->
  scan_all re search_for true lines result
  = ok (result ++ flat_map (fun line => match re_search re p line with
                                        | Some group => [group]
                                        | None => []
                                        end) lines).
Proof.
  intros result Hp; revert result.
  induction lines as [|line lines IH]; intros result; simpl.
  - now rewrite app_nil_r.
  - unfold search_line. simpl. rewrite Hp. simpl.
    destruct (re_search re p line); simpl; rewrite IH.
    + now rewrite <- app_assoc.
    + reflexivity.
Qed.

(** C7: in literal mode the matches returned are the search pattern itself,
    once for each visited line in which it occurs; in regex mode they are,
    for each visited line in which the compiled pattern matches, the text of
    its leftmost match, as [re.search] gives it: the pattern of one or more
    digits finds [42] in the line [id=42 qty=7], not [7]. *)
Theorem recorded_matches
        (re : re_module) (fs : filesystem) (file : string) (search_for : str)
        (encoding : codec) (search_using_regex search_from_front_to_back : bool)
        (count : Z) (result : list str) :
  returned (Text_File_Search_All re fs file search_for encoding
              search_using_regex search_from_front_to_back count) = Some result ->
  let lines := visited (Text_File_Search_All re fs file search_for encoding
                          search_using_regex search_from_front_to_back count) in
  (search_using_regex = false ->
   result = repeat search_for
              (length (filter (fun line => negb (find line search_for =? -1))
                              lines))) /\
  (search_using_regex = true ->
   exists p,
     re_compile re search_for = ok p /\
     result = flat_map (fun line => match re_search re p line with
                                    | Some group => [group]
                                    | None => []
                                    end) lines) /\
  returned (Text_File_Search_All Re.engine ids "ids.txt" (u "\d+")
              ascii_codec true false 0) = Some [u "42"].
Proof.
  intros Hret lines. subst lines.
  apply returned_Some in Hret as (Hne & content & _ & Hloop). cbv zeta in Hloop.
  destruct (search_loop_scan _ _ _ _ _ _ _ _ _ Hloop) as (_ & Hscan).
  split; [|split; [|reflexivity]].
  - intros ->. rewrite scan_all_literal in Hscan. now injection Hscan as <-.
  - intros ->. destruct (re_compile re search_for) as [e|p] eqn:Hp.
    + exfalso. destruct (visited _) as [|line lines].
      * simpl in Hscan. injection Hscan as <-. congruence.
      * simpl in Hscan. unfold search_line in Hscan. simpl in Hscan.
        rewrite Hp in Hscan. discriminate.
    + exists p. split; [reflexivity|].
      rewrite (scan_all_regex _ _ _ _ _ Hp) in Hscan. now injection Hscan as <-.
Qed.

Lemma recorded_matches_witness :
  returned (Text_File_Search_All Re.engine pets "pets.txt" (u "cat")
              ascii_codec false true 0) = Some [u "cat"; u "cat"] /\
  [u "cat"; u "cat"]
  = repeat (u "cat")
      (length (filter (fun line => negb (find line (u "cat") =? -1))
                 (visited (Text_File_Search_All Re.engine pets "pets.txt" (u "cat")
                             ascii_codec false true 0)))).
Proof.
  split; [reflexivity|].
  exact (proj1 (recorded_matches Re.engine pets "pets.txt" (u "cat")
                  ascii_codec false true 0 [u "cat"; u "cat"] eq_refl) eq_refl).
Defined.

(** *** What a search returns when it finds nothing or fails *)

Lemma search_loop_absent re search_for search_using_regex count lines :
  Forall (fun line =>
            search_line re search_for search_using_regex line [] = ok []) lines ->
  search_loop re search_for search_using_regex count lines None []
  = (ok [], lines).
Proof.
  induction 1 as [|line lines Hline _ IH]; [reflexivity|].
  simpl. rewrite Hline. simpl.
  replace ((0 <? count) && (count =? 0)) with false
    by (destruct (Z.ltb_spec 0 count), (Z.eqb_spec count 0); simpl; lia).
  rewrite IH. reflexivity.
Qed.

(** C5, as the code has it: the search of an existing, readable file for a
    non-empty pattern that none of its lines matches returns [None] and
    prints nothing; a search that cannot be performed, for a file that does
    not exist or a regex that fails to compile at the first line, returns
    [None] as well, and differs only in the exception that it prints. *)
Theorem search_failure_and_absence
        (re : re_module) (fs : filesystem) (file : string) (search_for : str)
        (encoding : codec) (search_using_regex search_from_front_to_back : bool)
        (count : Z) :
  search_for <> [] ->
  let o := Text_File_Search_All re fs file search_for encoding
             search_using_regex search_from_front_to_back count in
  let source content :=
    line_source (fun file_reader =>
                   Reverse_File_Reader file_reader ["010"%char] true true)
                {| Py.encoding := encoding; buffer := content |}
                search_from_front_to_back in
  (forall content lines,
      fs file = Some content -> source content = (lines, None) ->
      Forall (fun line =>
                search_line re search_for search_using_regex line [] = ok [])
             lines ->
      returned o = None /\ printed o = []) /\
  (fs file = None ->
   returned o = None /\ printed o = [FileNotFoundError file]) /\
  (forall content line lines fin e,
      fs file = Some content -> source content = (line :: lines, fin) ->
      search_using_regex = true -> re_compile re search_for = raise e ->
      returned o = None /\ printed o = [e]).
Proof.
  intros Hpattern o source. subst o source.
  unfold Text_File_Search_All, text_search_all, open_r, line_source.
  destruct search_for as [|c pattern]; [congruence|].
  split; [|split].
  - intros content lines -> Hsource Hlines. cbn [ok raise].
    rewrite Hsource. cbn [fst snd].
    rewrite (search_loop_absent _ _ _ _ _ Hlines). split; reflexivity.
  - intros ->. split; reflexivity.
  - intros content line lines fin e -> Hsource -> Hcompile. cbn [ok raise].
    rewrite Hsource. cbn [fst snd search_loop].
    unfold search_line. cbn [negb]. rewrite Hcompile. split; reflexivity.
Qed.

Lemma search_failure_and_absence_witness :
  u "dog" <> [] /\
  (returned (Text_File_Search_All Re.engine pets "pets.txt" (u "dog")
               ascii_codec false false 0) = None /\
   printed (Text_File_Search_All Re.engine pets "pets.txt" (u "dog")
              ascii_codec false false 0) = []) /\
  (returned (Text_File_Search_All Re.engine pets "missing.txt" (u "dog")
               ascii_codec false false 0) = None /\
   printed (Text_File_Search_All Re.engine pets "missing.txt" (u "dog")
              ascii_codec false false 0) = [FileNotFoundError "missing.txt"]) /\
  (returned (Text_File_Search_All Re.engine pets "pets.txt" (u "*")
               ascii_codec true true 0) = None /\
   printed (Text_File_Search_All Re.engine pets "pets.txt" (u "*")
              ascii_codec true true 0) = [re_error]).
Proof.
  split; [discriminate|]. split; [|split].
  - refine (proj1 (search_failure_and_absence
                     Re.engine pets "pets.txt" (u "dog") ascii_codec
                     false false 0 _)
              (b "one" ++ [LF] ++ b "a cat" ++ [LF] ++ b "three" ++ [LF]
               ++ b "cat nap" ++ [LF] ++ b "five" ++ [LF])
              [u "five" ++ nl; u "cat nap" ++ nl; u "three" ++ nl;
               u "a cat" ++ nl; u "one" ++ nl]
              eq_refl eq_refl _).
    + discriminate.
    + repeat constructor.
  - refine (proj1 (proj2 (search_failure_and_absence
                            Re.engine pets "missing.txt" (u "dog") ascii_codec
                            false false 0 _)) eq_refl).
    discriminate.
  - refine (proj2 (proj2 (search_failure_and_absence
                            Re.engine pets "pets.txt" (u "*") ascii_codec
                            true true 0 _))
              (b "one" ++ [LF] ++ b "a cat" ++ [LF] ++ b "three" ++ [LF]
               ++ b "cat nap" ++ [LF] ++ b "five" ++ [LF])
              (u "one" ++ nl)
              [u "a cat" ++ nl; u "three" ++ nl; u "cat nap" ++ nl;
               u "five" ++ nl]
              None re_error eq_refl eq_refl eq_refl eq_refl).
    discriminate.
Defined.

(** C5, as the specification has it, fails: the search of a file that does
    not exist, and the search with a regex that does not compile, return the
    very value that the search for an absent pattern returns. *)
Lemma search_failure_counterexample :
  returned (Text_File_Search_All Re.engine pets "pets.txt" (u "dog")
              ascii_codec false false 0) = None /\
  returned (Text_File_Search_All Re.engine pets "missing.txt" (u "dog")
              ascii_codec false false 0)
  = returned (Text_File_Search_All Re.engine pets "pets.txt" (u "dog")
                ascii_codec false false 0) /\
  returned (Text_File_Search_All Re.engine pets "pets.txt" (u "*")
              ascii_codec true false 0)
  = returned (Text_File_Search_All Re.engine pets "pets.txt" (u "dog")
                ascii_codec false false 0).
Proof. repeat split. Qed.

(** *** The empty pattern *)

(** C9: with the empty pattern the search returns [None] at once, for every
    file, existing or not, every direction and both modes, in the first
    module and in the re-issued ones: nothing is opened, no line is read,
    nothing is printed, and no match is recorded. *)
Theorem empty_pattern_no_match
        (re : re_module) (fs : filesystem) (file : string) (encoding : codec)
        (search_using_regex search_from_front_to_back : bool) (count : Z) :
  Text_File_Search_All re fs file [] encoding search_using_regex
                       search_from_front_to_back count
  = {| returned := None; printed := []; opened := []; visited := [] |} /\
  forall module_globals,
    FileUtils_src.text_file_search_all module_globals re fs file [] encoding
      search_using_regex search_from_front_to_back count
    = {| returned := None; printed := []; opened := []; visited := [] |}.
Proof. split; reflexivity. Qed.

(** *** The re-issued reader *)

Lemma reverse_file_reader_unbound module_globals file_object lines_separator
      keep_lines_separator save_memory :
  FileUtils_src.load_global module_globals "filename"
  = raise (NameError "filename") ->
  FileUtils_src.reverse_file_reader module_globals file_object lines_separator
    keep_lines_separator save_memory
  = ([], Some (NameError "filename")).
Proof. unfold FileUtils_src.reverse_file_reader. now intros ->. Qed.

Lemma backward_search_unbound module_globals re fs file search_for encoding
      search_using_regex count :
  FileUtils_src.load_global module_globals "filename"
  = raise (NameError "filename") ->
  returned (FileUtils_src.text_file_search_all module_globals re fs file
              search_for encoding search_using_regex false count) = None /\
  forall c pattern content,
    search_for = c :: pattern -> fs file = Some content ->
    FileUtils_src.text_file_search_all module_globals re fs file
      search_for encoding search_using_regex false count
    = {| returned := None; printed := [NameError "filename"];
         opened := [file]; visited := [] |}.
Proof.
  intros Hname.
  unfold FileUtils_src.text_file_search_all, text_search_all, open_r.
  split.
  - destruct search_for; [reflexivity|]. destruct (fs file); [|reflexivity].
    cbn [ok raise]. now rewrite reverse_file_reader_unbound.
  - intros c pattern content -> ->. cbn [ok raise].
    now rewrite reverse_file_reader_unbound.
Qed.

(** C4: in src/src/SpiderUtilLib/FileUtils.py and in
    src/src/SpiderUtilLib/SpiderUtilLib.py, for every file object and every
    combination of arguments, [reverse_file_reader] yields nothing and ends
    with [NameError] for the name [filename]: it has read nothing of the
    file object.  Hence every backward search of [text_file_search_all]
    returns [None], whatever the file holds; on a file that exists, with a
    pattern that is not empty, it has visited no line and printed that
    [NameError]. *)
Theorem backward_search_name_error :
  (forall file_object lines_separator keep_lines_separator save_memory,
      FileUtils_src.reverse_file_reader FileUtils_src.FileUtils_py_globals
        file_object lines_separator keep_lines_separator save_memory
      = ([], Some (NameError "filename")) /\
      FileUtils_src.reverse_file_reader FileUtils_src.SpiderUtilLib_py_globals
        file_object lines_separator keep_lines_separator save_memory
      = ([], Some (NameError "filename"))) /\
  (forall re fs file search_for encoding search_using_regex count,
      returned (FileUtils_src.text_file_search_all
                  FileUtils_src.FileUtils_py_globals re fs file search_for
                  encoding search_using_regex false count) = None /\
      returned (FileUtils_src.text_file_search_all
                  FileUtils_src.SpiderUtilLib_py_globals re fs file search_for
                  encoding search_using_regex false count) = None) /\
  (forall re fs file content c pattern encoding search_using_regex count,
      FileUtils_src.text_file_search_all
        FileUtils_src.FileUtils_py_globals re (fs_write fs file content) file
        (c :: pattern) encoding search_using_regex false count
      = {| returned := None; printed := [NameError "filename"];
           opened := [file]; visited := [] |} /\
      FileUtils_src.text_file_search_all
        FileUtils_src.SpiderUtilLib_py_globals re (fs_write fs file content) file
        (c :: pattern) encoding search_using_regex false count
      = {| returned := None; printed := [NameError "filename"];
           opened := [file]; visited := [] |}).
Proof.
  split; [|split].
  - intros; split; now apply reverse_file_reader_unbound.
  - intros; split; now apply backward_search_unbound.
  - intros re fs file content c pattern encoding search_using_regex count.
    assert (Hfile : fs_write fs file content file = Some content)
      by (unfold fs_write; now rewrite String.eqb_refl).
    split.
    + exact (proj2 (backward_search_unbound
                      FileUtils_src.FileUtils_py_globals re _ file (c :: pattern)
                      encoding search_using_regex count eq_refl)
               c pattern content eq_refl Hfile).
    + exact (proj2 (backward_search_unbound
                      FileUtils_src.SpiderUtilLib_py_globals re _ file
                      (c :: pattern) encoding search_using_regex count eq_refl)
               c pattern content eq_refl Hfile).
Qed.

(** *** The cleanup of the re-issued module *)

Lemma string_length_append (s t : string) :
  String.length (s ++ t) = (String.length s + String.length t)%nat.
Proof. induction s as [|c s IH]; simpl; [reflexivity|now rewrite IH]. Qed.

Lemma origin_differs (file : string) :
  String.eqb (file ++ ".origin") file = false /\
  String.eqb file (file ++ ".origin") = false.
Proof.
  assert (Hne : (file ++ ".origin")%string <> file).
  { intros H. apply (f_equal String.length) in H.
    rewrite string_length_append in H. simpl in H. lia. }
  split; apply String.eqb_neq; congruence.
Qed.

(** C10: [text_file_cleanup] of src/src/SpiderUtilLib/FileUtils.py, called
    with [preserve_original_file=False], returns [False] on every file; on
    a file that exists and whose replacement pass runs to its end, it
    returns [False] for the [AttributeError] of [shutil.remove] alone, after
    the file was rewritten, and the copy [file + '.origin'] stays: so a
    file that held [x&y] is left holding [xandy] by a call that returns
    [False]. *)
Theorem cleanup_returns_false
        (re : re_module) (search_for replace_as : str) (encoding : codec)
        (search_using_regex auto_replace_nbsp : bool)
        (fs : filesystem) (file : string) (content written : bytes) :
  fs file = Some content ->
  (let source := text_lines {| Py.encoding := encoding; buffer := content |} in
   FileUtils_src.cleanup_loop re search_for replace_as encoding
     search_using_regex auto_replace_nbsp (fst source) (snd source) []
   = (written, None)) ->
  (forall fs' file',
      fst (fst (FileUtils_src.text_file_cleanup re search_for replace_as
                  encoding search_using_regex auto_replace_nbsp fs' file' false))
      = false) /\
  (exists fs_after,
      FileUtils_src.text_file_cleanup re search_for replace_as encoding
        search_using_regex auto_replace_nbsp fs file false
      = (false, fs_after, [AttributeError "shutil" "remove"]) /\
      fs_after file = Some written /\
      fs_after (file ++ ".origin")%string = Some content) /\
  (let fs0 := fs_write fs_empty "a.txt" (b "x&y" ++ [LF]) in
   let after := FileUtils_src.text_file_cleanup Re.engine (u "&") (u "and")
                  ascii_codec false true fs0 "a.txt" false in
   fst (fst after) = false /\
   snd (fst after) "a.txt"%string = Some (b "xandy" ++ [LF]) /\
   snd (fst after) "a.txt.origin"%string = Some (b "x&y" ++ [LF])).
Proof.
  intros Hfile Hpass. split; [|split].
  - intros fs' file'. unfold FileUtils_src.text_file_cleanup.
    destruct (fs' file'); [|reflexivity].
    destruct (FileUtils_src.cleanup_loop _ _ _ _ _ _ _ _ _) as [w [e|]];
      reflexivity.
  - unfold FileUtils_src.text_file_cleanup. rewrite Hfile.
    cbv zeta in Hpass. rewrite Hpass. cbn [negb].
    eexists. split; [reflexivity|].
    destruct (origin_differs file) as [H1 H2].
    unfold fs_write, fs_remove.
    rewrite !String.eqb_refl, ?H1, ?H2. split; reflexivity.
  - repeat split.
Qed.

Lemma cleanup_returns_false_witness :
  fst (fst (FileUtils_src.text_file_cleanup Re.engine (u "&") (u "and")
              ascii_codec false true
              (fs_write fs_empty "a.txt" (b "x&y" ++ [LF])) "a.txt" false))
  = false /\
  exists fs_after,
    FileUtils_src.text_file_cleanup Re.engine (u "&") (u "and")
      ascii_codec false true
      (fs_write fs_empty "a.txt" (b "x&y" ++ [LF])) "a.txt" false
    = (false, fs_after, [AttributeError "shutil" "remove"]) /\
    fs_after "a.txt"%string = Some (b "xandy" ++ [LF]) /\
    fs_after "a.txt.origin"%string = Some (b "x&y" ++ [LF]).
Proof.
  pose proof (cleanup_returns_false
                Re.engine (u "&") (u "and") ascii_codec false true
                (fs_write fs_empty "a.txt" (b "x&y" ++ [LF])) "a.txt"
                (b "x&y" ++ [LF]) (b "xandy" ++ [LF]) eq_refl eq_refl)
    as [Hfalse [Hstate _]].
  split; [exact (Hfalse _ _)|exact Hstate].
Defined.

(* ===================================================================== *)
(** ** Properties of the other methods                                     *)
(* ===================================================================== *)

(** *** [Remove_Duplicates_Orderly] *)

Section Duplicates.
Variable A : Type.
Variable eq_dec : forall x y : A, {x = y} + {x <> y}.

Local Abbreviation loop := (FileUtils_lists.dedup_loop eq_dec).
Local Abbreviation firsts := (FileUtils_lists.first_occurrences eq_dec).

Lemma nodup_absent x l : ~ In x l -> nodup eq_dec (x :: l) = x :: nodup eq_dec l.
Proof. intros H. simpl. destruct (in_dec eq_dec x l); [contradiction|reflexivity]. Qed.

Lemma nodup_present x l : In x l -> nodup eq_dec (x :: l) = nodup eq_dec l.
Proof. intros H. simpl. destruct (in_dec eq_dec x l); [reflexivity|contradiction]. Qed.

(** The loop walks the list from its end; [suf] is the part behind it, of
    which the last occurrences were kept, and the set holds the items not
    met yet. *)
Lemma dedup_loop_spec pre : forall suf list_set,
  (forall x, In x list_set <-> In x (pre ++ suf) /\ ~ In x suf) ->
  loop (length pre) (pre ++ nodup eq_dec suf) list_set
  = ok (nodup eq_dec (pre ++ suf)).
Proof.
  induction pre as [|x pre IH] using rev_ind; intros suf list_set Hset.
  - reflexivity.
  - replace ((pre ++ [x]) ++ suf) with (pre ++ x :: suf) in *
      by now rewrite <- app_assoc.
    replace ((pre ++ [x]) ++ nodup eq_dec suf) with (pre ++ x :: nodup eq_dec suf)
      by now rewrite <- app_assoc.
    rewrite length_app, Nat.add_comm. cbn [length Nat.add FileUtils_lists.dedup_loop].
    rewrite nth_error_app2, Nat.sub_diag by lia. cbn [nth_error].
    destruct (in_dec eq_dec x list_set) as [Hin|Hout].
    + apply Hset in Hin as [_ Hfresh].
      rewrite <- (nodup_absent _ _ Hfresh). apply IH.
      intros y. split.
      * intros Hy. apply in_remove in Hy as [Hy Hne]. apply Hset in Hy as [Hy Hsuf].
        split; [exact Hy|]. intros [->|?]; contradiction.
      * intros [Hy Hsuf]. apply in_in_remove.
        -- intros ->. apply Hsuf. now left.
        -- apply Hset. split; [exact Hy|]. intros ?. apply Hsuf. now right.
    + assert (Hx : In x suf).
      { destruct (in_dec eq_dec x suf) as [|Hn]; [assumption|].
        exfalso. apply Hout, Hset. split; [|assumption].
        apply in_or_app. right. now left. }
      rewrite firstn_app, firstn_all, Nat.sub_diag, firstn_O, app_nil_r.
      replace (skipn (S (length pre)) (pre ++ x :: nodup eq_dec suf))
        with (nodup eq_dec suf)
        by (rewrite skipn_app, skipn_all2, Nat.sub_succ_l, Nat.sub_diag by lia;
            reflexivity).
      rewrite <- (nodup_present _ _ Hx). apply IH.
      intros y. rewrite Hset. split; intros [Hy Hsuf]; (split; [exact Hy|]).
      * intros [->|?]; contradiction.
      * intros ?. apply Hsuf. now right.
Qed.

Lemma dedup_loop_all l :
  loop (length l) l (FileUtils_lists.set_of_list eq_dec l) = ok (nodup eq_dec l).
Proof.
  pose proof (dedup_loop_spec l [] (nodup eq_dec l)) as H.
  cbn [nodup] in H. rewrite !app_nil_r in H. apply H.
  intros x. rewrite nodup_In. simpl. tauto.
Qed.

Lemma nodup_snoc l x :
  nodup eq_dec (l ++ [x]) = remove eq_dec x (nodup eq_dec l) ++ [x].
Proof.
  induction l as [|y l IH]; [reflexivity|].
  cbn [app nodup].
  destruct (in_dec eq_dec y (l ++ [x])) as [Hin|Hout];
    destruct (in_dec eq_dec y l) as [Hl|Hl].
  - exact IH.
  - apply in_app_or in Hin as [?|[Heq|[]]]; [contradiction|]. subst y.
    rewrite IH. cbn [remove]. destruct (eq_dec x x); [reflexivity|congruence].
  - exfalso. apply Hout, in_or_app. now left.
  - rewrite IH. cbn [remove app]. destruct (eq_dec x y) as [->|Hne].
    + exfalso. apply Hout, in_or_app. right. now left.
    + reflexivity.
Qed.

Lemma remove_rev x (l : list A) : remove eq_dec x (rev l) = rev (remove eq_dec x l).
Proof.
  induction l as [|y l IH]; [reflexivity|].
  cbn [rev remove]. rewrite remove_app, IH. cbn [remove].
  destruct (eq_dec x y); cbn [rev]; [now rewrite app_nil_r|reflexivity].
Qed.

Lemma rev_nodup_rev l : rev (nodup eq_dec (rev l)) = firsts l.
Proof.
  induction l as [|x l IH]; [reflexivity|].
  cbn [rev FileUtils_lists.first_occurrences].
  rewrite nodup_snoc, rev_app_distr. cbn [rev app].
  now rewrite <- remove_rev, IH.
Qed.

Lemma firsts_In l x : In x (firsts l) <-> In x l.
Proof. rewrite <- rev_nodup_rev, <- in_rev, nodup_In, <- in_rev. tauto. Qed.

Lemma firsts_NoDup l : NoDup (firsts l).
Proof. rewrite <- rev_nodup_rev. apply NoDup_rev, NoDup_nodup. Qed.

Lemma length_nodup_eq l :
  length l = length (nodup eq_dec l) -> nodup eq_dec l = l.
Proof.
  induction l as [|x l IH]; [reflexivity|]. cbn [nodup].
  destruct (in_dec eq_dec x l) as [Hin|Hout]; cbn [length].
  - intros H. pose proof (NoDup_incl_length (NoDup_nodup eq_dec l)
                            (fun y Hy => proj1 (nodup_In eq_dec l y) Hy)).
    lia.
  - intros [= H]. now rewrite IH.
Qed.

Lemma NoDup_firsts l : NoDup l -> firsts l = l.
Proof.
  induction 1 as [|x l Hx _ IH]; [reflexivity|].
  cbn [FileUtils_lists.first_occurrences]. rewrite IH.
  now rewrite notin_remove.
Qed.

(** What the method returns, and what it leaves in the caller's list. *)
Lemma Remove_Duplicates_Orderly_value l first original :
  FileUtils_lists.Remove_Duplicates_Orderly eq_dec l first original
  = ok (if first then firsts l else nodup eq_dec l,
        if original then l
        else if first then firsts l else nodup eq_dec l).
Proof.
  unfold FileUtils_lists.Remove_Duplicates_Orderly.
  destruct (Nat.eqb_spec (length l)
              (length (FileUtils_lists.set_of_list eq_dec l))) as [Hlen|_].
  - apply length_nodup_eq in Hlen.
    assert (Hfirst : firsts l = l)
      by (apply NoDup_firsts; rewrite <- Hlen; apply NoDup_nodup).
    rewrite Hfirst, Hlen. now destruct first, original.
  - destruct first.
    + assert (Hset : forall x, In x (FileUtils_lists.set_of_list eq_dec l) <->
                               In x (rev l ++ []) /\ ~ In x []).
      { intros x. unfold FileUtils_lists.set_of_list.
        rewrite nodup_In, app_nil_r, <- in_rev. simpl. tauto. }
      pose proof (dedup_loop_spec (rev l) [] _ Hset) as Hloop.
      cbn [nodup] in Hloop. rewrite !app_nil_r in Hloop.
      rewrite Hloop. cbn [bind ok]. rewrite rev_nodup_rev. reflexivity.
    + rewrite dedup_loop_all. reflexivity.
Qed.

End Duplicates.

(** X1: on a list of hashable items [Remove_Duplicates_Orderly] never
    raises; it returns the first
    occurrence of each item, in the order of the list, when
    [preserve_first_encounter] is set, and the last occurrence of each
    otherwise; the caller's list is left as it was when
    [preserve_original_list] is set and holds the returned list
    otherwise. *)
Theorem remove_duplicates_keeps_order
        (A : Type) (eq_dec : forall x y : A, {x = y} + {x <> y})
        (l : list A) (preserve_first_encounter preserve_original_list : bool) :
  let kept := if preserve_first_encounter
              then FileUtils_lists.first_occurrences eq_dec l
              else FileUtils_lists.last_occurrences eq_dec l in
  FileUtils_lists.Remove_Duplicates_Orderly eq_dec l preserve_first_encounter
    preserve_original_list
  = ok (kept, if preserve_original_list then l else kept).
Proof. apply Remove_Duplicates_Orderly_value. Qed.

(** X2: the list that [Remove_Duplicates_Orderly] returns has no item
    twice and has exactly the items of the list it was given; a list without
    duplicates is returned as it is. *)
Theorem remove_duplicates_no_duplicates
        (A : Type) (eq_dec : forall x y : A, {x = y} + {x <> y})
        (l : list A) (preserve_first_encounter preserve_original_list : bool) :
  exists kept after,
    FileUtils_lists.Remove_Duplicates_Orderly eq_dec l preserve_first_encounter
      preserve_original_list = ok (kept, after) /\
    NoDup kept /\
    (forall x, In x kept <-> In x l) /\
    (length kept <= length l)%nat /\
    (NoDup l -> kept = l).
Proof.
  rewrite Remove_Duplicates_Orderly_value. eexists _, _. split; [reflexivity|].
  destruct preserve_first_encounter.
  - split; [apply firsts_NoDup|]. split; [apply firsts_In|]. split.
    + apply NoDup_incl_length; [apply firsts_NoDup|].
      intros x. apply firsts_In.
    + apply NoDup_firsts.
  - split; [apply NoDup_nodup|]. split; [apply nodup_In|]. split.
    + apply NoDup_incl_length; [apply NoDup_nodup|].
      intros x. apply nodup_In.
    + apply nodup_fixed_point.
Qed.

(** *** [Text_File_Search] *)

Lemma scan_all_grows re search_for search_using_regex lines :
  forall result result',
  scan_all re search_for search_using_regex lines result = ok result' ->
  exists more, result' = result ++ more.
Proof.
  induction lines as [|line lines IH]; intros result result'; simpl.
  - intros [= <-]. exists []. now rewrite app_nil_r.
  - destruct (search_line re search_for search_using_regex line result)
      as [e|result1] eqn:E; [discriminate|]. simpl. intros Hscan.
    destruct (IH _ _ Hscan) as (more & ->).
    destruct (search_line_grows _ _ _ _ _ _ E) as [->|(m & ->)]; eauto.
    exists (m :: more). now rewrite <- app_assoc.
Qed.

(** What a line adds does not depend on what is recorded already. *)
Lemma search_line_shift re search_for search_using_regex line result result' :
  search_line re search_for search_using_regex line [] = ok result' ->
  search_line re search_for search_using_regex line result = ok (result ++ result').
Proof.
  unfold search_line. destruct (negb search_using_regex).
  - destruct (negb _); intros [= <-]; [reflexivity|now rewrite app_nil_r].
  - destruct (re_compile re search_for) as [e|p]; [discriminate|]. simpl.
    destruct (re_search re p line); intros [= <-];
      [reflexivity|now rewrite app_nil_r].
Qed.

(** The search for one match finds the first match of the search for all. *)
Lemma search_loop_first re search_for search_using_regex lines fin :
  forall m rest v,
  search_loop re search_for search_using_regex 0 lines fin [] = (ok (m :: rest), v) ->
  exists v',
    search_loop re search_for search_using_regex 1 lines fin [] = (ok [m], v').
Proof.
  induction lines as [|line lines IH]; intros m rest v; simpl.
  - destruct fin; discriminate.
  - destruct (search_line re search_for search_using_regex line [])
      as [e|result1] eqn:E; [discriminate|].
    destruct (search_loop re search_for search_using_regex 0 lines fin result1)
      as [r0 v0] eqn:L0.
    intros [= -> <-].
    destruct (search_line_grows _ _ _ _ _ _ E) as [->|(m1 & ->)].
    + simpl. destruct (IH _ _ _ L0) as (v' & ->). eauto.
    + simpl. destruct (search_loop_scan _ _ _ _ _ _ _ _ _ L0) as (_ & Hscan).
      apply scan_all_grows in Hscan as (more & Hmore).
      injection Hmore as -> _. eauto.
Qed.

(** X3: [Text_File_Search] returns the first match of the search for all
    matches: when [Text_File_Search_All] with [count=0] returns a list, its
    first element is what [Text_File_Search] returns, in both directions and
    both modes. *)
Theorem text_file_search_first_match
        (re : re_module) (fs : filesystem) (file : string) (search_for : str)
        (encoding : codec) (search_using_regex search_from_front_to_back : bool)
        (m : str) (rest : list str) :
  returned (Text_File_Search_All re fs file search_for encoding
              search_using_regex search_from_front_to_back 0) = Some (m :: rest) ->
  Text_File_Search re fs file search_for encoding search_using_regex
                   search_from_front_to_back = Some m.
Proof.
  intros Hall.
  destruct search_for as [|c pattern]; [discriminate|].
  unfold Text_File_Search_All in Hall.
  apply returned_Some in Hall as (_ & content & Hfile & Hloop).
  cbv zeta in Hloop. apply search_loop_first in Hloop as (v' & Hone).
  unfold Text_File_Search, Text_File_Search_All, text_search_all, open_r.
  unfold line_source in Hone.
  rewrite Hfile. cbn [ok raise]. rewrite Hone. reflexivity.
Qed.

Lemma text_file_search_first_match_witness :
  Text_File_Search Re.engine pets "pets.txt" (u "cat") ascii_codec false true
  = Some (u "cat").
Proof.
  exact (text_file_search_first_match Re.engine pets "pets.txt" (u "cat")
           ascii_codec false true (u "cat") [u "cat"] eq_refl).
Defined.

(** X4: in literal mode [Text_File_Search] tells presence only: it returns
    [None] or the search pattern itself, whatever the file holds. *)
Theorem text_file_search_literal
        (re : re_module) (fs : filesystem) (file : string) (search_for : str)
        (encoding : codec) (search_from_front_to_back : bool) :
  Text_File_Search re fs file search_for encoding false search_from_front_to_back
  = None \/
  Text_File_Search re fs file search_for encoding false search_from_front_to_back
  = Some search_for.
Proof.
  unfold Text_File_Search.
  destruct (returned _) as [[|first others]|] eqn:Hret; auto.
  unfold Text_File_Search_All in Hret.
  apply returned_Some in Hret as (_ & content & _ & Hloop). cbv zeta in Hloop.
  apply search_loop_scan in Hloop as (_ & Hscan).
  rewrite scan_all_literal in Hscan. injection Hscan as Hscan.
  destruct (length _); [discriminate|]. injection Hscan as -> _. now right.
Qed.

(** *** The reader without separators, and on lines that do not decode *)

Lemma lstrip_idempotent s : lstrip (lstrip s) = lstrip s.
Proof.
  induction s as [|c s IH]; [reflexivity|]. simpl.
  destruct (isspace c) eqn:E; [exact IH|]. simpl. now rewrite E.
Qed.

Lemma rstrip_idempotent s : rstrip (rstrip s) = rstrip s.
Proof. unfold rstrip. now rewrite rev_involutive, lstrip_idempotent. Qed.

(** X5: with [keep_lines_separator=False] the reader yields the lines that
    its memory mode reads (the lines of the bytes of the file, each
    decoded, with [save_memory=True]; the lines of [readlines()] with
    [save_memory=False]) from the last to the first, each stripped of its
    terminator and of the white space at its right end; [lines_separator]
    is not used, and as many lines come out as were read, which with
    [save_memory=True] is the number of lines of the bytes. *)
Theorem reverse_file_reader_stripped
        (file : TextIOWrapper) (lines_separator : str) (save_memory : bool)
        (lines : list str) :
  (if save_memory then lines_of file else readlines file) = ok lines ->
  Reverse_File_Reader file lines_separator false save_memory
  = (rev (map rstrip lines), None) /\
  Forall (fun line => rstrip line = line)
         (fst (Reverse_File_Reader file lines_separator false save_memory)) /\
  length (fst (Reverse_File_Reader file lines_separator false save_memory))
  = length lines /\
  (save_memory = true ->
   length (fst (Reverse_File_Reader file lines_separator false save_memory))
   = length (splitlines true (buffer file))).
Proof.
  intros Hlines.
  rewrite (Reverse_File_Reader_lines _ _ false _ _ Hlines). cbn [fst].
  split; [reflexivity|]. split; [|split].
  - apply Forall_rev, Forall_map, Forall_forall. intros line _.
    apply rstrip_idempotent.
  - now rewrite length_rev, length_map.
  - intros ->. rewrite length_rev, length_map. unfold lines_of in Hlines.
    apply decode_all_Forall2 in Hlines. symmetry.
    eapply Forall2_length; eassumption.
Qed.

Lemma reverse_file_reader_stripped_witness :
  Reverse_File_Reader trailing_space nl false false = ([u "b"; u "a"], None).
Proof.
  exact (proj1 (reverse_file_reader_stripped trailing_space nl false
                  [u "a " ++ nl; u "b"] eq_refl)).
Defined.




(** *** The cleanup in the first module and in SpiderUtilLib.py *)

(** The literal pass over lines that decode and whose replacements encode
    writes the replacements one after the other. *)
Lemma cleanup_loop_literal re search_for replace_as encoding nbsp lines :
  forall datas written,
  Forall2 (fun line data =>
             encode encoding (replace line search_for replace_as) = ok data)
          lines datas ->
  FileUtils_src.cleanup_loop re search_for replace_as encoding false nbsp
    lines None written
  = (written ++ concat datas, None).
Proof.
  induction lines as [|line lines IH]; intros datas written Hdatas;
    inversion Hdatas as [|? data ? datas' Hline Hrest]; subst.
  - simpl. now rewrite app_nil_r.
  - cbn [FileUtils_src.cleanup_loop concat].
    unfold FileUtils_src.cleanup_line. cbn [negb bind ok].
    rewrite Hline. cbn [ok]. rewrite (IH _ _ Hrest), <- app_assoc. reflexivity.
Qed.

(** X7: [Text_File_Cleanup] of src/SpiderUtilLib/FileUtils.py returns
    [True] only when the original is kept.  On a file whose lines decode and
    whose literal replacements encode, the file is rewritten with the
    replaced lines and [file + '.origin'] holds the original bytes in both
    cases; with [preserve_original_file=True] the call returns [True], with
    [False] it returns [False] for the [AttributeError] of [shutil.remove].
    A file that does not exist gives [False] and nothing is touched. *)
Theorem Text_File_Cleanup_literal
        (re : re_module) (fs : filesystem) (file : string)
        (search_for replace_as : str) (encoding : codec)
        (content : bytes) (lines : list str) (datas : list bytes) :
  fs file = Some content ->
  text_lines {| Py.encoding := encoding; buffer := content |} = (lines, None) ->
  Forall2 (fun line data =>
             encode encoding (replace line search_for replace_as) = ok data)
          lines datas ->
  (exists fs_after,
      FileUtils_cleanup.Text_File_Cleanup re fs file search_for replace_as
        encoding false true = (true, fs_after, []) /\
      FileUtils_cleanup.Text_File_Cleanup re fs file search_for replace_as
        encoding false false
      = (false, fs_after, [AttributeError "shutil" "remove"]) /\
      fs_after file = Some (concat datas) /\
      fs_after (file ++ ".origin")%string = Some content) /\
  (forall missing regex preserve,
      fs missing = None ->
      FileUtils_cleanup.Text_File_Cleanup re fs missing search_for replace_as
        encoding regex preserve = (false, fs, [FileNotFoundError missing])).
Proof.
  intros Hfile Hlines Hdatas. split.
  - unfold FileUtils_cleanup.Text_File_Cleanup, FileUtils_src.text_file_cleanup.
    rewrite Hfile, Hlines. cbn [fst snd].
    rewrite (cleanup_loop_literal _ _ _ _ _ _ _ [] Hdatas). cbn [app negb].
    eexists. split; [reflexivity|]. split; [reflexivity|].
    destruct (origin_differs file) as [H1 H2].
    unfold fs_write, fs_remove. rewrite !String.eqb_refl, ?H1, ?H2.
    split; reflexivity.
  - intros missing regex preserve Hmissing.
    unfold FileUtils_cleanup.Text_File_Cleanup, FileUtils_src.text_file_cleanup.
    now rewrite Hmissing.
Qed.

Lemma Text_File_Cleanup_literal_witness :
  exists fs_after,
    FileUtils_cleanup.Text_File_Cleanup Re.engine pets "pets.txt" (u "cat")
      (u "dog") ascii_codec false true = (true, fs_after, []) /\
    fs_after "pets.txt"%string
    = Some (b "one" ++ [LF] ++ b "a dog" ++ [LF] ++ b "three" ++ [LF]
            ++ b "dog nap" ++ [LF] ++ b "five" ++ [LF]).
Proof.
  destruct (proj1 (Text_File_Cleanup_literal
                     Re.engine pets "pets.txt" (u "cat") (u "dog") ascii_codec
                     (b "one" ++ [LF] ++ b "a cat" ++ [LF] ++ b "three" ++ [LF]
                      ++ b "cat nap" ++ [LF] ++ b "five" ++ [LF])
                     [u "one" ++ nl; u "a cat" ++ nl; u "three" ++ nl;
                      u "cat nap" ++ nl; u "five" ++ nl]
                     [b "one" ++ [LF]; b "a dog" ++ [LF]; b "three" ++ [LF];
                      b "dog nap" ++ [LF]; b "five" ++ [LF]]
                     eq_refl eq_refl
                     ltac:(repeat constructor)))
    as (fs_after & Htrue & _ & Hfile & _).
  exists fs_after. split; [exact Htrue|exact Hfile].
Defined.

Lemma cleanup3_loop_literal re c pattern replace_as encoding nbsp lines :
  forall datas written,
  Forall2 (fun line data =>
             encode encoding (replace line (c :: pattern) replace_as) = ok data)
          lines datas ->
  FileUtils_cleanup.cleanup_loop re (c :: pattern) replace_as encoding false nbsp
    lines None written
  = (written ++ concat datas, None).
Proof.
  induction lines as [|line lines IH]; intros datas written Hdatas;
    inversion Hdatas as [|? data ? datas' Hline Hrest]; subst.
  - simpl. now rewrite app_nil_r.
  - cbn [FileUtils_cleanup.cleanup_loop concat].
    unfold FileUtils_cleanup.cleanup_line. cbn [negb bind ok].
    rewrite Hline. cbn [ok]. rewrite (IH _ _ Hrest), <- app_assoc. reflexivity.
Qed.

Lemma cleanup3_loop_empty re replace_as encoding regex lines fin :
  forall written,
  FileUtils_cleanup.cleanup_loop re [] replace_as encoding regex true
    lines fin written = (written, fin).
Proof. induction lines as [|line lines IH]; intros written; simpl; auto. Qed.

(** X8: [text_file_cleanup] of src/src/SpiderUtilLib/SpiderUtilLib.py, on a
    file whose lines decode and whose literal replacements of a non-empty
    [search_for] encode, returns [True] and leaves the file rewritten with
    the replaced lines; [file + '.origin'] holds the original bytes when
    [preserve_original_file] is set and does not exist otherwise. *)
Theorem text_file_cleanup_literal
        (re : re_module) (fs : filesystem) (file : string)
        (c : ascii) (pattern replace_as : str) (encoding : codec)
        (auto_replace_nbsp preserve_original_file : bool)
        (content : bytes) (lines : list str) (datas : list bytes) :
  fs file = Some content ->
  text_lines {| Py.encoding := encoding; buffer := content |} = (lines, None) ->
  Forall2 (fun line data =>
             encode encoding (replace line (c :: pattern) replace_as) = ok data)
          lines datas ->
  exists fs_after,
    FileUtils_cleanup.text_file_cleanup re (c :: pattern) replace_as encoding
      false auto_replace_nbsp fs file preserve_original_file
    = (true, fs_after, []) /\
    fs_after file = Some (concat datas) /\
    fs_after (file ++ ".origin")%string
    = (if preserve_original_file then Some content else None).
Proof.
  intros Hfile Hlines Hdatas.
  unfold FileUtils_cleanup.text_file_cleanup.
  rewrite Hfile, Hlines. cbn [fst snd].
  rewrite (cleanup3_loop_literal _ _ _ _ _ _ _ _ [] Hdatas). cbn [app].
  destruct (origin_differs file) as [H1 H2].
  destruct preserve_original_file; cbn [negb]; eexists;
    (split; [reflexivity|]); unfold fs_write, fs_remove;
    rewrite ?String.eqb_refl, ?H1, ?H2, ?String.eqb_refl; split; reflexivity.
Qed.

Lemma text_file_cleanup_literal_witness :
  exists fs_after,
    FileUtils_cleanup.text_file_cleanup Re.engine (u "cat") (u "dog") ascii_codec
      false true pets "pets.txt" false = (true, fs_after, []) /\
    fs_after "pets.txt"%string
    = Some (b "one" ++ [LF] ++ b "a dog" ++ [LF] ++ b "three" ++ [LF]
            ++ b "dog nap" ++ [LF] ++ b "five" ++ [LF]) /\
    fs_after "pets.txt.origin"%string = None.
Proof.
  exact (text_file_cleanup_literal
           Re.engine pets "pets.txt" "c"%char (u "at") (u "dog") ascii_codec
           true false
           (b "one" ++ [LF] ++ b "a cat" ++ [LF] ++ b "three" ++ [LF]
            ++ b "cat nap" ++ [LF] ++ b "five" ++ [LF])
           [u "one" ++ nl; u "a cat" ++ nl; u "three" ++ nl;
            u "cat nap" ++ nl; u "five" ++ nl]
           [b "one" ++ [LF]; b "a dog" ++ [LF]; b "three" ++ [LF];
            b "dog nap" ++ [LF]; b "five" ++ [LF]]
           eq_refl eq_refl ltac:(repeat constructor)).
Defined.

(** X9: with an empty [search_for], [text_file_cleanup] of SpiderUtilLib.py
    touches nothing when [auto_replace_nbsp] is off; when it is on, the pass
    runs and writes nothing, so that every file that exists is left empty,
    and with [preserve_original_file=False] a file whose lines decode is
    emptied by a call that returns [True] and keeps no copy. *)
Theorem text_file_cleanup_empty_pattern
        (re : re_module) (fs : filesystem) (file : string) (replace_as : str)
        (encoding : codec) (search_using_regex preserve_original_file : bool)
        (content : bytes) (lines : list str) :
  fs file = Some content ->
  text_lines {| Py.encoding := encoding; buffer := content |} = (lines, None) ->
  FileUtils_cleanup.text_file_cleanup re [] replace_as encoding
    search_using_regex false fs file preserve_original_file = (true, fs, []) /\
  snd (fst (FileUtils_cleanup.text_file_cleanup re [] replace_as encoding
              search_using_regex true fs file preserve_original_file)) file
  = Some [] /\
  exists fs_after,
    FileUtils_cleanup.text_file_cleanup re [] replace_as encoding
      search_using_regex true fs file false = (true, fs_after, []) /\
    fs_after file = Some [] /\
    fs_after (file ++ ".origin")%string = None.
Proof.
  intros Hfile Hlines. split; [reflexivity|].
  unfold FileUtils_cleanup.text_file_cleanup.
  rewrite Hfile, Hlines. cbn [fst snd]. rewrite cleanup3_loop_empty.
  destruct (origin_differs file) as [H1 H2].
  split.
  - destruct preserve_original_file; cbn [negb fst snd];
      unfold fs_write, fs_remove; now rewrite ?String.eqb_refl, ?H1, ?H2.
  - cbn [negb]. eexists. split; [reflexivity|].
    unfold fs_write, fs_remove.
    rewrite ?String.eqb_refl, ?H1, ?H2, ?String.eqb_refl. split; reflexivity.
Qed.

Lemma text_file_cleanup_empty_pattern_witness :
  exists fs_after,
    FileUtils_cleanup.text_file_cleanup Re.engine [] [] ascii_codec
      false true pets "pets.txt" false = (true, fs_after, []) /\
    fs_after "pets.txt"%string = Some [] /\
    fs_after "pets.txt.origin"%string = None.
Proof.
  exact (proj2 (proj2 (text_file_cleanup_empty_pattern
                         Re.engine pets "pets.txt" [] ascii_codec false false
                         (b "one" ++ [LF] ++ b "a cat" ++ [LF] ++ b "three" ++ [LF]
                          ++ b "cat nap" ++ [LF] ++ b "five" ++ [LF])
                         [u "one" ++ nl; u "a cat" ++ nl; u "three" ++ nl;
                          u "cat nap" ++ nl; u "five" ++ nl]
                         eq_refl eq_refl))).
Defined.

(* ===================================================================== *)
(** ** Properties of the base64 codec                                      *)
(* ===================================================================== *)

Import WebUtils Base64.

(** The eight digits of a byte, and the value they are read back as. *)
Lemma byte_digits_shape (c : byte) :
  exists b7 b6 b5 b4 b3 b2 b1 b0,
    byte_digits c = [b7; b6; b5; b4; b3; b2; b1; b0] /\
    value_of 0%N [b7; b6; b5; b4; b3; b2; b1; b0] = Byte.to_N c.
Proof. destruct c; do 8 eexists; split; reflexivity. Qed.

Lemma not_nul_value (c : byte) : negb (Byte.to_N c =? 0)%N = not_nul c.
Proof. destruct c; reflexivity. Qed.

Lemma BASE64MAP_cases name M :
  BASE64MAP_dict name = Some M ->
  (name = "default"%string \/ name = "RFC3501"%string \/ name = "RFC4648"%string).
Proof.
  unfold BASE64MAP_dict.
  destruct (String.eqb_spec name "default"); [auto|].
  destruct (String.eqb_spec name "RFC3501"); [auto|].
  destruct (String.eqb_spec name "RFC4648"); [auto|discriminate].
Qed.

(** Six digits go to a character of the tuple and come back. *)
Lemma sextet_round_trip name M b5 b4 b3 b2 b1 b0 :
  BASE64MAP_dict name = Some M ->
  encode_character M name [false; false; b5; b4; b3; b2; b1; b0]
  = ok [sextet_char M [b5; b4; b3; b2; b1; b0]] /\
  decode_character M (sextet_char M [b5; b4; b3; b2; b1; b0])
  = ok [b5; b4; b3; b2; b1; b0].
Proof.
  intros HM. destruct (BASE64MAP_cases _ _ HM) as [-> | [-> | ->]];
    injection HM as <-;
    destruct b5, b4, b3, b2, b1, b0; split; reflexivity.
Qed.

Lemma padding_pieces name M :
  BASE64MAP_dict name = Some M ->
  (forall b3 b2 b1 b0,
      encode_character M name [false; false; b3; b2; b1; b0]
      = ok [sextet_char M [b3; b2; b1; b0; false; false]]) /\
  (forall b1 b0,
      encode_character M name [false; false; b1; b0]
      = ok [sextet_char M [b1; b0; false; false; false; false]]) /\
  encode_character M name [false; false]
  = ok (if String.eqb name "RFC3501" then [] else ["="%char]) /\
  decode_character M "=" = ok (repeat false 6).
Proof.
  intros HM. destruct (BASE64MAP_cases _ _ HM) as [-> | [-> | ->]];
    injection HM as <-;
    (split; [intros [] [] [] []; reflexivity|]);
    (split; [intros [] []; reflexivity|]); split; reflexivity.
Qed.

(** A character that stands for six digits is in the tuple, and is not the
    padding character. *)
Lemma sextet_char_plain name M b5 b4 b3 b2 b1 b0 :
  BASE64MAP_dict name = Some M ->
  In (sextet_char M [b5; b4; b3; b2; b1; b0]) M /\
  sextet_char M [b5; b4; b3; b2; b1; b0] <> "="%char.
Proof.
  intros HM. destruct (BASE64MAP_cases _ _ HM) as [-> | [-> | ->]];
    injection HM as <-;
    destruct b5, b4, b3, b2, b1, b0;
    (split; [vm_compute; tauto|vm_compute; discriminate]).
Qed.

Lemma padding_in_map name M : BASE64MAP_dict name = Some M -> In "="%char M.
Proof.
  intros HM. destruct (BASE64MAP_cases _ _ HM) as [-> | [-> | ->]];
    injection HM as <-; vm_compute; tauto.
Qed.

Lemma chunks_from_enough {A} n : forall fuel fuel' (s : list A),
  (length s <= fuel)%nat -> (length s <= fuel')%nat ->
  chunks_from fuel (S n) s = chunks_from fuel' (S n) s.
Proof.
  induction fuel as [|fuel IH]; intros fuel' s H H'.
  - destruct s; [now destruct fuel'|simpl in H; lia].
  - destruct s as [|x s]; [now destruct fuel'|].
    destruct fuel' as [|fuel']; [simpl in H'; lia|].
    cbn [chunks_from]. f_equal. apply IH.
    + rewrite length_skipn. simpl in *. lia.
    + rewrite length_skipn. simpl in *. lia.
Qed.

Lemma chunks_app {A} n (piece rest : list A) :
  length piece = S n ->
  chunks (S n) (piece ++ rest) = piece :: chunks (S n) rest.
Proof.
  intros Hlen. unfold chunks.
  destruct piece as [|x piece]; [discriminate|].
  cbn [app length chunks_from].
  change (x :: piece ++ rest) with ((x :: piece) ++ rest).
  rewrite firstn_app, skipn_app, Hlen, Nat.sub_diag, firstn_O, skipn_O.
  rewrite firstn_all2, skipn_all2, app_nil_r by lia. cbn [app].
  f_equal. apply chunks_from_enough; [|lia].
  rewrite length_app. simpl in Hlen. lia.
Qed.

Lemma chunks_short {A} n (piece : list A) :
  piece <> [] -> (length piece <= S n)%nat -> chunks (S n) piece = [piece].
Proof.
  intros Hne Hlen. unfold chunks. destruct piece as [|x piece]; [congruence|].
  cbn [length chunks_from]. rewrite firstn_all2, skipn_all2 by exact Hlen.
  now destruct (length piece).
Qed.

Lemma traverse_app {A B} (f : A -> result B) (l1 l2 : list A) :
  traverse f (l1 ++ l2) =
  bind (traverse f l1) (fun v1 => bind (traverse f l2) (fun v2 => ok (v1 ++ v2))).
Proof.
  induction l1 as [|a l1 IH]; simpl.
  - destruct (traverse f l2); reflexivity.
  - destruct (f a); [reflexivity|]. simpl. rewrite IH.
    destruct (traverse f l1); [reflexivity|]. simpl.
    destruct (traverse f l2); reflexivity.
Qed.

Lemma list_ind3 {A} (P : list A -> Prop) :
  P [] -> (forall a, P [a]) -> (forall a b, P [a; b]) ->
  (forall a b c l, P l -> P (a :: b :: c :: l)) ->
  forall l, P l.
Proof.
  intros H0 H1 H2 H3 l.
  enough (P l /\ (forall a, P (a :: l)) /\ (forall a b, P (a :: b :: l))) by tauto.
  induction l as [|x l (IHa & IHb & IHc)]; repeat split; auto.
Qed.


(** Eight digits that are the value of a byte decode to that byte, unless
    it is zero. *)
Lemma decode_octet (c : byte) :
  (if (Byte.to_N c =? 0)%N then ok []
   else bind (to_bytes (Byte.to_N c)) (fun c' => ok [c']))
  = ok (map (fun c' => [c']) (filter not_nul [c])).
Proof. destruct c; reflexivity. Qed.

Lemma decode_block_values x7 x6 x5 x4 x3 x2 x1 x0 y7 y6 y5 y4 y3 y2 y1 y0
      z7 z6 z5 z4 z3 z2 z1 z0 (a b c : byte) :
  value_of 0%N [x7; x6; x5; x4; x3; x2; x1; x0] = Byte.to_N a ->
  value_of 0%N [y7; y6; y5; y4; y3; y2; y1; y0] = Byte.to_N b ->
  value_of 0%N [z7; z6; z5; z4; z3; z2; z1; z0] = Byte.to_N c ->
  decode_block [x7; x6; x5; x4; x3; x2; x1; x0; y7; y6; y5; y4; y3; y2; y1; y0;
                z7; z6; z5; z4; z3; z2; z1; z0]
  = ok (map (fun c' => [c']) (filter not_nul [a; b; c])).
Proof.
  intros Ha Hb Hc. unfold decode_block.
  cbn [traverse slice Nat.add Nat.sub firstn skipn int2].
  rewrite Ha, Hb, Hc. cbn [bind ok].
  rewrite (decode_octet a), (decode_octet b), (decode_octet c).
  cbn [bind ok concat app filter map].
  destruct (not_nul a), (not_nul b), (not_nul c); reflexivity.
Qed.

(** The text of a block, before the padding characters are dropped for
    RFC3501. *)
Lemma encode_block3 name M (a b c : byte) :
  BASE64MAP_dict name = Some M ->
  exists c1 c2 c3 c4,
    traverse (encode_character M name) (block_pieces [a; b; c])
    = ok [[c1]; [c2]; [c3]; [c4]] /\
    Forall (fun x => In x M /\ x <> "="%char) [c1; c2; c3; c4] /\
    decode_four M [c1; c2; c3; c4]
    = ok (map (fun c' => [c']) (filter not_nul [a; b; c])).
Proof.
  intros HM.
  destruct (byte_digits_shape a) as (a7 & a6 & a5 & a4 & a3 & a2 & a1 & a0 & Ha & Va).
  destruct (byte_digits_shape b) as (b7 & b6 & b5 & b4 & b3 & b2 & b1 & b0 & Hb & Vb).
  destruct (byte_digits_shape c) as (c7 & c6 & c5 & c4 & c3 & c2 & c1 & c0 & Hc & Vc).
  unfold block_pieces. cbn [map concat]. rewrite Ha, Hb, Hc.
  cbn [app slice Nat.add Nat.sub firstn skipn map traverse].
  do 4 eexists. split; [|split].
  - rewrite !(proj1 (sextet_round_trip name M _ _ _ _ _ _ HM)). reflexivity.
  - repeat constructor; eapply sextet_char_plain; eassumption.
  - unfold decode_four. cbn [traverse].
    rewrite !(proj2 (sextet_round_trip name M _ _ _ _ _ _ HM)).
    cbn [bind ok concat app]. now apply decode_block_values.
Qed.

Lemma encode_block2 name M (a b : byte) :
  BASE64MAP_dict name = Some M ->
  exists c1 c2 c3,
    traverse (encode_character M name) (block_pieces [a; b])
    = ok [[c1]; [c2]; [c3]; if String.eqb name "RFC3501" then [] else ["="%char]] /\
    Forall (fun x => In x M /\ x <> "="%char) [c1; c2; c3] /\
    decode_four M [c1; c2; c3; "="%char]
    = ok (map (fun c' => [c']) (filter not_nul [a; b])).
Proof.
  intros HM.
  destruct (byte_digits_shape a) as (a7 & a6 & a5 & a4 & a3 & a2 & a1 & a0 & Ha & Va).
  destruct (byte_digits_shape b) as (b7 & b6 & b5 & b4 & b3 & b2 & b1 & b0 & Hb & Vb).
  destruct (padding_pieces name M HM) as (Hp6 & Hp4 & Hp2 & Hpad).
  unfold block_pieces. cbn [map concat]. rewrite Ha, Hb.
  cbn [app slice Nat.add Nat.sub firstn skipn map traverse].
  do 3 eexists. split; [|split].
  - rewrite !(proj1 (sextet_round_trip name M _ _ _ _ _ _ HM)), Hp6, Hp2.
    reflexivity.
  - repeat constructor; eapply sextet_char_plain; eassumption.
  - unfold decode_four. cbn [traverse].
    rewrite !(proj2 (sextet_round_trip name M _ _ _ _ _ _ HM)), Hpad.
    cbn [bind ok concat app repeat].
    etransitivity;
      [apply (decode_block_values _ _ _ _ _ _ _ _ _ _ _ _ _ _ _ _ _ _ _ _ _ _ _ _
                a b x00); [exact Va|exact Vb|reflexivity]|].
    cbn [filter]. destruct (not_nul a), (not_nul b); reflexivity.
Qed.

Lemma encode_block1 name M (a : byte) :
  BASE64MAP_dict name = Some M ->
  exists c1 c2,
    traverse (encode_character M name) (block_pieces [a])
    = ok [[c1]; [c2]; if String.eqb name "RFC3501" then [] else ["="%char];
          if String.eqb name "RFC3501" then [] else ["="%char]] /\
    Forall (fun x => In x M /\ x <> "="%char) [c1; c2] /\
    decode_four M [c1; c2; "="%char; "="%char]
    = ok (map (fun c' => [c']) (filter not_nul [a])).
Proof.
  intros HM.
  destruct (byte_digits_shape a) as (a7 & a6 & a5 & a4 & a3 & a2 & a1 & a0 & Ha & Va).
  destruct (padding_pieces name M HM) as (Hp6 & Hp4 & Hp2 & Hpad).
  unfold block_pieces. cbn [map concat]. rewrite Ha.
  cbn [app slice Nat.add Nat.sub firstn skipn map traverse].
  do 2 eexists. split; [|split].
  - rewrite !(proj1 (sextet_round_trip name M _ _ _ _ _ _ HM)), Hp4, Hp2.
    reflexivity.
  - repeat constructor; eapply sextet_char_plain; eassumption.
  - unfold decode_four. cbn [traverse].
    rewrite !(proj2 (sextet_round_trip name M _ _ _ _ _ _ HM)), Hpad.
    cbn [bind ok concat app repeat].
    etransitivity;
      [apply (decode_block_values _ _ _ _ _ _ _ _ _ _ _ _ _ _ _ _ _ _ _ _ _ _ _ _
                a x00 x00); [exact Va|reflexivity|reflexivity]|].
    cbn [filter]. destruct (not_nul a); reflexivity.
Qed.

Lemma base64_encoder_bytes (data : bytes) (encoding : codec) name :
  base64_encoder (inr data) encoding name
  = match BASE64MAP_dict name with
    | None => raise ValueError
    | Some M =>
        bind (traverse (encode_character M name)
                       (concat (map block_pieces (chunks 3 data))))
             (fun appended => ok (concat appended))
    end.
Proof.
  unfold base64_encoder. destruct (BASE64MAP_dict name); [|reflexivity].
  cbn [bind ok]. now rewrite map_map.
Qed.

Lemma base64_decoder_str (s : str) (as_str : bool) (encoding : codec) name :
  base64_decoder (inl s) as_str encoding name
  = match BASE64MAP_dict name with
    | None => raise ValueError
    | Some M =>
        bind (traverse (decode_four M) (chunks 4 (prepared name s)))
             (fun blocks =>
                if as_str
                then bind (decode encoding (concat (concat blocks)))
                          (fun s' => ok (inl s'))
                else ok (inr (concat (concat blocks))))
    end.
Proof.
  unfold base64_decoder, prepared. destruct (BASE64MAP_dict name); [|reflexivity].
  destruct (_ || _); reflexivity.
Qed.

Lemma pad_to_four_app {A} (pad : A) (four s : list A) : forall turns,
  length four = 4%nat ->
  pad_to_four turns pad (four ++ s) = four ++ pad_to_four turns pad s.
Proof.
  intros turns Hlen. revert s.
  induction turns as [|turns IH]; intros s; cbn [pad_to_four];
    rewrite length_app, Hlen;
    replace ((4 + length s) mod 4)%nat with (length s mod 4)%nat
      by (rewrite Nat.add_comm; change 4%nat with (1 * 4)%nat at 2;
          now rewrite Nat.Div0.mod_add);
    destruct (length s mod 4 =? 0)%nat; try reflexivity.
  now rewrite <- app_assoc, IH.
Qed.

Lemma concat_singletons {A} (l : list A) : concat (map (fun x => [x]) l) = l.
Proof. induction l as [|x l IH]; [reflexivity|]. simpl. now rewrite IH. Qed.

Lemma not_RFC3501 name M :
  BASE64MAP_dict name = Some M ->
  (name =? "RFC3501")%string = false ->
  name = "default"%string \/ name = "RFC4648"%string.
Proof.
  intros HM Hneq. destruct (BASE64MAP_cases _ _ HM) as [-> | [-> | ->]]; auto.
  discriminate.
Qed.

(** What the encoder makes of [data], and what the decoder makes of
    that. *)
Lemma encode_then_decode name M (data : bytes) :
  BASE64MAP_dict name = Some M ->
  exists appended blocks,
    traverse (encode_character M name) (concat (map block_pieces (chunks 3 data)))
    = ok appended /\
    Forall (fun c => In c M) (concat appended) /\
    (if String.eqb name "RFC3501"
     then ~ In "="%char (concat appended) /\
          length (concat appended) = ((4 * length data + 2) / 3)%nat
     else length (concat appended) = (4 * ((length data + 2) / 3))%nat) /\
    traverse (decode_four M) (chunks 4 (prepared name (concat appended)))
    = ok blocks /\
    concat (concat blocks) = filter not_nul data.
Proof.
  intros HM. pose proof (padding_in_map _ _ HM) as Hpad.
  induction data as [|a|a b|a b c data IH] using list_ind3.
  - exists [], []. repeat split; try constructor.
    + destruct (name =? "RFC3501")%string; [split; [intros []|]|]; reflexivity.
    + unfold prepared. destruct (_ || _); reflexivity.
  - destruct (encode_block1 name M a HM) as (c1 & c2 & He & Hin & Hd).
    rewrite (chunks_short 2) by (simpl; (discriminate || lia)).
    cbn [map concat]. rewrite app_nil_r, He.
    eexists _, [_]. split; [reflexivity|].
    inversion Hin as [|? ? [I1 N1] Hin']; subst.
    inversion Hin' as [|? ? [I2 N2] _]; subst.
    assert (Hprep : prepared name
              (concat [[c1]; [c2]; if (name =? "RFC3501")%string then [] else ["="%char];
                       if (name =? "RFC3501")%string then [] else ["="%char]])
              = [c1; c2; "="%char; "="%char]).
    { destruct (BASE64MAP_cases _ _ HM) as [-> | [-> | ->]]; reflexivity. }
    rewrite Hprep. split; [|split; [|split]].
    + destruct (name =? "RFC3501")%string; repeat constructor; assumption.
    + destruct (name =? "RFC3501")%string; [split; [|reflexivity]|reflexivity].
      cbn. intros [H|[H|[]]]; congruence.
    + change (chunks 4 [c1; c2; "="%char; "="%char])
        with [[c1; c2; "="%char; "="%char]].
      cbn [traverse]. rewrite Hd. reflexivity.
    + cbn [concat]. now rewrite app_nil_r, concat_singletons.
  - destruct (encode_block2 name M a b HM) as (c1 & c2 & c3 & He & Hin & Hd).
    rewrite (chunks_short 2) by (simpl; (discriminate || lia)).
    cbn [map concat]. rewrite app_nil_r, He.
    eexists _, [_]. split; [reflexivity|].
    inversion Hin as [|? ? [I1 N1] Hin']; subst.
    inversion Hin' as [|? ? [I2 N2] Hin'']; subst.
    inversion Hin'' as [|? ? [I3 N3] _]; subst.
    assert (Hprep : prepared name
              (concat [[c1]; [c2]; [c3];
                       if (name =? "RFC3501")%string then [] else ["="%char]])
              = [c1; c2; c3; "="%char]).
    { destruct (BASE64MAP_cases _ _ HM) as [-> | [-> | ->]]; reflexivity. }
    rewrite Hprep. split; [|split; [|split]].
    + destruct (name =? "RFC3501")%string; repeat constructor; assumption.
    + destruct (name =? "RFC3501")%string; [split; [|reflexivity]|reflexivity].
      cbn. intros [H|[H|[H|[]]]]; congruence.
    + change (chunks 4 [c1; c2; c3; "="%char]) with [[c1; c2; c3; "="%char]].
      cbn [traverse]. rewrite Hd. reflexivity.
    + cbn [concat]. now rewrite app_nil_r, concat_singletons.
  - destruct IH as (appended & blocks & He & Hin & Hlen & Hd & Hback).
    destruct (encode_block3 name M a b c HM) as (c1 & c2 & c3 & c4 & He3 & Hin3 & Hd3).
    change (a :: b :: c :: data) with ([a; b; c] ++ data).
    rewrite (chunks_app 2) by reflexivity.
    cbn [map concat]. rewrite traverse_app, He3, He. cbn [bind ok].
    eexists _, (_ :: blocks). split; [reflexivity|].
    change (concat ([[c1]; [c2]; [c3]; [c4]] ++ appended))
      with ([c1; c2; c3; c4] ++ concat appended).
    split; [|split; [|split]].
    + apply Forall_app. split; [|exact Hin].
      eapply Forall_impl; [|exact Hin3]. now intros x [H _].
    + rewrite !length_app.
      change (length [a; b; c] + length data)%nat with (3 + length data)%nat.
      change (length [c1; c2; c3; c4]) with 4%nat.
      destruct (name =? "RFC3501")%string.
      * destruct Hlen as [Hno Hlen]. split.
        -- intros Hx. apply in_app_or in Hx as [Hx|Hx]; [|now apply Hno].
           rewrite Forall_forall in Hin3. now apply (proj2 (Hin3 _ Hx)).
        -- rewrite Hlen.
           replace (4 * (3 + length data) + 2)%nat
             with ((4 * length data + 2) + 4 * 3)%nat by lia.
           rewrite Nat.div_add by discriminate. lia.
      * rewrite Hlen.
        replace (3 + length data + 2)%nat with ((length data + 2) + 1 * 3)%nat by lia.
        rewrite Nat.div_add by discriminate. lia.
    + assert (Hprep : prepared name ([c1; c2; c3; c4] ++ concat appended)
                      = [c1; c2; c3; c4] ++ prepared name (concat appended)).
      { unfold prepared. destruct (_ || _); [|reflexivity].
        now apply pad_to_four_app. }
      rewrite Hprep, (chunks_app 3) by reflexivity.
      cbn [traverse]. rewrite Hd3, Hd. reflexivity.
    + cbn [concat]. now rewrite concat_app, concat_singletons, Hback, filter_app.
Qed.

Lemma map_names_bound name :
  In name map_names -> exists M, BASE64MAP_dict name = Some M.
Proof.
  intros [<- | [<- | [<- | []]]]; eexists; reflexivity.
Qed.

Lemma filter_not_nul (data : bytes) :
  ~ In x00 data -> filter not_nul data = data.
Proof.
  induction data as [|c data IH]; intros Hno; [reflexivity|].
  cbn [filter]. unfold not_nul at 1.
  destruct (Byte.eqb c x00) eqn:Hc.
  - apply Byte.byte_dec_bl in Hc. subst c. exfalso. apply Hno. now left.
  - cbn [negb]. rewrite IH; [reflexivity|]. intros Hin. apply Hno. now right.
Qed.

(** X10 (base64_encoder, base64_decoder): under each of the three maps,
    the text that [base64_encoder] makes of a byte string is decoded by
    [base64_decoder] (asked for bytes) to the bytes of that string that
    are not [b'\x00'], in their order: a zero byte is lost, and a string
    without one comes back as it was. *)
Theorem base64_round_trip (data : bytes) (encoding : codec) (name : string) :
  In name map_names ->
  exists encoded,
    base64_encoder (inr data) encoding name = ok encoded /\
    base64_decoder (inl encoded) false encoding name
    = ok (inr (filter not_nul data)) /\
    (~ In x00 data ->
     base64_decoder (inl encoded) false encoding name = ok (inr data)).
Proof.
  intros Hname. destruct (map_names_bound _ Hname) as (M & HM).
  destruct (encode_then_decode name M data HM)
    as (appended & blocks & He & _ & _ & Hd & Hback).
  exists (concat appended).
  assert (Hdec : base64_decoder (inl (concat appended)) false encoding name
                 = ok (inr (filter not_nul data))).
  { rewrite base64_decoder_str, HM, Hd. cbn [bind ok]. now rewrite Hback. }
  split; [|split].
  - rewrite base64_encoder_bytes, HM, He. reflexivity.
  - exact Hdec.
  - intros Hno. etransitivity; [exact Hdec|]. now rewrite filter_not_nul.
Qed.

Lemma base64_round_trip_witness :
  In "RFC3501"%string map_names /\
  exists encoded,
    base64_encoder (inr (b "A" ++ [x00] ++ b "B")) ascii_codec "RFC3501" = ok encoded /\
    base64_decoder (inl encoded) false ascii_codec "RFC3501" = ok (inr (b "AB")).
Proof.
  assert (H : In "RFC3501"%string map_names) by (simpl; tauto).
  split; [exact H|].
  destruct (base64_round_trip (b "A" ++ [x00] ++ b "B") ascii_codec "RFC3501" H)
    as (encoded & He & Hd & _).
  exists encoded. split; [exact He|exact Hd].
Defined.

(** X11 (base64_encoder, base64_decoder): a [str] whose bytes under the
    encoding hold no zero byte and decode back to it is returned by
    [base64_decoder] (asked for [str]) from the text that [base64_encoder]
    makes of it, under each of the three maps. *)
Theorem base64_round_trip_str (s : str) (raw : bytes) (encoding : codec)
        (name : string) :
  In name map_names ->
  encode encoding s = ok raw ->
  ~ In x00 raw ->
  decode encoding raw = ok s ->
  exists encoded,
    base64_encoder (inl s) encoding name = ok encoded /\
    base64_decoder (inl encoded) true encoding name = ok (inl s).
Proof.
  intros Hname Hraw Hno Hs. destruct (map_names_bound _ Hname) as (M & HM).
  destruct (encode_then_decode name M raw HM)
    as (appended & blocks & He & _ & _ & Hd & Hback).
  exists (concat appended). split.
  - pose proof (base64_encoder_bytes raw encoding name) as Hb.
    rewrite HM, He in Hb. unfold base64_encoder in *. rewrite HM in *.
    rewrite Hraw. exact Hb.
  - rewrite base64_decoder_str, HM, Hd. cbn [bind ok].
    now rewrite Hback, filter_not_nul, Hs.
Qed.

Lemma base64_round_trip_str_witness :
  exists encoded,
    base64_encoder (inl (u "Man")) ascii_codec "default" = ok encoded /\
    base64_decoder (inl encoded) true ascii_codec "default" = ok (inl (u "Man")).
Proof.
  apply (base64_round_trip_str (u "Man") (b "Man") ascii_codec "default").
  - simpl. tauto.
  - reflexivity.
  - simpl. intros [H|[H|[H|[]]]]; discriminate.
  - reflexivity.
Defined.

(** X12 (base64_encoder): for a byte string and a map that
    [BASE64MAP_dict] holds, [base64_encoder] returns a text of characters
    of that map; under RFC3501 the text holds no [=] and has
    ceil(4 * len / 3) characters, under the two other maps it has four
    characters for every three bytes begun. *)
Theorem base64_encoder_shape (data : bytes) (encoding : codec) (name : string)
        (BASE64MAP : str) :
  BASE64MAP_dict name = Some BASE64MAP ->
  exists encoded,
    base64_encoder (inr data) encoding name = ok encoded /\
    Forall (fun c => In c BASE64MAP) encoded /\
    (name = "RFC3501"%string ->
     ~ In "="%char encoded /\ length encoded = ((4 * length data + 2) / 3)%nat) /\
    (name <> "RFC3501"%string ->
     length encoded = (4 * ((length data + 2) / 3))%nat).
Proof.
  intros HM.
  destruct (encode_then_decode name BASE64MAP data HM)
    as (appended & blocks & He & Hin & Hlen & _ & _).
  exists (concat appended). split; [|split; [exact Hin|]].
  - rewrite base64_encoder_bytes, HM, He. reflexivity.
  - destruct (String.eqb_spec name "RFC3501") as [Heq|Hneq].
    + split; [intros _; exact Hlen|]. intros Hne. now elim Hne.
    + split; [intros Heq; now elim Hneq|]. intros _. exact Hlen.
Qed.

Lemma base64_encoder_shape_witness :
  exists encoded,
    base64_encoder (inr (b "Ma")) ascii_codec "RFC3501" = ok encoded /\
    ~ In "="%char encoded /\ length encoded = 3%nat.
Proof.
  destruct (base64_encoder_shape (b "Ma") ascii_codec "RFC3501" _ eq_refl)
    as (encoded & He & _ & H & _).
  exists encoded. split; [exact He|]. exact (H eq_refl).
Defined.

(** [to_bytes] takes the value of any eight digits. *)
Lemma to_bytes_total (s : bits) :
  (length s <= 8)%nat -> exists c, to_bytes (value_of 0%N s) = ok [c].
Proof.
  intros Hlen.
  do 9 (destruct s as [|[] s]; [eexists; reflexivity| |]);
    simpl in Hlen; lia.
Qed.

Lemma traverse_fails {A B} (f : A -> result B) (l : list A) (x : A) :
  In x l -> (exists e, f x = raise e) -> exists e, traverse f l = raise e.
Proof.
  intros Hin (e & He). induction l as [|a l IH]; [contradiction|].
  cbn [traverse]. destruct Hin as [->|Hin].
  - rewrite He. now exists e.
  - destruct (f a) as [e'|v]; [now exists e'|]. cbn [bind].
    destruct (IH Hin) as (e'' & ->). now exists e''.
Qed.

Lemma traverse_error {A B} (f : A -> result B) (l : list A) (X e : exn) :
  (forall a e', f a = raise e' -> e' = X) ->
  traverse f l = raise e -> e = X.
Proof.
  intros Hf. revert e. induction l as [|a l IH]; intros e; [discriminate|].
  cbn [traverse]. destruct (f a) as [e'|v] eqn:Ha.
  - intros [= <-]. now apply (Hf a).
  - cbn [bind]. destruct (traverse f l) as [e'|vs]; [|discriminate].
    intros [= <-]. now apply IH.
Qed.

(** Only [ValueError] comes out of the decoding of a piece. *)
Lemma decode_four_error M four e :
  decode_four M four = raise e -> e = ValueError.
Proof.
  unfold decode_four.
  destruct (traverse (decode_character M) four) as [e'|pieces] eqn:Hp.
  - intros [= <-]. eapply traverse_error; [|exact Hp].
    intros a e0. unfold decode_character, tuple_index.
    destruct (index_from 0 a M); [discriminate|]. now intros [= <-].
  - cbn [bind]. unfold decode_block.
    match goal with
    | |- context [traverse ?f [0; 8; 16]%nat] =>
        destruct (traverse f [0; 8; 16]%nat) as [e'|kept] eqn:Hk
    end; [|discriminate].
    intros [= <-]. eapply traverse_error; [|exact Hk].
    intros a e0. cbn beta.
    destruct (slice (concat pieces) a (a + 8)) as [|d s]; [now intros [= <-]|].
    cbn [int2 bind ok]. destruct (_ =? _)%N; [discriminate|].
    unfold to_bytes. destruct (Byte.of_N _); [discriminate|]. now intros [= <-].
Qed.

(** The digits of a character are six. *)
Lemma decode_character_length M c p :
  decode_character M c = ok p -> length p = 6%nat.
Proof.
  unfold decode_character, tuple_index.
  destruct (index_from 0 c M) as [i|]; [|discriminate].
  intros [= <-]. unfold last_n, zfill.
  rewrite length_skipn, !length_app, repeat_length. lia.
Qed.

(** A piece of one or two characters is not decoded. *)
Lemma decode_four_short M four :
  (length four = 1 \/ length four = 2)%nat ->
  exists e, decode_four M four = raise e.
Proof.
  intros Hlen. unfold decode_four.
  destruct (traverse (decode_character M) four) as [e|pieces] eqn:Hp;
    [now exists e|].
  cbn [bind].
  assert (Hshort : (length (concat pieces) <= 16)%nat).
  { destruct four as [|c1 [|c2 [|c3 four]]]; simpl in Hlen; try lia.
    - cbn [traverse] in Hp.
      destruct (decode_character M c1) as [|p1] eqn:H1; [discriminate|].
      injection Hp as <-. apply decode_character_length in H1.
      cbn [concat]. rewrite length_app, H1. simpl. lia.
    - cbn [traverse] in Hp.
      destruct (decode_character M c1) as [|p1] eqn:H1; [discriminate|].
      destruct (decode_character M c2) as [|p2] eqn:H2; [discriminate|].
      injection Hp as <-.
      apply decode_character_length in H1. apply decode_character_length in H2.
      cbn [concat]. rewrite !length_app, H1, H2. simpl. lia. }
  unfold decode_block.
  match goal with
  | |- context [traverse ?f [0; 8; 16]%nat] =>
      destruct (traverse_fails f [0; 8; 16]%nat 16%nat) as (e & ->)
  end.
  - simpl. tauto.
  - exists ValueError. unfold slice. now rewrite skipn_all2 by exact Hshort.
  - now exists e.
Qed.

(** The last piece of a text whose length is no multiple of four. *)
Lemma chunks_last {A} (s : list A) :
  (length s mod 4 <> 0)%nat ->
  exists pieces four,
    chunks 4 s = pieces ++ [four] /\ length four = (length s mod 4)%nat.
Proof.
  remember (length s) as n eqn:Hn. revert s Hn.
  induction n as [n IH] using lt_wf_ind. intros s Hn Hmod.
  destruct (Nat.lt_ge_cases n 4) as [Hlt|Hge].
  - exists [], s. split.
    + apply (chunks_short 3); [|lia]. intros ->. now subst n.
    + rewrite Nat.mod_small by exact Hlt. now symmetry.
  - assert (Hrest : (length (skipn 4 s) = n - 4)%nat)
      by (rewrite length_skipn; lia).
    assert (Hsame : ((n - 4) mod 4 = n mod 4)%nat).
    { replace n with ((n - 4) + 1 * 4)%nat at 2 by lia.
      now rewrite Nat.Div0.mod_add. }
    destruct (IH (n - 4)%nat ltac:(lia) (skipn 4 s) (eq_sym Hrest))
      as (pieces & four & Hc & Hlen); [now rewrite Hsame|].
    exists (firstn 4 s :: pieces), four. split.
    + rewrite <- (firstn_skipn 4 s) at 1.
      rewrite (chunks_app 3) by (rewrite length_firstn; lia).
      now rewrite Hc.
    + now rewrite Hlen, Hsame.
Qed.

(** X13 (base64_decoder): under the default map, a text of 4k + 1 or
    4k + 2 characters is refused with [ValueError], whatever its
    characters: the text that RFC3501 encoding makes of one byte, of two
    characters, is not decoded without its padding. *)
Theorem base64_decoder_default_unpadded (encrypted_text : str)
        (decode_output_as_str : bool) (encoding : codec) :
  (length encrypted_text mod 4 = 1 \/ length encrypted_text mod 4 = 2)%nat ->
  base64_decoder (inl encrypted_text) decode_output_as_str encoding "default"
  = raise ValueError.
Proof.
  intros Hmod. rewrite base64_decoder_str.
  change (prepared "default" encrypted_text) with encrypted_text.
  cbv match beta iota delta [BASE64MAP_dict String.eqb Ascii.eqb Bool.eqb].
  destruct (chunks_last encrypted_text ltac:(lia)) as (pieces & four & Hc & Hlen).
  match goal with
  | |- context [traverse ?f (chunks 4 encrypted_text)] =>
      destruct (traverse_fails f (chunks 4 encrypted_text) four) as (e & He)
  end.
  - rewrite Hc. apply in_or_app. right. now left.
  - apply decode_four_short. lia.
  - rewrite He.
    now rewrite (traverse_error _ _ _ _ (decode_four_error _) He).
Qed.

Lemma base64_decoder_default_unpadded_witness :
  base64_encoder (inr (b "M")) ascii_codec "RFC3501" = ok (u "TQ") /\
  base64_decoder (inl (u "TQ")) true ascii_codec "RFC3501" = ok (inl (u "M")) /\
  base64_decoder (inl (u "TQ")) true ascii_codec "default" = raise ValueError.
Proof.
  split; [reflexivity|]. split; [reflexivity|].
  apply (base64_decoder_default_unpadded (u "TQ") true ascii_codec).
  right. reflexivity.
Defined.

(* ===================================================================== *)
(** ** Properties of base64 on files                                       *)
(* ===================================================================== *)

Import FileUtils_base64.







Lemma remove_if_exists_other (fs : filesystem) (file other : string) :
  other <> file -> remove_if_exists fs file other = fs other.
Proof.
  intros Hne. unfold remove_if_exists. destruct (fs file); [|reflexivity].
  unfold fs_remove. apply String.eqb_neq in Hne. now rewrite Hne.
Qed.


(** X16 (decode_file_use_base64): the method never returns True.  Its
    [try] block always ends with an exception, at the latest the
    [TypeError] of the text file [f_out] when it is handed the bytes read
    back from the temporary file.  When [decoded_file] is no directory the
    method returns False, [decoded_file] does not exist afterwards, also
    where it existed before, and the only other file that can have changed
    is the temporary one; when [decoded_file] is a directory the
    [os.remove] of the [except] clause raises, and the call raises. *)
Theorem decode_file_never_succeeds (utf_8 : codec) (isdir : string -> bool)
        (fs : filesystem) (encoded_file decoded_file : string)
        (encoding : codec) :
  fst (try_block utf_8 isdir fs encoded_file decoded_file encoding) <> None /\
  fst (decode_file_use_base64 utf_8 isdir fs encoded_file decoded_file encoding)
  = (if isdir decoded_file then Raises (IsADirectoryError decoded_file)
     else Returns false) /\
  (isdir decoded_file = false ->
   snd (decode_file_use_base64 utf_8 isdir fs encoded_file decoded_file encoding)
       decoded_file = None /\
   forall other,
     other <> decoded_file ->
     other <> (decoded_file ++ ".tmp")%string ->
     snd (decode_file_use_base64 utf_8 isdir fs encoded_file decoded_file
                                 encoding) other = fs other).
Proof.
  assert (Hraises :
    exists e fs',
      try_block utf_8 isdir fs encoded_file decoded_file encoding = (Some e, fs')
      /\ (forall other,
            other <> decoded_file ->
            other <> (decoded_file ++ ".tmp")%string -> fs' other = fs other)).
  { unfold try_block.
    destruct (open_rb isdir fs encoded_file) as [e|content];
      [now exists e, fs|].
    unfold open_w at 1.
    destruct (isdir (decoded_file ++ ".tmp")%string); [eexists _, fs; now split|].
    set (fs1 := fs_write fs (decoded_file ++ ".tmp")%string []).
    assert (H1 : forall other,
               other <> (decoded_file ++ ".tmp")%string -> fs1 other = fs other).
    { intros other Ht. unfold fs1, fs_write. apply String.eqb_neq in Ht.
      now rewrite Ht. }
    assert (Hstep : exists e fs', 
      (let encoded_text := read fs1 encoded_file in
          match (match encoded_text with
                 | [] => inr fs1
                 | _ :: _ =>
                     match decoded_bytes utf_8 encoded_text with
                     | inl e => inl e
                     | inr data => inr (fs_write fs1 (decoded_file ++ ".tmp")%string data)
                     end
                 end) with
          | inl e => (Some e, fs1)
          | inr fs =>
              match open_w isdir fs decoded_file with
              | inl e => (Some e, fs)
              | inr fs =>
                  match text_write encoding (inr (read fs (decoded_file ++ ".tmp")%string)) with
                  | inl e => (Some e, fs)
                  | inr written => (None, fs_write fs decoded_file written)
                  end
              end
          end) = (Some e, fs') /\
      (forall other,
            other <> decoded_file ->
            other <> (decoded_file ++ ".tmp")%string -> fs' other = fs1 other)).
    { cbv zeta.
      assert (Hlast : forall fs2,
        (forall other, other <> (decoded_file ++ ".tmp")%string ->
                       fs2 other = fs1 other) ->
        exists e fs',
          match open_w isdir fs2 decoded_file with
          | inl e => (Some e, fs2)
          | inr fs =>
              match text_write encoding
                      (inr (read fs (decoded_file ++ ".tmp")%string)) with
              | inl e => (Some e, fs)
              | inr written => (None, fs_write fs decoded_file written)
              end
          end = (Some e, fs') /\
          (forall other,
              other <> decoded_file ->
              other <> (decoded_file ++ ".tmp")%string -> fs' other = fs1 other)).
      { intros fs2 H2. unfold open_w. destruct (isdir decoded_file).
        - eexists _, fs2. split; [reflexivity|]. intros other _ Ht. now apply H2.
        - cbn [text_write]. eexists _, _. split; [reflexivity|].
          intros other Hd Ht. unfold fs_write at 1.
          apply String.eqb_neq in Hd. rewrite Hd. now apply H2. }
      destruct (read fs1 encoded_file) as [|c encoded_text].
      - apply Hlast. auto.
      - destruct (decoded_bytes utf_8 (c :: encoded_text)) as [e|data].
        + exists e, fs1. now split.
        + apply Hlast. intros other Ht. unfold fs_write at 1.
          apply String.eqb_neq in Ht. now rewrite Ht. }
    destruct Hstep as (e & fs' & Heq & Hother). exists e, fs'.
    split; [exact Heq|]. intros other Hd Ht. rewrite Hother by assumption.
    now apply H1. }
  destruct Hraises as (e & fs' & Htry & Hother).
  split; [now rewrite Htry|].
  unfold decode_file_use_base64. rewrite Htry.
  unfold path_exists, os_remove. destruct (isdir decoded_file).
  - cbn [orb fst]. split; [reflexivity|discriminate].
  - cbn [orb]. destruct (fs' decoded_file) as [content|] eqn:Hd; cbn [fst snd].
    + split; [reflexivity|]. intros _. split.
      * unfold fs_remove. now rewrite String.eqb_refl.
      * intros other Hod Hot. unfold fs_remove.
        apply String.eqb_neq in Hod as Hod'. rewrite Hod'. now apply Hother.
    + split; [reflexivity|]. intros _. split; [exact Hd|].
      intros other Hod Hot. now apply Hother.
Qed.


Lemma decode_file_never_succeeds_witness :
  let fs := fs_write (fs_write fs_empty "a.b64" (b "TWFu")) "a.txt" (b "old") in
  fst (decode_file_use_base64 ascii_codec (fun _ => false) fs
         "a.b64" "a.txt" ascii_codec) = Returns false /\
  snd (decode_file_use_base64 ascii_codec (fun _ => false) fs
         "a.b64" "a.txt" ascii_codec) "a.txt"%string = None /\
  snd (decode_file_use_base64 ascii_codec (fun _ => false) fs
         "a.b64" "a.txt" ascii_codec) "a.b64"%string = Some (b "TWFu") /\
  snd (decode_file_use_base64 ascii_codec (fun _ => false) fs
         "a.b64" "a.txt" ascii_codec) "a.txt.tmp"%string = Some (b "Man") /\
  fst (decode_file_use_base64 ascii_codec (String.eqb "out") fs
         "a.b64" "out" ascii_codec) = Raises (IsADirectoryError "out").
Proof.
  intros fs.
  destruct (decode_file_never_succeeds ascii_codec (fun _ => false) fs
              "a.b64" "a.txt" ascii_codec) as (_ & Hret & Hfiles).
  destruct (Hfiles eq_refl) as (Hgone & Hother).
  split; [exact Hret|]. split; [exact Hgone|].
  split; [rewrite Hother; [reflexivity|discriminate|discriminate]|].
  split; [reflexivity|].
  exact (proj1 (proj2 (decode_file_never_succeeds ascii_codec (String.eqb "out")
                         fs "a.b64" "out" ascii_codec))).
Defined.

(* ===================================================================== *)
(** ** Properties of File_Name_Cleanup and file_name_cleanup               *)
(* ===================================================================== *)

Import FileUtils_names.

Lemma replace_one (s : Unicode.ustr) (c d : N) :
  Unicode.replace s [c] [d] = map (fun x => if (x =? c)%N then d else x) s.
Proof.
  cbn [Unicode.replace]. induction s as [|x s IH]; [reflexivity|].
  cbn [Unicode.replace_scan Unicode.startswith length Nat.sub map].
  rewrite andb_true_r. destruct (x =? c)%N; cbn [app]; now rewrite IH.
Qed.

Ltac by_character c :=
  destruct (N.eqb_spec c 124) as [->|?]; [reflexivity|];
  destruct (N.eqb_spec c 63) as [->|?]; [reflexivity|];
  destruct (N.eqb_spec c 42) as [->|?]; [reflexivity|];
  destruct (N.eqb_spec c 47) as [->|?]; [reflexivity|];
  destruct (N.eqb_spec c 92) as [->|?]; [reflexivity|];
  destruct (N.eqb_spec c 10) as [->|?]; [reflexivity|];
  destruct (N.eqb_spec c 13) as [->|?]; [reflexivity|];
  destruct (N.eqb_spec c 58) as [->|?]; [reflexivity|];
  destruct (N.eqb_spec c 62) as [->|?]; [reflexivity|];
  destruct (N.eqb_spec c 60) as [->|?]; [reflexivity|];
  destruct (N.eqb_spec c 34) as [->|?]; [reflexivity|].

Lemma File_Name_Cleanup_map (name : Unicode.ustr) :
  File_Name_Cleanup name = map legal name.
Proof.
  unfold File_Name_Cleanup, Unicode.one. cbv zeta.
  rewrite !replace_one, !map_map. apply map_ext. intros c.
  unfold legal, quotation_mark, line_feed.
  change (N_of_ascii "|") with 124%N. change (N_of_ascii "?") with 63%N.
  change (N_of_ascii "*") with 42%N. change (N_of_ascii "/") with 47%N.
  change (N_of_ascii "\") with 92%N. change (N_of_ascii ":") with 58%N.
  change (N_of_ascii ">") with 62%N. change (N_of_ascii "<") with 60%N.
  by_character c. reflexivity.
Qed.

Lemma legal_not_illegal (c : N) : ~ In (legal c) illegal.
Proof.
  unfold legal, quotation_mark, line_feed.
  change (N_of_ascii "|") with 124%N. change (N_of_ascii "?") with 63%N.
  change (N_of_ascii "*") with 42%N. change (N_of_ascii "/") with 47%N.
  change (N_of_ascii "\") with 92%N. change (N_of_ascii ":") with 58%N.
  change (N_of_ascii ">") with 62%N. change (N_of_ascii "<") with 60%N.
  assert (Hclosed : forall x, In x illegal ->
            (x = 124 \/ x = 63 \/ x = 42 \/ x = 47 \/ x = 92 \/ x = 10 \/ x = 58
             \/ x = 62 \/ x = 60 \/ x = 34)%N).
  { intros x Hx. vm_compute in Hx. intuition congruence. }
  destruct (N.eqb_spec c 124) as [->|?]; [vm_compute; intuition discriminate|].
  destruct (N.eqb_spec c 63) as [->|?]; [vm_compute; intuition discriminate|].
  destruct (N.eqb_spec c 42) as [->|?]; [vm_compute; intuition discriminate|].
  destruct (N.eqb_spec c 47) as [->|?]; [vm_compute; intuition discriminate|].
  destruct (N.eqb_spec c 92) as [->|?]; [vm_compute; intuition discriminate|].
  destruct (N.eqb_spec c 10) as [->|?]; [vm_compute; intuition discriminate|].
  destruct (N.eqb_spec c 58) as [->|?]; [vm_compute; intuition discriminate|].
  destruct (N.eqb_spec c 62) as [->|?]; [vm_compute; intuition discriminate|].
  destruct (N.eqb_spec c 60) as [->|?]; [vm_compute; intuition discriminate|].
  destruct (N.eqb_spec c 34) as [->|?]; [vm_compute; intuition discriminate|].
  intros Hin. apply Hclosed in Hin. intuition congruence.
Qed.

Lemma legal_fixes (c : N) : ~ In c illegal -> legal c = c.
Proof.
  intros Hno. unfold legal, quotation_mark, line_feed.
  change (N_of_ascii "|") with 124%N. change (N_of_ascii "?") with 63%N.
  change (N_of_ascii "*") with 42%N. change (N_of_ascii "/") with 47%N.
  change (N_of_ascii "\") with 92%N. change (N_of_ascii ":") with 58%N.
  change (N_of_ascii ">") with 62%N. change (N_of_ascii "<") with 60%N.
  destruct (N.eqb_spec c 124) as [->|?]; [exfalso; apply Hno; vm_compute; tauto|].
  destruct (N.eqb_spec c 63) as [->|?]; [exfalso; apply Hno; vm_compute; tauto|].
  destruct (N.eqb_spec c 42) as [->|?]; [exfalso; apply Hno; vm_compute; tauto|].
  destruct (N.eqb_spec c 47) as [->|?]; [exfalso; apply Hno; vm_compute; tauto|].
  destruct (N.eqb_spec c 92) as [->|?]; [exfalso; apply Hno; vm_compute; tauto|].
  destruct (N.eqb_spec c 10) as [->|?]; [exfalso; apply Hno; vm_compute; tauto|].
  destruct (N.eqb_spec c 58) as [->|?]; [exfalso; apply Hno; vm_compute; tauto|].
  destruct (N.eqb_spec c 62) as [->|?]; [exfalso; apply Hno; vm_compute; tauto|].
  destruct (N.eqb_spec c 60) as [->|?]; [exfalso; apply Hno; vm_compute; tauto|].
  destruct (N.eqb_spec c 34) as [->|?]; [exfalso; apply Hno; vm_compute; tauto|].
  reflexivity.
Qed.

(** X17 (File_Name_Cleanup): the name returned has the length of the name
    given and none of the ten characters that the method replaces; a
    character that is not one of these ten stays where it was; and
    cleaning a cleaned name changes nothing. *)
Theorem File_Name_Cleanup_legal (name : Unicode.ustr) :
  length (File_Name_Cleanup name) = length name /\
  Forall (fun c => ~ In c (File_Name_Cleanup name)) illegal /\
  (forall i c,
      nth_error name i = Some c -> ~ In c illegal ->
      nth_error (File_Name_Cleanup name) i = Some c) /\
  File_Name_Cleanup (File_Name_Cleanup name) = File_Name_Cleanup name.
Proof.
  rewrite !File_Name_Cleanup_map. split; [apply length_map|].
  split; [|split].
  - apply Forall_forall. intros c Hc Hin. apply in_map_iff in Hin as (x & <- & _).
    now apply (legal_not_illegal x).
  - intros i c Hi Hc. rewrite nth_error_map, Hi. cbn. now rewrite legal_fixes.
  - rewrite map_map. apply map_ext. intros c. apply legal_fixes, legal_not_illegal.
Qed.

Lemma File_Name_Cleanup_legal_witness :
  nth_error (File_Name_Cleanup (Unicode.text "a|b")) 2 = Some (N_of_ascii "b").
Proof.
  apply (proj1 (proj2 (proj2 (File_Name_Cleanup_legal (Unicode.text "a|b"))))).
  - reflexivity.
  - vm_compute. intuition discriminate.
Defined.

(** *** The re-issued method *)

Lemma find_from_one (q : N) : forall (s : Unicode.ustr) (i : Z),
  0 <= i ->
  (Unicode.find_from i s [q] >? -1) = existsb (fun c => (c =? q)%N) s.
Proof.
  induction s as [|c s IH]; intros i Hi; [reflexivity|].
  cbn [Unicode.find_from Unicode.startswith existsb].
  rewrite andb_true_r. destruct (c =? q)%N.
  - cbn [orb]. apply Z.gtb_lt. lia.
  - cbn [orb]. apply IH. lia.
Qed.

Lemma replace_first_one (q d : N) (s : Unicode.ustr) :
  Unicode.replace_first s [q] [d]
  = match s with
    | [] => []
    | c :: s' =>
        if (c =? q)%N then d :: s' else c :: Unicode.replace_first s' [q] [d]
    end.
Proof.
  destruct s as [|c s]; [reflexivity|].
  cbn [Unicode.replace_first Unicode.startswith length skipn app].
  rewrite andb_true_r. reflexivity.
Qed.

Lemma alternate_none (s : Unicode.ustr) (count : nat) :
  existsb (fun c => (c =? quotation_mark)%N) s = false -> alternate count s = s.
Proof.
  induction s as [|c s IH]; [reflexivity|]. cbn [existsb alternate].
  destruct (c =? quotation_mark)%N; [discriminate|].
  cbn [orb]. intros H. now rewrite IH.
Qed.

Lemma alternate_first (s : Unicode.ustr) (count : nat) :
  existsb (fun c => (c =? quotation_mark)%N) s = true ->
  alternate (S count)
    (Unicode.replace_first s [quotation_mark]
       [if Nat.even count then left_quotation_mark else right_quotation_mark])
  = alternate count s /\
  length (filter (fun c => (c =? quotation_mark)%N)
            (Unicode.replace_first s [quotation_mark]
               [if Nat.even count then left_quotation_mark
                else right_quotation_mark]))
  = pred (length (filter (fun c => (c =? quotation_mark)%N) s)).
Proof.
  induction s as [|c s IH]; [discriminate|].
  rewrite replace_first_one. cbn [existsb alternate filter].
  destruct (c =? quotation_mark)%N eqn:Hc.
  - intros _. cbn [alternate filter length pred].
    destruct (Nat.even count); cbn; auto.
  - cbn [orb]. intros Hs. destruct (IH Hs) as (Ha & Hl).
    cbn [alternate filter]. rewrite Hc, Ha, Hl. auto.
Qed.

Lemma replace_by_turn (count : nat) :
  nth (count mod 2) [left_quotation_mark; right_quotation_mark] 0%N
  = if Nat.even count then left_quotation_mark else right_quotation_mark.
Proof.
  destruct (Nat.even count) eqn:He.
  - apply Nat.even_spec in He as (k & ->).
    now rewrite Nat.mul_comm, Nat.Div0.mod_mul.
  - assert (Ho : Nat.odd count = true) by (unfold Nat.odd; now rewrite He).
    apply Nat.odd_spec in Ho as (k & ->).
    now rewrite Nat.add_comm, Nat.mul_comm, Nat.Div0.mod_add.
Qed.

(** The loop ends by its condition, with every quotation mark
    replaced. *)
Lemma quotes_loop_alternate : forall (fuel : nat) (s : Unicode.ustr) (count : nat),
  (length (filter (fun c => (c =? quotation_mark)%N) s) <= fuel)%nat ->
  quotes_loop fuel [left_quotation_mark; right_quotation_mark] s count
  = alternate count s.
Proof.
  induction fuel as [|fuel IH]; intros s count Hfuel.
  - cbn [quotes_loop]. unfold Unicode.find.
    rewrite find_from_one by lia.
    destruct (existsb _ s) eqn:Hq.
    + apply existsb_exists in Hq as (x & Hx & Hxq).
      assert (Hin : In x (filter (fun c => (c =? quotation_mark)%N) s))
        by (apply filter_In; auto).
      destruct (filter _ s); [contradiction|simpl in Hfuel; lia].
    + now rewrite alternate_none.
  - cbn [quotes_loop]. unfold Unicode.find.
    rewrite find_from_one by lia.
    destruct (existsb _ s) eqn:Hq.
    + rewrite replace_by_turn, Nat.add_1_r.
      destruct (alternate_first s count Hq) as (Ha & Hl).
      rewrite IH; [exact Ha|]. rewrite Hl. lia.
    + now rewrite alternate_none.
Qed.

Lemma legal_2_map (name : Unicode.ustr) :
  Unicode.replace
    (Unicode.replace
       (Unicode.replace
          (Unicode.replace
             (Unicode.replace
                (Unicode.replace
                   (Unicode.replace
                      (Unicode.replace
                         (Unicode.replace
                            (Unicode.replace name (Unicode.one "|") (Unicode.one "-"))
                            (Unicode.one "?") [fullwidth_question_mark])
                         (Unicode.one "*") [multiplication_sign])
                      (Unicode.one "/") [diagonal_rising])
                   (Unicode.one "\") [diagonal_falling])
                [line_feed] (Unicode.one "_"))
             [carriage_return] (Unicode.one "_"))
          (Unicode.one ":") [fullwidth_colon])
       (Unicode.one ">") [right_angle_bracket])
    (Unicode.one "<") [left_angle_bracket]
  = map legal_2 name.
Proof.
  unfold Unicode.one. rewrite !replace_one, !map_map. apply map_ext. intros c.
  unfold legal_2, line_feed, carriage_return.
  change (N_of_ascii "|") with 124%N. change (N_of_ascii "?") with 63%N.
  change (N_of_ascii "*") with 42%N. change (N_of_ascii "/") with 47%N.
  change (N_of_ascii "\") with 92%N. change (N_of_ascii ":") with 58%N.
  change (N_of_ascii ">") with 62%N. change (N_of_ascii "<") with 60%N.
  by_character c. reflexivity.
Qed.

(** The method in one pass. *)
Lemma file_name_cleanup_form (name : Unicode.ustr) (left right : bool) :
  file_name_cleanup name left right
  = (if right then Unicode.rstrip else fun s => s)
      ((if left then Unicode.lstrip else fun s => s)
         (alternate 0
            (Unicode.replace (map legal_2 name) (Unicode.text "&nbsp;")
                             (Unicode.one " ")))).
Proof.
  unfold file_name_cleanup. cbv zeta. rewrite legal_2_map.
  rewrite quotes_loop_alternate.
  - now destruct left, right.
  - etransitivity; [apply filter_length_le|]. lia.
Qed.

Lemma replace_scan_incl (old new : Unicode.ustr) (x : N) :
  forall (s : Unicode.ustr) (skip : nat),
  In x (Unicode.replace_scan old new skip s) -> In x s \/ In x new.
Proof.
  induction s as [|c s IH]; intros skip; [contradiction|].
  cbn [Unicode.replace_scan]. destruct skip as [|k].
  - destruct (Unicode.startswith (c :: s) old).
    + intros Hin. apply in_app_or in Hin as [Hin|Hin]; [now right|].
      destruct (IH _ Hin); [left; now right|now right].
    + intros [->|Hin]; [left; now left|].
      destruct (IH _ Hin); [left; now right|now right].
  - intros Hin. destruct (IH _ Hin); [left; now right|now right].
Qed.

Lemma alternate_incl (x : N) : forall (s : Unicode.ustr) (count : nat),
  In x (alternate count s) ->
  x <> quotation_mark /\
  (In x s \/ x = left_quotation_mark \/ x = right_quotation_mark).
Proof.
  induction s as [|c s IH]; intros count; [contradiction|].
  cbn [alternate]. destruct (N.eqb_spec c quotation_mark) as [->|Hc].
  - intros [<-|Hin].
    + split; [destruct (Nat.even count); discriminate|].
      destruct (Nat.even count); auto.
    + destruct (IH _ Hin) as (Hx & [H|H]); (split; [exact Hx|]); auto.
      left. now right.
  - intros [<-|Hin].
    + split; [exact Hc|]. left. now left.
    + destruct (IH _ Hin) as (Hx & [H|H]); (split; [exact Hx|]); auto.
      left. now right.
Qed.

Lemma lstrip_suffix (s : Unicode.ustr) : exists p, s = p ++ Unicode.lstrip s.
Proof.
  induction s as [|c s (p & IH)]; [now exists []|].
  cbn [Unicode.lstrip]. destruct (Unicode.isspace c); [|now exists []].
  exists (c :: p). cbn [app]. now rewrite <- IH.
Qed.

Lemma rstrip_prefix (s : Unicode.ustr) : exists t, s = Unicode.rstrip s ++ t.
Proof.
  destruct (lstrip_suffix (rev s)) as (p & Hp). exists (rev p).
  unfold Unicode.rstrip. rewrite <- rev_app_distr, <- Hp. now rewrite rev_involutive.
Qed.

Lemma lstrip_head (s : Unicode.ustr) (c : N) :
  hd_error (Unicode.lstrip s) = Some c -> Unicode.isspace c = false.
Proof.
  induction s as [|x s IH]; [discriminate|]. cbn [Unicode.lstrip].
  destruct (Unicode.isspace x) eqn:Hx; [exact IH|]. now intros [= <-].
Qed.

Lemma legal_2_not_illegal (c x : N) :
  In x illegal_2 -> x <> quotation_mark -> legal_2 c <> x.
Proof.
  intros Hx Hq.
  assert (Hclosed : (x = 13 \/ x = 124 \/ x = 63 \/ x = 42 \/ x = 47 \/ x = 92
                     \/ x = 10 \/ x = 58 \/ x = 62 \/ x = 60)%N).
  { vm_compute in Hx. unfold quotation_mark in Hq. intuition congruence. }
  clear Hx Hq. unfold legal_2, line_feed, carriage_return.
  change (N_of_ascii "|") with 124%N. change (N_of_ascii "?") with 63%N.
  change (N_of_ascii "*") with 42%N. change (N_of_ascii "/") with 47%N.
  change (N_of_ascii "\") with 92%N. change (N_of_ascii ":") with 58%N.
  change (N_of_ascii ">") with 62%N. change (N_of_ascii "<") with 60%N.
  destruct (N.eqb_spec c 124) as [->|?]; [vm_compute; intuition congruence|].
  destruct (N.eqb_spec c 63) as [->|?]; [vm_compute; intuition congruence|].
  destruct (N.eqb_spec c 42) as [->|?]; [vm_compute; intuition congruence|].
  destruct (N.eqb_spec c 47) as [->|?]; [vm_compute; intuition congruence|].
  destruct (N.eqb_spec c 92) as [->|?]; [vm_compute; intuition congruence|].
  destruct (N.eqb_spec c 10) as [->|?]; [vm_compute; intuition congruence|].
  destruct (N.eqb_spec c 13) as [->|?]; [vm_compute; intuition congruence|].
  destruct (N.eqb_spec c 58) as [->|?]; [vm_compute; intuition congruence|].
  destruct (N.eqb_spec c 62) as [->|?]; [vm_compute; intuition congruence|].
  destruct (N.eqb_spec c 60) as [->|?]; [vm_compute; intuition congruence|].
  intuition congruence.
Qed.

(** X18 (file_name_cleanup): the name returned holds none of the eleven
    characters that the method replaces, the carriage return and the
    double quotation mark among them; with [remove_left_whitespace] its
    first character is no white space, and with [remove_right_whitespace]
    its last one is none. *)
Theorem file_name_cleanup_legal (name : Unicode.ustr)
        (remove_left_whitespace remove_right_whitespace : bool) :
  Forall (fun c =>
            ~ In c (file_name_cleanup name remove_left_whitespace
                                      remove_right_whitespace))
         illegal_2 /\
  (remove_left_whitespace = true ->
   forall c,
     hd_error (file_name_cleanup name remove_left_whitespace
                                 remove_right_whitespace) = Some c ->
     Unicode.isspace c = false) /\
  (remove_right_whitespace = true ->
   forall c,
     hd_error (rev (file_name_cleanup name remove_left_whitespace
                                      remove_right_whitespace)) = Some c ->
     Unicode.isspace c = false).
Proof.
  rewrite file_name_cleanup_form.
  set (body := alternate 0 _).
  set (stripped := (if remove_left_whitespace then Unicode.lstrip else fun s => s) body).
  assert (Hsub1 : forall x, In x stripped -> In x body).
  { intros x. subst stripped. destruct remove_left_whitespace; [|auto].
    destruct (lstrip_suffix body) as (p & Hp). intros Hin. rewrite Hp.
    apply in_or_app. now right. }
  assert (Hsub2 : forall x,
             In x ((if remove_right_whitespace then Unicode.rstrip else fun s => s)
                     stripped) -> In x stripped).
  { intros x. destruct remove_right_whitespace; [|auto].
    destruct (rstrip_prefix stripped) as (t & Ht). intros Hin. rewrite Ht.
    apply in_or_app. now left. }
  split; [|split].
  - apply Forall_forall. intros c Hc Hin.
    apply Hsub2, Hsub1 in Hin. subst body.
    apply alternate_incl in Hin as (Hq & Hin).
    destruct Hin as [Hin|Hin].
    + apply replace_scan_incl in Hin as [Hin|Hin].
      * apply in_map_iff in Hin as (x & Hx & _).
        now apply (legal_2_not_illegal x c).
      * vm_compute in Hc, Hin. intuition congruence.
    + vm_compute in Hc. unfold left_quotation_mark, right_quotation_mark in Hin.
      intuition congruence.
  - intros -> c. subst stripped. cbv beta iota.
    destruct remove_right_whitespace.
    + destruct (rstrip_prefix (Unicode.lstrip body)) as (t & Ht).
      destruct (Unicode.rstrip (Unicode.lstrip body)) as [|x s] eqn:Hr;
        [discriminate|].
      intros [= ->]. apply (lstrip_head body). now rewrite Ht.
    + apply lstrip_head.
  - intros -> c. unfold Unicode.rstrip. rewrite rev_involutive.
    apply lstrip_head.
Qed.

Lemma file_name_cleanup_legal_witness :
  hd_error (file_name_cleanup (Unicode.text " a:b ") true true)
  = Some (N_of_ascii "a") /\
  Unicode.isspace (N_of_ascii "a") = false.
Proof.
  split; [reflexivity|].
  apply (proj1 (proj2 (file_name_cleanup_legal (Unicode.text " a:b ") true true))).
  - reflexivity.
  - reflexivity.
Defined.

(** X19 (file_name_cleanup): the [while] loop over the double quotation
    marks ends with each of them replaced, the first, third, ... by the
    left curly mark and the second, fourth, ... by the right one: the
    method is the replacement of single characters, then that of
    [&nbsp;] by a space, then this alternation, then the stripping that
    was asked for. *)
Theorem file_name_cleanup_quotes (name : Unicode.ustr)
        (remove_left_whitespace remove_right_whitespace : bool) :
  file_name_cleanup name remove_left_whitespace remove_right_whitespace
  = (if remove_right_whitespace then Unicode.rstrip else fun s => s)
      ((if remove_left_whitespace then Unicode.lstrip else fun s => s)
         (alternate 0
            (Unicode.replace (map legal_2 name) (Unicode.text "&nbsp;")
                             (Unicode.one " ")))).
Proof. apply file_name_cleanup_form. Qed.

(* ===================================================================== *)
(** ** Properties of Search_File_By_Name                                   *)
(* ===================================================================== *)

Import FileUtils_search.

Section Walk.
Variable os_walk : str -> list (str * list str).
Variable os_path_join : str -> str -> str.
Variable name : str.
Variable return_path_only allow_partial_name : bool.

Lemma for_filenames_all (dirpath : str) (filenames : list str) :
  forall result_list,
    for_filenames os_path_join name return_path_only true allow_partial_name
                  dirpath filenames result_list
    = inr (result_list
             ++ paths_of os_path_join name return_path_only allow_partial_name
                         dirpath filenames).
Proof.
  unfold paths_of.
  induction filenames as [|filename filenames IH]; intros result_list.
  - cbn. now rewrite app_nil_r.
  - cbn [for_filenames filter]. destruct (matches name allow_partial_name filename).
    + cbn [negb map]. rewrite IH, <- app_assoc. reflexivity.
    + apply IH.
Qed.

Lemma for_filenames_first (dirpath : str) (filenames : list str) :
  forall result_list,
    for_filenames os_path_join name return_path_only false allow_partial_name
                  dirpath filenames result_list
    = match paths_of os_path_join name return_path_only allow_partial_name
                     dirpath filenames with
      | [] => inr result_list
      | path :: _ => inl path
      end.
Proof.
  unfold paths_of.
  induction filenames as [|filename filenames IH]; intros result_list.
  - reflexivity.
  - cbn [for_filenames filter]. destruct (matches name allow_partial_name filename).
    + reflexivity.
    + apply IH.
Qed.

Lemma for_walk_all (walk : list (str * list str)) :
  forall result_list,
    for_walk os_path_join name return_path_only true allow_partial_name
             walk result_list
    = inr (result_list
             ++ flat_map (fun turn =>
                            paths_of os_path_join name return_path_only
                                     allow_partial_name (fst turn) (snd turn))
                         walk).
Proof.
  induction walk as [|[dirpath filenames] walk IH]; intros result_list.
  - cbn. now rewrite app_nil_r.
  - cbn [for_walk flat_map fst snd]. rewrite for_filenames_all, IH.
    now rewrite <- app_assoc.
Qed.

Lemma for_walk_first (walk : list (str * list str)) :
  for_walk os_path_join name return_path_only false allow_partial_name walk []
  = match flat_map (fun turn =>
                      paths_of os_path_join name return_path_only
                               allow_partial_name (fst turn) (snd turn))
                   walk with
    | [] => inr []
    | path :: _ => inl path
    end.
Proof.
  induction walk as [|[dirpath filenames] walk IH]; [reflexivity|].
  cbn [for_walk flat_map fst snd]. rewrite for_filenames_first.
  destruct (paths_of os_path_join name return_path_only allow_partial_name
                     dirpath filenames); [exact IH|reflexivity].
Qed.

End Walk.

Lemma Search_File_By_Name_candidates_eq
      (os_walk : str -> list (str * list str)) (os_path_join : str -> str -> str)
      (name root_path : str)
      (return_path_only return_all_files allow_partial_name : bool) :
  Search_File_By_Name os_walk os_path_join name return_path_only
                      return_all_files allow_partial_name root_path
  = match candidates os_walk os_path_join name return_path_only
                     allow_partial_name root_path with
    | [] => None
    | first :: others =>
        if return_all_files then Some (inr (first :: others))
        else Some (inl first)
    end.
Proof.
  unfold Search_File_By_Name, candidates. destruct return_all_files.
  - rewrite for_walk_all. cbn [app]. now destruct (flat_map _ _).
  - rewrite for_walk_first. now destruct (flat_map _ _).
Qed.

(** X20 (Search_File_By_Name): with [candidates] the paths of the files
    that match, in the order of the walk, the method returns [None] when
    there is none, the first of them when [return_all_files] is False, and
    the list of all of them otherwise: an empty list is never returned,
    and the path of the first call is the head of the list of the
    second. *)
Theorem Search_File_By_Name_candidates
        (os_walk : str -> list (str * list str)) (os_path_join : str -> str -> str)
        (name root_path : str)
        (return_path_only return_all_files allow_partial_name : bool) :
  Search_File_By_Name os_walk os_path_join name return_path_only
                      return_all_files allow_partial_name root_path
  = match candidates os_walk os_path_join name return_path_only
                     allow_partial_name root_path with
    | [] => None
    | first :: others =>
        if return_all_files then Some (inr (first :: others))
        else Some (inl first)
    end.
Proof. apply Search_File_By_Name_candidates_eq. Qed.

Lemma str_startswith_refl (s : str) : str_startswith s s = true.
Proof.
  induction s as [|c s IH]; [reflexivity|]. cbn [str_startswith].
  now rewrite Ascii.eqb_refl, IH.
Qed.

Lemma find_self (s : str) : find s s = 0.
Proof.
  unfold find. destruct s as [|c s]; [reflexivity|].
  cbn [find_from]. now rewrite str_startswith_refl.
Qed.

Lemma find_empty (s : str) : find s [] = 0.
Proof. unfold find. now destruct s. Qed.

(** X21 (Search_File_By_Name): with [allow_partial_name] the value of
    [return_path_only] makes no difference, every path found is that of a
    file, joined to its directory, and the files found include those
    whose name is [name] itself and, for the empty [name], every file of
    the walk. *)
Theorem Search_File_By_Name_partial
        (os_walk : str -> list (str * list str)) (os_path_join : str -> str -> str)
        (name root_path : str) (return_path_only return_all_files : bool) :
  Search_File_By_Name os_walk os_path_join name return_path_only
                      return_all_files true root_path
  = Search_File_By_Name os_walk os_path_join name false
                        return_all_files true root_path /\
  (forall path,
      In path (candidates os_walk os_path_join name return_path_only true
                          root_path) <->
      exists dirpath filenames filename,
        In (dirpath, filenames) (os_walk root_path) /\
        In filename filenames /\
        find filename name <> -1 /\
        path = os_path_join dirpath filename) /\
  (forall dirpath filenames filename,
      In (dirpath, filenames) (os_walk root_path) ->
      In filename filenames ->
      filename = name \/ name = [] ->
      In (os_path_join dirpath filename)
         (candidates os_walk os_path_join name return_path_only true
                     root_path)).
Proof.
  assert (Hpaths : forall path,
      In path (candidates os_walk os_path_join name return_path_only true
                          root_path) <->
      exists dirpath filenames filename,
        In (dirpath, filenames) (os_walk root_path) /\
        In filename filenames /\
        find filename name <> -1 /\
        path = os_path_join dirpath filename).
  { intros path. unfold candidates. rewrite in_flat_map. split.
    - intros ([dirpath filenames] & Hturn & Hin). cbn [fst snd] in Hin.
      apply in_map_iff in Hin as (filename & <- & Hin).
      apply filter_In in Hin as (Hin & Hm).
      exists dirpath, filenames, filename. split; [exact Hturn|].
      split; [exact Hin|]. split.
      + unfold matches in Hm. rewrite !andb_false_r, andb_true_r in Hm.
        cbn [orb] in Hm. apply negb_true_iff, Z.eqb_neq in Hm. exact Hm.
      + unfold absolute_path. now rewrite andb_false_r.
    - intros (dirpath & filenames & filename & Hturn & Hin & Hfind & ->).
      exists (dirpath, filenames). split; [exact Hturn|]. cbn [fst snd].
      apply in_map_iff. exists filename. split.
      + unfold absolute_path. now rewrite andb_false_r.
      + apply filter_In. split; [exact Hin|].
        unfold matches. rewrite andb_false_r, andb_true_r. cbn [orb].
        now apply negb_true_iff, Z.eqb_neq. }
  split; [|split].
  - rewrite !Search_File_By_Name_candidates_eq.
    now destruct return_path_only.
  - exact Hpaths.
  - intros dirpath filenames filename Hturn Hin Hname. apply Hpaths.
    exists dirpath, filenames, filename. split; [exact Hturn|].
    split; [exact Hin|]. split; [|reflexivity].
    destruct Hname as [->| ->]; [rewrite find_self|rewrite find_empty];
      discriminate.
Qed.

Lemma Search_File_By_Name_partial_witness :
  In (u "/d/a.txt")
     (candidates (fun _ => [(u "/d", [u "a.txt"; u "b.txt"])])
                 (fun dirpath filename => dirpath ++ u "/" ++ filename)
                 (u "a.txt") true true (u "/d")).
Proof.
  apply (proj2 (proj2 (Search_File_By_Name_partial
                         (fun _ => [(u "/d", [u "a.txt"; u "b.txt"])])
                         (fun dirpath filename => dirpath ++ u "/" ++ filename)
                         (u "a.txt") (u "/d") true true))
               (u "/d") [u "a.txt"; u "b.txt"] (u "a.txt")).
  - simpl. tauto.
  - simpl. tauto.
  - left. reflexivity.
Defined.

(* ===================================================================== *)
(** ** Texts that base64_decoder refuses                                   *)
(* ===================================================================== *)

Lemma chunks_from_concat {A} n : forall fuel (s : list A),
  (length s <= fuel)%nat -> concat (chunks_from fuel (S n) s) = s.
Proof.
  induction fuel as [|fuel IH]; intros s Hlen.
  - destruct s; [reflexivity|simpl in Hlen; lia].
  - destruct s as [|x s]; [reflexivity|].
    cbn [chunks_from concat]. rewrite IH.
    + apply firstn_skipn.
    + rewrite length_skipn. simpl in *. lia.
Qed.

Lemma pad_to_four_suffix {A} (pad : A) : forall turns (s : list A),
  exists t, pad_to_four turns pad s = s ++ t.
Proof.
  induction turns as [|turns IH]; intros s; cbn [pad_to_four].
  - exists []. rewrite app_nil_r. now destruct (_ =? _)%nat.
  - destruct (_ =? _)%nat; [exists []; now rewrite app_nil_r|].
    destruct (IH (s ++ [pad])) as (t & ->). exists ([pad] ++ t).
    now rewrite app_assoc.
Qed.

Lemma index_from_absent (c : ascii) : forall (t : str) (i : nat),
  ~ In c t -> index_from i c t = None.
Proof.
  induction t as [|x t IH]; intros i Hno; [reflexivity|].
  cbn [index_from]. destruct (Ascii.eqb_spec x c) as [->|Hx].
  - exfalso. apply Hno. now left.
  - apply IH. intros Hin. apply Hno. now right.
Qed.

(** X22 (base64_decoder): a text that holds a character outside the map
    chosen, a blank or a line feed for one, is refused with [ValueError]
    under each of the three maps and for both kinds of output. *)
Theorem base64_decoder_foreign_character (encrypted_text : str) (c : ascii)
        (decode_output_as_str : bool) (encoding : codec) (name : string)
        (BASE64MAP : str) :
  BASE64MAP_dict name = Some BASE64MAP ->
  In c encrypted_text ->
  ~ In c BASE64MAP ->
  base64_decoder (inl encrypted_text) decode_output_as_str encoding name
  = raise ValueError.
Proof.
  intros HM Hc Hno. rewrite base64_decoder_str, HM.
  assert (Hin : In c (prepared name encrypted_text)).
  { unfold prepared. destruct (_ || _); [|exact Hc].
    destruct (pad_to_four_suffix "="%char 3 encrypted_text) as (t & ->).
    apply in_or_app. now left. }
  assert (Hfour : exists four,
             In four (chunks 4 (prepared name encrypted_text)) /\ In c four).
  { apply in_concat. unfold chunks. now rewrite chunks_from_concat. }
  destruct Hfour as (four & Hfour & Hcfour).
  match goal with
  | |- context [traverse ?f (chunks 4 ?s)] =>
      destruct (traverse_fails f (chunks 4 s) four Hfour) as (e & He)
  end.
  - unfold decode_four.
    destruct (traverse_fails (decode_character BASE64MAP) four c Hcfour)
      as (e & ->).
    + exists ValueError. unfold decode_character, tuple_index.
      now rewrite index_from_absent.
    + now exists e.
  - rewrite He.
    now rewrite (traverse_error _ _ _ _ (decode_four_error _) He).
Qed.

Lemma base64_decoder_foreign_character_witness :
  base64_decoder (inl (u "TW Fu")) true ascii_codec "default" = raise ValueError.
Proof.
  apply (base64_decoder_foreign_character (u "TW Fu") " "%char true ascii_codec
           "default" _ eq_refl).
  - simpl. tauto.
  - vm_compute. intuition discriminate.
Defined.

(* ===================================================================== *)
(** ** The direction of a literal search                                   *)
(* ===================================================================== *)

Section Direction.
Variable re : re_module.
Variable search_for : str.
Variable count : Z.

(** The number of recorded matches of a literal search that has [r] of
    them already and meets [n] more lines with the text. *)
Lemma search_loop_literal (lines : list str) : forall result,
  (0 <? count) = false \/ Z.of_nat (length result) < count ->
  fst (search_loop re search_for false count lines None result)
  = ok (result
          ++ repeat search_for
               (if 0 <? count
                then Nat.min (length (filter (fun line =>
                                                negb (find line search_for =? -1))
                                             lines))
                             (Z.to_nat count - length result)
                else length (filter (fun line =>
                                       negb (find line search_for =? -1))
                                    lines))).
Proof.
  destruct (0 <? count) eqn:Hpos.
  - assert (Hpos' : 0 < count) by now apply Z.ltb_lt.
    induction lines as [|line lines IH]; intros result [Hcount|Hcount];
      try discriminate.
    + cbn [search_loop fst filter length Nat.min repeat]. now rewrite app_nil_r.
    + cbn [search_loop filter]. unfold search_line. cbn [negb]. rewrite Hpos.
      cbn [andb].
      destruct (negb (find line search_for =? -1)) eqn:Hline; unfold ok.
      * cbv iota beta. rewrite length_app. cbn [length].
        destruct (Z.eqb_spec count (Z.of_nat (length result + 1))) as [Heq|Hne].
        -- cbn [fst]. f_equal. f_equal.
           replace (Z.to_nat count - length result)%nat with 1%nat by lia.
           now rewrite Nat.min_r by lia.
        -- destruct (search_loop re search_for false count lines None
                       (result ++ [search_for])) as [r v] eqn:Hloop.
           cbn [fst]. change r with (fst (r, v)). rewrite <- Hloop.
           rewrite IH by (right; rewrite length_app; cbn [length]; lia).
           rewrite length_app. cbn [length].
           rewrite <- app_assoc. unfold ok. f_equal. f_equal.
           replace (Nat.min (S (length (filter (fun line0 =>
                                negb (find line0 search_for =? -1)) lines)))
                            (Z.to_nat count - length result))
             with (S (Nat.min (length (filter (fun line0 =>
                                  negb (find line0 search_for =? -1)) lines))
                              (Z.to_nat count - (length result + 1)))) by lia.
           reflexivity.
      * cbv iota beta.
        destruct (Z.eqb_spec count (Z.of_nat (length result))) as [Heq|Hne];
          [lia|].
        destruct (search_loop re search_for false count lines None result)
          as [r v] eqn:Hloop.
        cbn [fst]. change r with (fst (r, v)). rewrite <- Hloop.
        now rewrite IH by now right.
  - induction lines as [|line lines IH]; intros result _.
    + cbn [search_loop fst filter length repeat]. now rewrite app_nil_r.
    + cbn [search_loop filter]. unfold search_line. cbn [negb]. rewrite Hpos.
      cbn [andb].
      destruct (negb (find line search_for =? -1)) eqn:Hline; unfold ok;
        cbv iota beta.
      * destruct (search_loop re search_for false count lines None
                    (result ++ [search_for])) as [r v] eqn:Hloop.
        cbn [fst]. change r with (fst (r, v)). rewrite <- Hloop.
        rewrite IH by now left. cbn [length repeat].
        now rewrite <- app_assoc.
      * destruct (search_loop re search_for false count lines None result)
          as [r v] eqn:Hloop.
        cbn [fst]. change r with (fst (r, v)). rewrite <- Hloop.
        now rewrite IH by now left.
Qed.

End Direction.

Lemma lstrip_split (s : str) :
  exists p, s = p ++ lstrip s /\ forallb isspace p = true.
Proof.
  induction s as [|c s (p & IH & Hp)]; [now exists []|].
  cbn [lstrip]. destruct (isspace c) eqn:Hc; [|now exists []].
  exists (c :: p). cbn [app forallb]. rewrite Hc, Hp. now rewrite <- IH.
Qed.

Lemma rstrip_split (s : str) :
  exists ws, s = rstrip s ++ ws /\ forallb isspace ws = true.
Proof.
  destruct (lstrip_split (rev s)) as (p & Hp & Hws). exists (rev p). split.
  - unfold rstrip. rewrite <- rev_app_distr, <- Hp. now rewrite rev_involutive.
  - apply forallb_forall. intros c Hc. apply in_rev in Hc.
    rewrite forallb_forall in Hws. now apply Hws.
Qed.

Lemma find_from_blank_end (p : ascii) (sub : str) :
  isspace p = false ->
  forall (ws : str) (i : Z),
    forallb isspace ws = true -> find_from i ws (p :: sub) = -1.
Proof.
  intros Hp. induction ws as [|w ws IH]; intros i Hws; [reflexivity|].
  cbn [forallb] in Hws. apply andb_true_iff in Hws as (Hw & Hws).
  cbn [find_from str_startswith].
  destruct (Ascii.eqb_spec p w) as [->|Hne]; [congruence|].
  cbn [andb]. now apply IH.
Qed.

Lemma str_startswith_blank (ws : str) :
  forallb isspace ws = true ->
  forall (sub s : str),
    forallb (fun c => negb (isspace c)) sub = true ->
    str_startswith (s ++ ws) sub = str_startswith s sub.
Proof.
  intros Hws. induction sub as [|p sub IH]; intros s Hsub; [now destruct s|].
  cbn [forallb] in Hsub. apply andb_true_iff in Hsub as (Hp & Hsub).
  apply negb_true_iff in Hp. destruct s as [|c s].
  - cbn [app str_startswith]. destruct ws as [|w ws']; [reflexivity|].
    cbn [forallb] in Hws. apply andb_true_iff in Hws as (Hw & _).
    destruct (Ascii.eqb_spec p w) as [->|Hne]; [congruence|reflexivity].
  - cbn [app str_startswith]. now rewrite IH.
Qed.

(** A text without white space occurs in a line when it occurs in the line
    stripped at its right end. *)
Lemma find_from_blank (ws : str) (p : ascii) (sub : str) :
  forallb isspace ws = true ->
  forallb (fun c => negb (isspace c)) (p :: sub) = true ->
  forall (s : str) (i : Z),
    (find_from i (s ++ ws) (p :: sub) =? -1) = (find_from i s (p :: sub) =? -1).
Proof.
  intros Hws Hsub.
  assert (Hp : isspace p = false).
  { cbn [forallb] in Hsub. apply andb_true_iff in Hsub as (Hp & _).
    now apply negb_true_iff in Hp. }
  induction s as [|c s IH]; intros i.
  - cbn [app]. now rewrite (find_from_blank_end p sub Hp ws i Hws).
  - change ((c :: s) ++ ws) with (c :: (s ++ ws)).
    cbn [find_from]. change (c :: (s ++ ws)) with ((c :: s) ++ ws).
    rewrite (str_startswith_blank ws Hws (p :: sub) (c :: s) Hsub).
    destruct (str_startswith (c :: s) (p :: sub)); [reflexivity|apply IH].
Qed.

Lemma find_stripped (p : ascii) (sub line : str) :
  forallb (fun c => negb (isspace c)) (p :: sub) = true ->
  (find line (p :: sub) =? -1) = (find (rstrip line) (p :: sub) =? -1).
Proof.
  intros Hsub. destruct (rstrip_split line) as (ws & Hline & Hws).
  rewrite Hline at 1. apply (find_from_blank ws p sub Hws Hsub).
Qed.

(** X23 (Text_File_Search_All): a literal search for a text without white
    space returns the same value in both directions, for every [count], on
    a file that decodes and whose lines read in text mode are, each
    stripped at its right end, the lines of its bytes stripped so, as with
    an encoding that leaves CR and LF as they are; the lines that the two
    searches visit differ, their results do not. *)
Theorem literal_search_direction
        (re : re_module) (fs : filesystem) (file : string)
        (p : ascii) (sub : str) (encoding : codec) (count : Z)
        (content : bytes) (forward lines : list str) :
  forallb (fun c => negb (isspace c)) (p :: sub) = true ->
  fs file = Some content ->
  text_lines {| Py.encoding := encoding; buffer := content |} = (forward, None) ->
  lines_of {| Py.encoding := encoding; buffer := content |} = ok lines ->
  Forall2 (fun text line => rstrip text = rstrip line) forward lines ->
  returned (Text_File_Search_All re fs file (p :: sub) encoding false true count)
  = returned (Text_File_Search_All re fs file (p :: sub) encoding false false
                                   count).
Proof.
  intros Hplain Hfs Hforward Hlines Hsame_lines.
  unfold Text_File_Search_All, text_search_all, open_r. rewrite Hfs.
  unfold ok at 1 2. cbv beta iota.
  rewrite (Reverse_File_Reader_lines _ _ true true _ Hlines).
  rewrite Hforward. cbn [fst snd].
  set (backward := rev (map (fun line => rstrip line ++ ["010"%char]) lines)).
  pose proof (search_loop_literal re (p :: sub) count forward []) as Hf.
  pose proof (search_loop_literal re (p :: sub) count backward []) as Hb.
  assert (Hcount : (0 <? count) = false \/ Z.of_nat (length (@nil str)) < count).
  { destruct (0 <? count) eqn:Hpos; [right|now left].
    apply Z.ltb_lt in Hpos. exact Hpos. }
  specialize (Hf Hcount). specialize (Hb Hcount).
  assert (Hsame :
    length (filter (fun line => negb (find line (p :: sub) =? -1)) forward)
    = length (filter (fun line => negb (find line (p :: sub) =? -1)) backward)).
  { subst backward. rewrite filter_rev, length_rev.
    clear -Hplain Hsame_lines.
    induction Hsame_lines as [|text line forward lines Hstrip _ IH];
      [reflexivity|].
    cbn [map filter].
    assert (Hline : (find text (p :: sub) =? -1)
                    = (find (rstrip line ++ ["010"%char]) (p :: sub) =? -1)).
    { rewrite (find_stripped p sub text Hplain), Hstrip. symmetry.
      now apply (find_from_blank ["010"%char] p sub). }
    rewrite Hline.
    destruct (negb (find (rstrip line ++ ["010"%char]) (p :: sub) =? -1));
      cbn [length]; now rewrite IH. }
  rewrite Hsame in Hf. rewrite <- Hb in Hf.
  destruct (search_loop re (p :: sub) false count forward None []) as [rf vf].
  destruct (search_loop re (p :: sub) false count backward None [])
    as [rb vb].
  cbn [fst] in Hf. subst rf.
  destruct rb as [e|[|m result]]; reflexivity.
Qed.

Lemma literal_search_direction_witness :
  returned (Text_File_Search_All Re.engine pets "pets.txt" (u "cat")
              ascii_codec false true 0)
  = returned (Text_File_Search_All Re.engine pets "pets.txt" (u "cat")
                ascii_codec false false 0) /\
  returned (Text_File_Search_All Re.engine
              (fs_write fs_empty "a.txt" (b "a " ++ [LF])) "a.txt" (u " ")
              ascii_codec false true 0) = Some [u " "] /\
  returned (Text_File_Search_All Re.engine
              (fs_write fs_empty "a.txt" (b "a " ++ [LF])) "a.txt" (u " ")
              ascii_codec false false 0) = None.
Proof.
  split; [|split; reflexivity].
  eapply (literal_search_direction Re.engine pets "pets.txt" "c"%char (u "at")
            ascii_codec 0).
  - reflexivity.
  - reflexivity.
  - reflexivity.
  - reflexivity.
  - repeat constructor.
Defined.


(* ===================================================================== *)
(** ** The two ways of reading lines, on an ASCII file                     *)
(* ===================================================================== *)

Lemma ascii_of_byte_LF (c : byte) : Ascii.eqb (ascii_of_byte c) "010" = is_LF c.
Proof. destruct c; reflexivity. Qed.

Lemma ascii_of_byte_CR (c : byte) : Ascii.eqb (ascii_of_byte c) "013" = is_CR c.
Proof. destruct c; reflexivity. Qed.

(** Cutting the text of ASCII bytes into lines is cutting the bytes. *)
Lemma str_splitlines_ascii (s : bytes) :
  str_splitlines (map ascii_of_byte s)
  = map (map ascii_of_byte) (splitlines true s).
Proof.
  induction s as [|c|c d s IHs IHd] using bytes_ind2.
  - reflexivity.
  - cbn [map str_splitlines splitlines].
    rewrite ascii_of_byte_LF, ascii_of_byte_CR.
    destruct (is_LF c); [reflexivity|]. destruct (is_CR c); reflexivity.
  - rewrite splitlines_cons2.
    change (map ascii_of_byte (c :: d :: s))
      with (ascii_of_byte c :: map ascii_of_byte (d :: s)).
    cbn [str_splitlines]. fold str_splitlines.
    rewrite ascii_of_byte_LF, ascii_of_byte_CR.
    destruct (is_LF c).
    + rewrite IHd. reflexivity.
    + destruct (is_CR c).
      * cbn [map]. rewrite ascii_of_byte_LF.
        change (ascii_of_byte d :: map ascii_of_byte s)
          with (map ascii_of_byte (d :: s)).
        destruct (is_LF d); [rewrite IHs|rewrite IHd]; reflexivity.
      * rewrite IHd. now destruct (splitlines true (d :: s)).
Qed.

Lemma splitlines_concat (s : bytes) : concat (splitlines true s) = s.
Proof.
  induction s as [|c|c d s IHs IHd] using bytes_ind2.
  - reflexivity.
  - cbn [splitlines]. destruct (is_LF c); [reflexivity|].
    destruct (is_CR c); reflexivity.
  - rewrite splitlines_cons2. destruct (is_LF c).
    + cbn [concat app]. now rewrite IHd.
    + destruct (is_CR c).
      * destruct (is_LF d); cbn [concat app]; [now rewrite IHs|now rewrite IHd].
      * destruct (splitlines true (d :: s)) as [|l ls] eqn:Hsplit.
        -- apply splitlines_nil in Hsplit. discriminate.
        -- cbn [concat app] in *. now rewrite IHd.
Qed.

Lemma decode_all_ascii (pieces : list bytes) (lines : list str) :
  decode_all ascii_codec pieces = ok lines ->
  forallb is_ascii_byte (concat pieces) = true /\
  lines = map (map ascii_of_byte) pieces.
Proof.
  intros H. apply decode_all_Forall2 in H.
  induction H as [|piece text pieces lines Hpiece _ [IHa IHl]]; [now split|].
  cbn [decode ascii_codec] in Hpiece.
  destruct (forallb is_ascii_byte piece) eqn:Hascii; [|discriminate].
  injection Hpiece as <-. cbn [concat map]. rewrite forallb_app, Hascii, IHa.
  split; [reflexivity|]. now rewrite IHl.
Qed.

(** On an ASCII file the lines read in text mode are the lines of the
    bytes, each decoded, with their terminators handed over as LF. *)
Lemma ascii_text_lines (content : bytes) (lines : list str) :
  lines_of {| encoding := ascii_codec; buffer := content |} = ok lines ->
  text_lines {| encoding := ascii_codec; buffer := content |}
  = (map universal_newline lines, None).
Proof.
  unfold lines_of. cbn [encoding buffer]. intros H.
  apply decode_all_ascii in H as (Hascii & ->).
  rewrite splitlines_concat in Hascii.
  unfold text_lines. cbn [encoding buffer decode ascii_codec].
  rewrite Hascii. unfold ok. now rewrite str_splitlines_ascii.
Qed.

(** X24 (Reverse_File_Reader): on a file of ASCII bytes read as ASCII the
    two memory modes yield the same lines, for every [lines_separator]
    and both values of [keep_lines_separator]: reading the bytes backwards
    in windows gives what reversing [readlines()] gives. *)
Theorem reverse_file_reader_modes_agree
        (content : bytes) (lines_separator : str) (keep_lines_separator : bool) :
  forallb is_ascii_byte content = true ->
  Reverse_File_Reader {| encoding := ascii_codec; buffer := content |}
                      lines_separator keep_lines_separator true
  = Reverse_File_Reader {| encoding := ascii_codec; buffer := content |}
                        lines_separator keep_lines_separator false.
Proof.
  intros Hascii.
  set (file := {| encoding := ascii_codec; buffer := content |}).
  assert (Hlines : lines_of file
                   = ok (map (map ascii_of_byte) (splitlines true content))).
  { unfold lines_of, file. cbn [encoding buffer].
    apply decode_all_Forall2.
    assert (Hall : Forall (fun piece => forallb is_ascii_byte piece = true)
                          (splitlines true content)).
    { apply Forall_forall. intros piece Hin. apply forallb_forall.
      intros c Hc. rewrite forallb_forall in Hascii. apply Hascii.
      rewrite <- (splitlines_concat content). apply in_concat. eauto. }
    induction Hall as [|piece pieces Hpiece _ IH]; constructor; [|exact IH].
    cbn [decode ascii_codec]. now rewrite Hpiece. }
  assert (Hread : readlines file
                  = ok (map universal_newline
                            (map (map ascii_of_byte) (splitlines true content)))).
  { unfold readlines. subst file. now rewrite (ascii_text_lines _ _ Hlines). }
  rewrite (Reverse_File_Reader_lines file _ _ true _ Hlines).
  rewrite (Reverse_File_Reader_lines file _ _ false _ Hread).
  f_equal. f_equal. rewrite (map_map universal_newline).
  apply map_ext. intros line. now rewrite rstrip_universal_newline.
Qed.

Lemma reverse_file_reader_modes_agree_witness :
  Reverse_File_Reader trailing_space nl true true
  = Reverse_File_Reader trailing_space nl true false.
Proof.
  apply (reverse_file_reader_modes_agree (b "a " ++ [LF] ++ b "b") nl true).
  reflexivity.
Defined.
